(** * qr_booking_system: the booking and validation logic of ticket_gui_db.py

    A shallow embedding of the parts of [ticket_gui_db.py] that decide the
    behaviour of booking and validation: the SQLite set-up script, the
    [book_ticket] handler, the two validation handlers and [add_log].
    Tk widgets, OpenCV, pyzbar and qrcode are the program's environment:
    what they hand to the handlers (the entry text, the listbox selection,
    the texts decoded from an image or a camera frame, the wall clock) is an
    argument of the embedded function.  The handlers come first, as
    functions on the database alone; the window around them (the two table
    views with their queries, the export query, the route catalogue and
    the script that starts the program) follows in its own section, and
    after it the validation handlers on the file as it is picked and on
    the camera as it delivers, with the errors of opening and decoding
    and a loop without a bound.  The pixels of the QR image, the message
    boxes and the text of the CSV file are left out, and so are the
    storage classes SQLite gives to the values bound to a statement.  Rowids are unbounded integers: a run starts at 1 and
    stays far from SQLite's 64-bit limit. *)

From Stdlib Require Import ZArith NArith Ascii String DecimalString.
From Stdlib Require DecimalPos DecimalZ.
From Equations Require Import Equations.
From stdpp Require Import gmap strings list sorting.

Local Open Scope Z_scope.

(** ** Python text

    A Python [str] is a sequence of Unicode code points. *)

Definition char : Type := N.
Definition str : Type := list char.

(** A literal of the source, given by its ASCII characters. *)
Definition lit (s : string) : str :=
  map N_of_ascii (list_ascii_of_string s).

Definition char_eqb (a b : char) : bool := N.eqb a b.

(** [s.startswith(p)] *)
Fixpoint startswith (p s : str) : bool :=
  match p, s with
  | [], _ => true
  | _ :: _, [] => false
  | a :: p', b :: s' => char_eqb a b && startswith p' s'
  end.

(** [sub in s] *)
Fixpoint contains (sub s : str) : bool :=
  startswith sub s ||
  match s with
  | [] => false
  | _ :: s' => contains sub s'
  end.

(** [s.split(sep)] for a separator of one character: the fields between
    the separators, never an empty list. *)
Fixpoint split (sep : char) (s : str) : list str :=
  match s with
  | [] => [[]]
  | c :: s' =>
      if char_eqb c sep then [] :: split sep s'
      else match split sep s' with
           | [] => [[c]]
           | field :: fields => (c :: field) :: fields
           end
  end.

(** [s.replace(old, new)] for a non-empty [old]: the occurrences of [old]
    are found from left to right, the search going on behind each one. *)
Equations? replace (old new s : str) : str by wf (length s) lt :=
  replace old new [] := [];
  replace old new (c :: s') with startswith old (c :: s') := {
    | true => new ++ replace old new (drop (Nat.pred (length old)) s');
    | false => c :: replace old new s'
  }.
Proof.
  - rewrite length_drop. simpl. lia.
  - simpl. lia.
Qed.

(** [s.strip()]: Python strips the code points for which [str.isspace]
    holds, the ASCII ones 0x09-0x0D and 0x1C-0x20 and the Unicode ones
    below. *)
Definition isspace (c : char) : bool :=
  ((9 <=? c) && (c <=? 13) || (28 <=? c) && (c <=? 32)
   || (c =? 0x85) || (c =? 0xA0) || (c =? 0x1680)
   || (0x2000 <=? c) && (c <=? 0x200A)
   || (c =? 0x2028) || (c =? 0x2029) || (c =? 0x202F)
   || (c =? 0x205F) || (c =? 0x3000))%N.

Fixpoint lstrip (s : str) : str :=
  match s with
  | [] => []
  | c :: s' => if isspace c then lstrip s' else s
  end.

Definition rstrip (s : str) : str := rev (lstrip (rev s)).

Definition strip (s : str) : str := rstrip (lstrip s).

(** [str(n)] of a Python [int]: its decimal numeral. *)
Definition str_of_int (n : Z) : str :=
  lit (NilZero.string_of_int (Z.to_int n)).

(** [s] has no white space at either end. *)
Definition stripped (s : str) : Prop :=
  (forall c, head s = Some c -> isspace c = false) /\
  (forall c, last s = Some c -> isspace c = false).

(** The characters of a decimal numeral: the sign and the ten digits. *)
Definition numeral_char (c : char) : Prop := (c = 45 \/ 48 <= c <= 57)%N.

(** [not x] of a Python sequence: true on the empty one. *)
Definition py_not {A : Type} (x : list A) : bool :=
  match x with
  | [] => true
  | _ :: _ => false
  end.

(** ** The text of a ticket *)

Definition BookingID : str := lit "BookingID:".
Definition bar : char := N_of_ascii "|".

(** Lines 113-116 and 134-135: a decoded text without the marker is
    refused ([None]); otherwise the booking id is the first field of the
    text with the marker deleted from it. *)
Definition booking_id_of (qr_text : str) : option str :=
  if negb (contains BookingID qr_text) then None
  else Some (replace BookingID [] (nth 0 (split bar qr_text) [])).

(** The decoding as the specification words it, for comparison with
    [booking_id_of]: the text between the first occurrence of the marker
    and the first [|] behind it, or the end of the text. *)
Fixpoint behind (marker s : str) : option str :=
  if startswith marker s then Some (drop (length marker) s)
  else match s with
       | [] => None
       | _ :: s' => behind marker s'
       end.

Fixpoint upto (sep : char) (s : str) : str :=
  match s with
  | [] => []
  | c :: s' => if char_eqb c sep then [] else c :: upto sep s'
  end.

Definition spec_decode (rawText : str) : option str :=
  match behind BookingID rawText with
  | None => None
  | Some rest => Some (upto bar rest)
  end.

(** ** Exceptions and the statement monad

    A handler runs SQL statements one after the other on the connection
    and may be left by an exception; each statement that succeeded stays
    committed.  [sql A] threads the database through and carries either
    the value or the exception. *)

Inductive exn : Type :=
  | OperationalError   (* sqlite3: no such table, table already exists *)
  | IndexError.        (* a Python index out of range *)

Inductive result (A : Type) : Type :=
  | Ok (a : A)
  | Raise (e : exn).
Arguments Ok {A} a.
Arguments Raise {A} e.

Section Program.

(** A cell of the route catalogue, as pandas hands it over, and its
    rendering inside an f-string. *)
Context {cell : Type}.
Variable format_cell : cell -> str.

(** The integer SQLite compares with the INTEGER column [id] when the
    parameter bound to [id=?] is a TEXT value: the number the text
    spells, if it spells an integer. *)
Variable sqlite_int_of_text : str -> option Z.

Record route : Type := {
  route_BusNo : cell;
  route_Source : cell;
  route_Destination : cell;
  route_Time : cell;
  route_Fare : cell
}.

(** The catalogue loaded once from the CSV file. *)
Variable routes_df : list route.

(** *** Tables (lines 20-39)

    [b_time] and [b_fare] are the cells of the catalogue as they are
    bound to the INSERT; the storage class SQLite gives them is not
    modelled. *)

Record booking_row : Type := {
  b_id : Z;
  b_passenger : str;
  b_route : str;
  b_time : cell;
  b_fare : cell;
  b_status : str
}.

(** [l_booking_id] is the text bound to the parameter of the INSERT; the
    FOREIGN KEY of the column is not enforced (SQLite's default).  What
    the INTEGER column makes of the text on storage (the integer 7 of
    "007") is not modelled: the statements below read this field through
    [sqlite_int_of_text], or state it for the numeral of a booking's id. *)
Record log_row : Type := {
  l_log_id : Z;
  l_booking_id : str;
  l_method : str;
  l_timestamp : str
}.

(** The database file: a table is absent or holds its rows in rowid
    order; [sqlite_sequence] keeps, per AUTOINCREMENT table, the largest
    rowid ever given out. *)
Record database : Type := {
  bookings : option (list booking_row);
  validation_logs : option (list log_row);
  sqlite_sequence : gmap string Z
}.

Definition sql (A : Type) : Type := database -> result A * database.

Definition ret {A : Type} (a : A) : sql A := fun d => (Ok a, d).

Definition raise {A : Type} (e : exn) : sql A := fun d => (Raise e, d).

Definition bind {A B : Type} (m : sql A) (k : A -> sql B) : sql B :=
  fun d =>
    match m d with
    | (Ok a, d') => k a d'
    | (Raise e, d') => (Raise e, d')
    end.

Notation "x <- m ;; k" := (bind m (fun x => k))
  (at level 100, m at level 99, right associativity).
Notation "m ;;; k" := (bind m (fun _ => k))
  (at level 100, right associativity).

(** *** SQL statements of the program *)

(** [DROP TABLE IF EXISTS bookings]: the table goes, and with it its
    row of [sqlite_sequence]. *)
Definition drop_bookings : sql unit := fun d =>
  (Ok tt, {| bookings := None;
             validation_logs := validation_logs d;
             sqlite_sequence := delete "bookings"%string (sqlite_sequence d) |}).

Definition drop_validation_logs : sql unit := fun d =>
  (Ok tt, {| bookings := bookings d;
             validation_logs := None;
             sqlite_sequence :=
               delete "validation_logs"%string (sqlite_sequence d) |}).

(** [CREATE TABLE bookings (...)]: an error if the table is there. *)
Definition create_bookings : sql unit := fun d =>
  match bookings d with
  | Some _ => (Raise OperationalError, d)
  | None => (Ok tt, {| bookings := Some [];
                       validation_logs := validation_logs d;
                       sqlite_sequence := sqlite_sequence d |})
  end.

Definition create_validation_logs : sql unit := fun d =>
  match validation_logs d with
  | Some _ => (Raise OperationalError, d)
  | None => (Ok tt, {| bookings := bookings d;
                       validation_logs := Some [];
                       sqlite_sequence := sqlite_sequence d |})
  end.

(** INTEGER PRIMARY KEY AUTOINCREMENT: one more than the largest rowid
    of the table and the table's [sqlite_sequence] entry. *)
Definition next_rowid (rowids : list Z) (seq : option Z) : Z :=
  Z.max (foldr Z.max 0 rowids) (default 0 seq) + 1.

(** [INSERT INTO bookings (passenger, route, time, fare) VALUES (?,?,?,?)]
    followed by [cur.lastrowid]; [status] takes its DEFAULT 'Booked'. *)
Definition insert_booking (passenger route_str : str) (time fare : cell)
  : sql Z := fun d =>
  match bookings d with
  | None => (Raise OperationalError, d)
  | Some rows =>
      let rowid :=
        next_rowid (map b_id rows) (sqlite_sequence d !! "bookings"%string) in
      (Ok rowid,
       {| bookings := Some (rows ++ [ {| b_id := rowid;
                                        b_passenger := passenger;
                                        b_route := route_str;
                                        b_time := time;
                                        b_fare := fare;
                                        b_status := lit "Booked" |} ]);
          validation_logs := validation_logs d;
          sqlite_sequence :=
            <["bookings"%string := rowid]> (sqlite_sequence d) |})
  end.

(** [WHERE id=?] with a text bound to the parameter. *)
Definition where_id (param : str) (r : booking_row) : bool :=
  bool_decide (sqlite_int_of_text param = Some (b_id r)).

Definition set_status (status : str) (r : booking_row) : booking_row :=
  {| b_id := b_id r;
     b_passenger := b_passenger r;
     b_route := b_route r;
     b_time := b_time r;
     b_fare := b_fare r;
     b_status := status |}.

(** [UPDATE bookings SET status=? WHERE id=?] *)
Definition update_status (status param : str) : sql unit := fun d =>
  match bookings d with
  | None => (Raise OperationalError, d)
  | Some rows =>
      (Ok tt,
       {| bookings :=
            Some (map (fun r => if where_id param r
                                then set_status status r else r) rows);
          validation_logs := validation_logs d;
          sqlite_sequence := sqlite_sequence d |})
  end.

(** [INSERT INTO validation_logs (booking_id, method, timestamp)
    VALUES (?,?,?)] *)
Definition insert_log (booking_id method timestamp : str) : sql Z :=
  fun d =>
  match validation_logs d with
  | None => (Raise OperationalError, d)
  | Some rows =>
      let rowid :=
        next_rowid (map l_log_id rows)
                   (sqlite_sequence d !! "validation_logs"%string) in
      (Ok rowid,
       {| bookings := bookings d;
          validation_logs :=
            Some (rows ++ [ {| l_log_id := rowid;
                               l_booking_id := booking_id;
                               l_method := method;
                               l_timestamp := timestamp |} ]);
          sqlite_sequence :=
            <["validation_logs"%string := rowid]> (sqlite_sequence d) |})
  end.

(** *** Database Setup (lines 17-40) *)

Definition database_setup : sql unit :=
  drop_bookings ;;;
  drop_validation_logs ;;;
  create_bookings ;;;
  create_validation_logs.

(** *** Book Ticket (lines 62-93) *)

(** The f-string of line 70. *)
Definition route_str (route : route) : str :=
  format_cell (route_BusNo route) ++ lit ": "
  ++ format_cell (route_Source route) ++ lit "-"
  ++ format_cell (route_Destination route).

(** The f-string of line 78. *)
Definition qr_data (booking_id : Z) (passenger route_str : str)
    (time fare : cell) : str :=
  lit "BookingID:" ++ str_of_int booking_id
  ++ lit "|Passenger:" ++ passenger
  ++ lit "|Route:" ++ route_str
  ++ lit "|Time:" ++ format_cell time
  ++ lit "|Fare:" ++ format_cell fare.

(** The same text for a booking as the table holds it. *)
Definition encode (b : booking_row) : str :=
  qr_data (b_id b) (b_passenger b) (b_route b) (b_time b) (b_fare b).

(** What the handler leaves behind: the warning box, or the booking id
    and the text put into the QR image. *)
Inductive booked : Type :=
  | BookWarning
  | BookSuccess (booking_id : Z) (qr : str).

(** [entry_name] is the text of the entry widget, [curselection] the
    tuple of selected listbox indices. *)
Definition book_ticket (entry_name : str) (curselection : list nat)
  : sql booked :=
  let passenger := strip entry_name in
  let selected := curselection in
  if py_not passenger || py_not selected then ret BookWarning
  else
    match selected !! 0%nat with
    | None => raise IndexError
    | Some i =>
        match routes_df !! i with
        | None => raise IndexError
        | Some route =>
            let route_str := route_str route in
            let time := route_Time route in
            let fare := route_Fare route in
            booking_id <- insert_booking passenger route_str time fare ;;
            ret (BookSuccess booking_id
                   (qr_data booking_id passenger route_str time fare))
        end
    end.

(** *** Add Validation Log (lines 96-101); [timestamp] is the formatted
    wall-clock time of the call. *)
Definition add_log (booking_id method timestamp : str) : sql unit :=
  insert_log booking_id method timestamp ;;; ret tt.

(** *** Validate from Image (lines 104-122) *)

Inductive validated : Type :=
  | NoFile                      (* the file dialog was cancelled *)
  | NoQRCode                    (* "No QR code found in image" *)
  | InvalidQRCode               (* "Invalid QR code" *)
  | NoValidQR                   (* "No valid QR scanned" *)
  | Validated (booking_id : str).

(** [picked] is [None] when the dialog is cancelled and otherwise the
    texts of the symbols pyzbar finds in the chosen image, decoded
    already; [validate_from_image_file] below starts from the file. *)
Definition validate_from_image (picked : option (list str)) (now : str)
  : sql validated :=
  match picked with
  | None => ret NoFile
  | Some decoded =>
      match decoded with
      | [] => ret NoQRCode
      | qr_text :: _ =>
          match booking_id_of qr_text with
          | None => ret InvalidQRCode
          | Some booking_id =>
              update_status (lit "Validated") booking_id ;;;
              add_log booking_id (lit "Image") now ;;;
              ret (Validated booking_id)
          end
      end
  end.

(** *** Validate via Webcam (lines 125-152) *)

(** A frame read from the camera: the texts of the symbols in it and
    whether [q] is down when the frame is shown. *)
Record frame : Type := {
  frame_codes : list str;
  frame_key_q : bool
}.

(** The [for] loop over the symbols of one frame. *)
Fixpoint scan_codes (codes : list str) (now : str) : sql (option str) :=
  match codes with
  | [] => ret None
  | qr_text :: codes' =>
      match booking_id_of qr_text with
      | Some booking_id =>
          update_status (lit "Validated") booking_id ;;;
          add_log booking_id (lit "Webcam") now ;;;
          ret (Some booking_id)
      | None => scan_codes codes' now
      end
  end.

(** The [while] loop; the camera delivers [frames] and then fails to
    read, and the symbols are decoded already; [scan_camera] below has
    the camera as it is. *)
Fixpoint scan_frames (frames : list frame) (now : str)
  : sql (option str) :=
  match frames with
  | [] => ret None
  | f :: frames' =>
      found <- scan_codes (frame_codes f) now ;;
      match found with
      | Some booking_id => ret (Some booking_id)
      | None =>
          if frame_key_q f then ret None else scan_frames frames' now
      end
  end.

Definition validate_via_webcam (frames : list frame) (now : str)
  : sql validated :=
  found <- scan_frames frames now ;;
  match found with
  | Some booking_id => ret (Validated booking_id)
  | None => ret NoValidQR
  end.

(** *** Runs of the program

    After the set-up the main loop runs one handler per button press;
    an exception in a handler is reported by Tk and the loop goes on
    with the database as the handler left it. *)

Inductive action : Type :=
  | Book (entry_name : str) (curselection : list nat)
  | FromImage (picked : option (list str)) (now : str)
  | ViaWebcam (frames : list frame) (now : str).

Definition perform (a : action) (d : database) : database :=
  match a with
  | Book entry_name curselection => snd (book_ticket entry_name curselection d)
  | FromImage picked now => snd (validate_from_image picked now d)
  | ViaWebcam frames now => snd (validate_via_webcam frames now d)
  end.

Definition run (acts : list action) (d : database) : database :=
  foldl (fun d a => perform a d) d acts.

(** [file] is whatever database an earlier run left on disk. *)
Inductive reachable : database -> Prop :=
  | reachable_setup file d :
      database_setup file = (Ok tt, d) -> reachable d
  | reachable_perform d a :
      reachable d -> reachable (perform a d).

(** *** Vocabulary of the statements below *)

(** The status stored for the booking [id], if there is such a row. *)
Definition status_of (id : Z) (d : database) : option str :=
  match bookings d with
  | None => None
  | Some rows =>
      match List.find (fun r => Z.eqb (b_id r) id) rows with
      | None => None
      | Some r => Some (b_status r)
      end
  end.

(** What the UPDATE of a validation does to one row. *)
Definition mark (param : str) (r : booking_row) : booking_row :=
  if where_id param r then set_status (lit "Validated") r else r.

(** The row [book_ticket] inserts. *)
Definition booked_row (booking_id : Z) (passenger : str) (route : route)
  : booking_row :=
  {| b_id := booking_id;
     b_passenger := passenger;
     b_route := route_str route;
     b_time := route_Time route;
     b_fare := route_Fare route;
     b_status := lit "Booked" |}.

(** The two statements both validation handlers run for a booking id. *)
Definition validation (booking_id method now : str) : sql unit :=
  update_status (lit "Validated") booking_id ;;;
  add_log booking_id method now.

(** The outcome of a handler that went through the validation of
    [booking_id] and then returns [x]. *)
Definition validated_by {A : Type} (x : A) (booking_id method now : str)
    (d : database) : result A * database :=
  match validation booking_id method now d with
  | (Ok _, d') => (Ok x, d')
  | (Raise e, d') => (Raise e, d')
  end.

(** What the set-up establishes and every handler keeps: both tables
    exist, a status is one of the two texts, a passenger is a stripped
    non-empty text, and no two bookings share an id. *)
Definition row_ok (r : booking_row) : Prop :=
  (b_status r = lit "Booked" \/ b_status r = lit "Validated") /\
  stripped (b_passenger r) /\ b_passenger r <> [].

Definition well_formed (d : database) : Prop :=
  exists rows logs,
    bookings d = Some rows /\ validation_logs d = Some logs /\
    Forall row_ok rows /\ NoDup (map b_id rows).

(** The action [a] hands the text [qr] to a validation: as the first
    symbol of the chosen image, or as the first symbol bearing the
    marker that the camera shows before [q] is pressed. *)
Inductive presents (qr : str) : action -> str -> str -> Prop :=
  | presents_image more now :
      presents qr (FromImage (Some (qr :: more)) now) (lit "Image") now
  | presents_webcam skipped junk more key later now :
      Forall (fun f => Forall (fun t => booking_id_of t = None)
                              (frame_codes f)
                       /\ frame_key_q f = false) skipped ->
      Forall (fun t => booking_id_of t = None) junk ->
      presents qr
        (ViaWebcam (skipped ++ {| frame_codes := junk ++ qr :: more;
                                  frame_key_q := key |} :: later) now)
        (lit "Webcam") now.

End Program.

Notation "x <- m ;; k" := (bind m (fun x => k))
  (at level 100, m at level 99, right associativity).
Notation "m ;;; k" := (bind m (fun _ => k))
  (at level 100, right associativity).

Arguments BookingID : simpl never.
Arguments lit : simpl never.
Arguments route cell : clear implicits.
Arguments booking_row cell : clear implicits.
Arguments database cell : clear implicits.
Arguments sql cell A : clear implicits.

(** ** An instance to run the model on

    Cells that are texts already, and a comparison under which a text
    spells an integer when it is a decimal numeral. *)

Definition text_cell (c : str) : str := c.

Definition decimal_int_of_text (s : str) : option Z :=
  if forallb (fun c => (c <? 256)%N) s
  then option_map Z.of_int
         (NilZero.int_of_string (string_of_list_ascii (map ascii_of_N s)))
  else None.

Definition sample_routes : list (route str) :=
  [ {| route_BusNo := lit "12A";
       route_Source := lit "CityX";
       route_Destination := lit "CityY";
       route_Time := lit "09:00";
       route_Fare := lit "50.0" |} ].

(** A database file with nothing in it. *)
Definition empty_file : database str :=
  {| bookings := None; validation_logs := None; sqlite_sequence := ∅ |}.

(** A database file left behind by an earlier run. *)
Definition used_file : database str :=
  {| bookings :=
       Some [ {| b_id := 1; b_passenger := lit "Ravi";
                 b_route := lit "7: A-B"; b_time := lit "10:00";
                 b_fare := lit "20.0"; b_status := lit "Validated" |} ];
     validation_logs :=
       Some [ {| l_log_id := 1; l_booking_id := lit "1";
                 l_method := lit "Webcam";
                 l_timestamp := lit "2024-01-01 10:00:00" |} ];
     sqlite_sequence :=
       <["bookings"%string := 1]>
         (<["validation_logs"%string := 1]> ∅) |}.

(** The database as the set-up leaves it. *)
Definition fresh : database str :=
  {| bookings := Some []; validation_logs := Some [];
     sqlite_sequence := ∅ |}.

(** Asha books the only route, and her ticket is shown to both
    validation handlers. *)
Definition asha_qr : str :=
  lit "BookingID:1|Passenger:Asha|Route:12A: CityX-CityY|Time:09:00|Fare:50.0".

Definition asha_booked : database str :=
  snd (book_ticket text_cell sample_routes (lit " Asha ") [0%nat] fresh).

Definition from_image : action :=
  FromImage (Some [asha_qr]) (lit "2024-01-01 09:05:00").

Definition via_webcam : action :=
  ViaWebcam [ {| frame_codes := []; frame_key_q := false |};
              {| frame_codes := [lit "garbage"; asha_qr];
                 frame_key_q := false |} ]
            (lit "2024-01-01 09:06:00").

Definition asha_validated : database str :=
  perform text_cell decimal_int_of_text sample_routes from_image asha_booked.

(** ** The queries, the window and the start of the program

    What the remaining code does around the handlers: the two table
    views and their queries, the export, the route catalogue and its
    listbox, and the order of the top-level script. *)

(** [ORDER BY key DESC], and the rowid order of a query without ORDER BY. *)
Definition desc {A : Type} (key : A -> Z) : relation A :=
  fun a b => key b <= key a.

Definition asc {A : Type} (key : A -> Z) : relation A :=
  fun a b => key a <= key b.

#[global] Instance desc_dec {A : Type} (key : A -> Z) : RelDecision (desc key) :=
  fun a b => Z_le_dec (key b) (key a).

#[global] Instance asc_dec {A : Type} (key : A -> Z) : RelDecision (asc key) :=
  fun a b => Z_le_dec (key a) (key b).

Definition order_by_desc {A : Type} (key : A -> Z) (rows : list A) : list A :=
  merge_sort (desc key) rows.

Definition rowid_order {A : Type} (key : A -> Z) (rows : list A) : list A :=
  merge_sort (asc key) rows.

(** An exception that ends a handler or the script: one of [exn], one of
    lines 79-90 (qrcode, the PNG file, the QR window), the
    AttributeError of line 183, the error of [Image.open] on a file that
    is no image (line 107), or the UnicodeDecodeError of [decode()] on
    bytes that are no UTF-8 (lines 112 and 133). *)
Inductive crash : Type :=
  | Raised (e : exn)
  | ImageError
  | AttributeError
  | OpenError
  | UnicodeDecodeError.

Inductive click (A : Type) : Type :=
  | Returned (a : A)
  | Crashed (c : crash).
Arguments Returned {A} a.
Arguments Crashed {A} c.

Section Window.

Context {cell : Type}.
Variable format_cell : cell -> str.
Variable sqlite_int_of_text : str -> option Z.

(** Line 158: [SELECT * FROM bookings ORDER BY id DESC LIMIT 20]. *)
Definition select_recent_bookings (d : database cell)
  : result (list (booking_row cell)) :=
  match bookings d with
  | None => Raise OperationalError
  | Some rows => Ok (take 20 (order_by_desc b_id rows))
  end.

(** Line 165: [SELECT * FROM validation_logs ORDER BY log_id DESC
    LIMIT 20]. *)
Definition select_recent_logs (d : database cell) : result (list log_row) :=
  match validation_logs d with
  | None => Raise OperationalError
  | Some rows => Ok (take 20 (order_by_desc l_log_id rows))
  end.

(** Line 171: [SELECT * FROM bookings], the rows SQLite reads off the
    table in rowid order. *)
Definition select_all_bookings (d : database cell)
  : result (list (booking_row cell)) :=
  match bookings d with
  | None => Raise OperationalError
  | Some rows => Ok (rowid_order b_id rows)
  end.

(** The connection and the rows of the two Treeview tables. *)
Record window : Type := {
  conn : database cell;
  bookings_table : list (booking_row cell);
  logs_table : list log_row
}.

Definition set_conn (d : database cell) (w : window) : window :=
  {| conn := d;
     bookings_table := bookings_table w;
     logs_table := logs_table w |}.

(** *** Load Bookings (lines 155-159): the table is emptied, then the
    rows of the query are inserted one after the other at the end. *)
Definition load_bookings (w : window) : result unit * window :=
  match select_recent_bookings (conn w) with
  | Raise e =>
      (Raise e,
       {| conn := conn w; bookings_table := []; logs_table := logs_table w |})
  | Ok rows =>
      (Ok tt,
       {| conn := conn w;
          bookings_table := foldl (fun table row => table ++ [row]) [] rows;
          logs_table := logs_table w |})
  end.

(** *** Load Validation Logs (lines 162-166) *)
Definition load_logs (w : window) : result unit * window :=
  match select_recent_logs (conn w) with
  | Raise e =>
      (Raise e,
       {| conn := conn w;
          bookings_table := bookings_table w;
          logs_table := [] |})
  | Ok rows =>
      (Ok tt,
       {| conn := conn w;
          bookings_table := bookings_table w;
          logs_table := foldl (fun table row => table ++ [row]) [] rows |})
  end.

(** *** Export (lines 169-173): the rows handed to [to_csv]; the text of
    the CSV file is pandas' and is left out. *)
Definition export_bookings (w : window)
  : click (list (booking_row cell)) * window :=
  match select_all_bookings (conn w) with
  | Raise e => (Crashed (Raised e), w)
  | Ok df => (Returned df, w)
  end.

(** The two loads that follow a validation: [load_logs] at the end of
    [add_log], [load_bookings] at the end of the handler. *)
Definition refresh_after_validation (x : validated) (w : window)
  : click validated * window :=
  match load_logs w with
  | (Raise e, w1) => (Crashed (Raised e), w1)
  | (Ok _, w1) =>
      match load_bookings w1 with
      | (Raise e, w2) => (Crashed (Raised e), w2)
      | (Ok _, w2) => (Returned x, w2)
      end
  end.

Section Catalogue.

Variable routes_df : list (route cell).

(** *** The button "Book Ticket & Generate QR" (lines 62-93).  The
    booking is inserted and committed (lines 72-74) before the image is
    made; [image_ok] says whether lines 79-90 run through; only then
    [load_bookings] runs (line 93). *)
Definition click_book_ticket (entry_name : str) (curselection : list nat)
    (image_ok : bool) (w : window) : click booked * window :=
  match book_ticket format_cell routes_df entry_name curselection (conn w) with
  | (Raise e, d) => (Crashed (Raised e), set_conn d w)
  | (Ok BookWarning, d) => (Returned BookWarning, set_conn d w)
  | (Ok (BookSuccess booking_id qr), d) =>
      if image_ok then
        match load_bookings (set_conn d w) with
        | (Raise e, w') => (Crashed (Raised e), w')
        | (Ok _, w') => (Returned (BookSuccess booking_id qr), w')
        end
      else (Crashed ImageError, set_conn d w)
  end.

(** *** The button "Validate from Image" (lines 104-122) *)
Definition click_validate_from_image (picked : option (list str))
    (now : str) (w : window) : click validated * window :=
  match validate_from_image sqlite_int_of_text picked now (conn w) with
  | (Raise e, d) => (Crashed (Raised e), set_conn d w)
  | (Ok (Validated booking_id), d) =>
      refresh_after_validation (Validated booking_id) (set_conn d w)
  | (Ok x, d) => (Returned x, set_conn d w)
  end.

(** *** The button "Validate via Webcam" (lines 125-152) *)
Definition click_validate_via_webcam (frames : list frame) (now : str)
    (w : window) : click validated * window :=
  match validate_via_webcam sqlite_int_of_text frames now (conn w) with
  | (Raise e, d) => (Crashed (Raised e), set_conn d w)
  | (Ok (Validated booking_id), d) =>
      refresh_after_validation (Validated booking_id) (set_conn d w)
  | (Ok x, d) => (Returned x, set_conn d w)
  end.

(** One press of a button. *)
Inductive press : Type :=
  | PressBook (entry_name : str) (curselection : list nat) (image_ok : bool)
  | PressImage (picked : option (list str)) (now : str)
  | PressWebcam (frames : list frame) (now : str)
  | PressExport.

Definition pressed (a : press) (w : window) : window :=
  match a with
  | PressBook entry_name curselection image_ok =>
      snd (click_book_ticket entry_name curselection image_ok w)
  | PressImage picked now => snd (click_validate_from_image picked now w)
  | PressWebcam frames now => snd (click_validate_via_webcam frames now w)
  | PressExport => snd (export_bookings w)
  end.

End Catalogue.

(** *** Load Routes (lines 48-59): the CSV file is missing, cannot be
    read, or gives a frame; in the first two cases the function shows an
    error box and returns the empty Python list. *)
Inductive csv_file : Type :=
  | CsvMissing
  | CsvUnreadable
  | CsvFrame (rows : list (route cell)).

Inductive routes_value : Type :=
  | EmptyList
  | DataFrame (rows : list (route cell)).

Definition load_routes (csv : csv_file) : routes_value :=
  match csv with
  | CsvMissing => EmptyList
  | CsvUnreadable => EmptyList
  | CsvFrame df => DataFrame df
  end.

(** The line of a route in the listbox (line 184); 8377 is the rupee
    sign. *)
Definition route_item (row : route cell) : str :=
  format_cell (route_BusNo row) ++ lit ": "
  ++ format_cell (route_Source row) ++ lit " -> "
  ++ format_cell (route_Destination row) ++ lit " @ "
  ++ format_cell (route_Time row) ++ lit " " ++ [8377%N]
  ++ format_cell (route_Fare row).

(** *** The script from top to bottom: the set-up (lines 14-40), the
    catalogue (line 59), the listbox (lines 181-184, where a list has no
    [iterrows]), the first loads (lines 211-212), the main loop. *)
Record program : Type := {
  p_routes_df : list (route cell);
  p_route_box : list str;
  p_window : window
}.

Inductive started : Type :=
  | Running (p : program)
  | Stopped (c : crash) (d : database cell).

Definition script (file : database cell) (csv : csv_file) : started :=
  match database_setup file with
  | (Raise e, d) => Stopped (Raised e) d
  | (Ok _, d) =>
      match load_routes csv with
      | EmptyList => Stopped AttributeError d
      | DataFrame df =>
          let route_box :=
            foldl (fun box row => box ++ [route_item row]) [] df in
          let w := {| conn := d; bookings_table := []; logs_table := [] |} in
          match load_bookings w with
          | (Raise e, w1) => Stopped (Raised e) (conn w1)
          | (Ok _, w1) =>
              match load_logs w1 with
              | (Raise e, w2) => Stopped (Raised e) (conn w2)
              | (Ok _, w2) =>
                  Running {| p_routes_df := df;
                             p_route_box := route_box;
                             p_window := w2 |}
              end
          end
      end
  end.

Definition main_loop (a : press) (p : program) : program :=
  {| p_routes_df := p_routes_df p;
     p_route_box := p_route_box p;
     p_window := pressed (p_routes_df p) a (p_window p) |}.

(** The programs a user can be looking at. *)
Inductive on_screen : program -> Prop :=
  | on_screen_start file csv p :
      script file csv = Running p -> on_screen p
  | on_screen_press p a :
      on_screen p -> on_screen (main_loop a p).

(** [r'] is the booking [r] with, at most, another status. *)
Definition same_ticket (r r' : booking_row cell) : Prop :=
  b_id r' = b_id r /\ b_passenger r' = b_passenger r /\
  b_route r' = b_route r /\ b_time r' = b_time r /\ b_fare r' = b_fare r.

End Window.

Arguments window cell : clear implicits.
Arguments program cell : clear implicits.
Arguments started cell : clear implicits.
Arguments csv_file cell : clear implicits.
Arguments routes_value cell : clear implicits.

(** ** The file and the camera of the validation handlers

    What the two handlers read before they look for the marker.  The file
    picked in the dialog may be no image, and [Image.open] raises (line
    107).  The data of a symbol are bytes, and [decode()] raises on bytes
    that are no UTF-8 (lines 112 and 133).  The camera hands over a frame
    at every turn of the loop of line 129 for as long as it likes.
    [validate_from_image] and [validate_via_webcam] above are these
    handlers on texts that are decoded already and on a camera that fails
    after finitely many frames. *)

(** The data of a symbol: the text its bytes spell, or [None] for bytes
    on which [decode()] raises. *)
Definition symbol : Type := option str.

Inductive chosen_file : Type :=
  | NoFileChosen                        (* the dialog gives the empty path *)
  | NoImage                             (* [Image.open] raises *)
  | ImageWith (decoded : list symbol).  (* the symbols pyzbar finds *)

(** A frame with the symbols in it, and whether [q] is down when it is
    shown. *)
Record shot : Type := {
  shot_symbols : list symbol;
  shot_key_q : bool
}.

(** [cap.read()] at each turn of the loop: a frame, or [None] when [ret]
    is false. *)
Definition camera : Type := nat -> option shot.

Section Reading.

Context {cell : Type}.
Variable sqlite_int_of_text : str -> option Z.

(** A handler that ran its statements and then returns [x]. *)
Definition ended {A : Type} (x : A) (r : result unit * database cell)
  : click A * database cell :=
  match r with
  | (Ok _, d) => (Returned x, d)
  | (Raise e, d) => (Crashed (Raised e), d)
  end.

(** *** Validate from Image (lines 104-122) on the file picked *)
Definition validate_from_image_file (file : chosen_file) (now : str)
    (d : database cell) : click validated * database cell :=
  match file with
  | NoFileChosen => (Returned NoFile, d)
  | NoImage => (Crashed OpenError, d)
  | ImageWith decoded =>
      match decoded with
      | [] => (Returned NoQRCode, d)
      | None :: _ => (Crashed UnicodeDecodeError, d)
      | Some qr_text :: _ =>
          match booking_id_of qr_text with
          | None => (Returned InvalidQRCode, d)
          | Some booking_id =>
              ended (Validated booking_id)
                ((update_status sqlite_int_of_text (lit "Validated")
                    booking_id ;;;
                  add_log booking_id (lit "Image") now) d)
          end
      end
  end.

(** *** Validate via Webcam (lines 125-152) on the camera *)

(** The [for] loop over the symbols of one frame (lines 132-143). *)
Fixpoint scan_symbols (symbols : list symbol) (now : str)
    (d : database cell) : click (option str) * database cell :=
  match symbols with
  | [] => (Returned None, d)
  | None :: _ => (Crashed UnicodeDecodeError, d)
  | Some qr_text :: symbols' =>
      match booking_id_of qr_text with
      | Some booking_id =>
          ended (Some booking_id)
            ((update_status sqlite_int_of_text (lit "Validated")
                booking_id ;;;
              add_log booking_id (lit "Webcam") now) d)
      | None => scan_symbols symbols' now d
      end
  end.

(** The [while True] loop (lines 129-145) from the turn [turn] on, for at
    most [fuel] turns: [None] when the loop has not ended by then. *)
Fixpoint scan_camera (fuel : nat) (cap : camera) (turn : nat) (now : str)
    (d : database cell) : option (click (option str) * database cell) :=
  match fuel with
  | O => None
  | S fuel' =>
      match cap turn with
      | None => Some (Returned None, d)
      | Some frame =>
          match scan_symbols (shot_symbols frame) now d with
          | (Crashed c, d') => Some (Crashed c, d')
          | (Returned (Some booking_id), d') =>
              Some (Returned (Some booking_id), d')
          | (Returned None, d') =>
              if shot_key_q frame then Some (Returned None, d')
              else scan_camera fuel' cap (S turn) now d'
          end
      end
  end.

Definition validate_via_webcam_camera (fuel : nat) (cap : camera)
    (now : str) (d : database cell)
  : option (click validated * database cell) :=
  match scan_camera fuel cap 0 now d with
  | None => None
  | Some (Crashed c, d') => Some (Crashed c, d')
  | Some (Returned (Some booking_id), d') =>
      Some (Returned (Validated booking_id), d')
  | Some (Returned None, d') => Some (Returned NoValidQR, d')
  end.

(** *** Vocabulary: texts that are decoded, and the turns of the loop *)

(** A file whose symbols all decode, a camera that delivers [frames]
    with such symbols and then fails to read, and the ending of a handler
    that has nothing but the statements to fail on. *)
Definition file_of (picked : option (list str)) : chosen_file :=
  match picked with
  | None => NoFileChosen
  | Some decoded => ImageWith (map Some decoded)
  end.

Definition shot_of (f : frame) : shot :=
  {| shot_symbols := map Some (frame_codes f);
     shot_key_q := frame_key_q f |}.

Definition camera_of (frames : list frame) : camera :=
  fun turn => option_map shot_of (frames !! turn).

Definition click_of {A : Type} (r : result A * database cell)
  : click A * database cell :=
  match r with
  | (Ok x, d) => (Returned x, d)
  | (Raise e, d) => (Crashed (Raised e), d)
  end.

(** The loop passes a symbol over when it decodes to a text without the
    marker, and goes on to the next turn after a frame of such symbols
    shown without [q]. *)
Definition passed_over (y : symbol) : bool :=
  match y with
  | Some qr_text => negb (contains BookingID qr_text)
  | None => false
  end.

Definition goes_on (x : option shot) : bool :=
  match x with
  | Some frame => forallb passed_over (shot_symbols frame)
                  && negb (shot_key_q frame)
  | None => false
  end.

End Reading.

(** The window as the script leaves it on the sample catalogue, and a
    session: Asha books, her ticket is validated from an image, the
    bookings are exported. *)
Definition sample_window : window str :=
  {| conn := fresh; bookings_table := []; logs_table := [] |}.

Definition sample_program : program str :=
  {| p_routes_df := sample_routes;
     p_route_box := map (route_item text_cell) sample_routes;
     p_window := sample_window |}.

Definition sample_session : list press :=
  [ PressBook (lit " Asha ") [0%nat] true;
    PressImage (Some [asha_qr]) (lit "2024-01-01 09:05:00");
    PressExport ].

(** Ravi books the same route after Asha's validation. *)
Definition ravi_booked : database str :=
  perform text_cell decimal_int_of_text sample_routes
    (Book (lit "Ravi") [0%nat]) asha_validated.

(** A text with the marker and the id of no booking, and a ticket with
    Asha's id that the program never made. *)
Definition stray_qr : str := lit "BookingID:7".

Definition forged_qr : str :=
  BookingID ++ str_of_int 1 ++ bar :: lit "Passenger:Mallory".

(** A camera that shows an empty frame, then "garbage" beside Asha's
    ticket, and empty frames ever after; and a camera that shows "garbage"
    for ever. *)
Definition sample_camera : camera :=
  fun turn =>
    match turn with
    | 1%nat => Some {| shot_symbols := [Some (lit "garbage"); Some asha_qr];
                       shot_key_q := false |}
    | _ => Some {| shot_symbols := []; shot_key_q := false |}
    end.

Definition idle_camera : camera :=
  fun _ => Some {| shot_symbols := [Some (lit "garbage")];
                   shot_key_q := false |}.

(** * Facts about the text operations *)

Section Text.

Implicit Types (s p sub old new : str) (c sep : char).

Lemma startswith_app p s : startswith p (p ++ s) = true.
Proof.
  induction p as [|a p IH]; simpl; [reflexivity|].
  unfold char_eqb. rewrite N.eqb_refl. exact IH.
Qed.

Lemma startswith_inv p s :
  startswith p s = true -> exists post, s = p ++ post.
Proof.
  revert s. induction p as [|a p IH]; intros s H.
  - exists s. reflexivity.
  - destruct s as [|b s]; simpl in H; [discriminate|].
    apply andb_prop in H as [Hab H].
    apply N.eqb_eq in Hab. subst b.
    destruct (IH _ H) as [post ->]. exists post. reflexivity.
Qed.

Lemma contains_startswith sub s :
  startswith sub s = true -> contains sub s = true.
Proof. intros H. destruct s; simpl; rewrite H; reflexivity. Qed.

(** [sub in s] holds exactly when [sub] occurs somewhere in [s]. *)
Lemma contains_spec sub s :
  contains sub s = true <-> exists pre post, s = pre ++ sub ++ post.
Proof.
  split.
  - induction s as [|c s IH]; simpl; intros H.
    + apply orb_prop in H as [H|H]; [|discriminate].
      apply startswith_inv in H as [post ->]. exists [], post. reflexivity.
    + apply orb_prop in H as [H|H].
      * apply startswith_inv in H as [post ->].
        exists [], post. reflexivity.
      * destruct (IH H) as (pre & post & ->).
        exists (c :: pre), post. reflexivity.
  - intros (pre & post & ->).
    induction pre as [|c pre IH]; simpl.
    + apply contains_startswith, startswith_app.
    + rewrite IH. apply orb_true_r.
Qed.

Lemma contains_head_elem c sub s :
  contains (c :: sub) s = true -> c ∈ s.
Proof.
  intros H. apply contains_spec in H as (pre & post & ->).
  apply elem_of_app. right. apply elem_of_cons. left. reflexivity.
Qed.

(** The first field of [split]. *)
Lemma split_nonempty sep s : split sep s <> [].
Proof.
  destruct s as [|c s]; simpl; [discriminate|].
  destruct (char_eqb c sep); [discriminate|].
  destruct (split sep s); discriminate.
Qed.

Lemma first_field_all sep s :
  sep ∉ s -> nth 0 (split sep s) [] = s.
Proof.
  induction s as [|c s IH]; intros H; [reflexivity|].
  apply not_elem_of_cons in H as [Hc Hs]. simpl.
  unfold char_eqb. destruct (N.eqb_spec c sep) as [->|_]; [done|].
  specialize (IH Hs). destruct (split sep s) as [|f fs] eqn:E.
  - exfalso. exact (split_nonempty _ _ E).
  - simpl in *. rewrite IH. reflexivity.
Qed.

Lemma first_field_app sep s rest :
  sep ∉ s -> nth 0 (split sep (s ++ sep :: rest)) [] = s.
Proof.
  induction s as [|c s IH]; intros H; simpl.
  - unfold char_eqb. rewrite N.eqb_refl. reflexivity.
  - apply not_elem_of_cons in H as [Hc Hs].
    unfold char_eqb. destruct (N.eqb_spec c sep) as [->|_]; [done|].
    specialize (IH Hs).
    destruct (split sep (s ++ sep :: rest)) as [|f fs] eqn:E.
    + exfalso. exact (split_nonempty _ _ E).
    + simpl in *. rewrite IH. reflexivity.
Qed.

(** [replace], one step. *)
Lemma replace_cons old new c s :
  replace old new (c :: s) =
    if startswith old (c :: s)
    then new ++ replace old new (drop (Nat.pred (length old)) s)
    else c :: replace old new s.
Proof.
  simp replace. destruct (startswith old (c :: s)); reflexivity.
Qed.

Lemma replace_absent old new s :
  contains old s = false -> replace old new s = s.
Proof.
  induction s as [|c s IH]; intros H.
  - simp replace. reflexivity.
  - simpl in H. apply orb_false_elim in H as [H1 H2].
    rewrite replace_cons, H1, (IH H2). reflexivity.
Qed.

Lemma replace_at_start a old new s :
  replace (a :: old) new ((a :: old) ++ s)
  = new ++ replace (a :: old) new s.
Proof.
  change ((a :: old) ++ s) with (a :: (old ++ s)).
  rewrite replace_cons.
  change (a :: (old ++ s)) with ((a :: old) ++ s).
  rewrite startswith_app. simpl. rewrite drop_app_length. reflexivity.
Qed.

Lemma str_of_int_chars n : Forall numeral_char (str_of_int n).
Proof.
  assert (U : forall u,
    Forall numeral_char (lit (NilEmpty.string_of_uint u))).
  { induction u; simpl; try constructor; try exact IHu;
      right; vm_compute; split; discriminate. }
  assert (U0 : forall u,
    Forall numeral_char (lit (NilZero.string_of_uint u))).
  { intros u. destruct u; try apply U.
    constructor; [|constructor].
    right. vm_compute. split; discriminate. }
  unfold str_of_int. destruct (Z.to_int n) as [u|u]; simpl.
  - apply U0.
  - change (Forall numeral_char (45%N :: lit (NilZero.string_of_uint u))).
    constructor; [left; reflexivity | apply U0].
Qed.

Lemma str_of_int_no_bar n : bar ∉ str_of_int n.
Proof.
  intros H. pose proof (str_of_int_chars n) as F.
  rewrite Forall_forall in F. apply F in H.
  unfold numeral_char, bar in H. simpl in H. lia.
Qed.

Lemma first_field_upto sep s : nth 0 (split sep s) [] = upto sep s.
Proof.
  induction s as [|c s IH]; [reflexivity|]. simpl.
  destruct (char_eqb c sep); [reflexivity|].
  destruct (split sep s) as [|f fs] eqn:E.
  - exfalso. exact (split_nonempty _ _ E).
  - simpl in *. rewrite IH. reflexivity.
Qed.

Lemma behind_at_start marker s :
  behind marker (marker ++ s) = Some s.
Proof.
  destruct (marker ++ s) eqn:E; simpl; rewrite <- E;
    rewrite startswith_app, drop_app_length; reflexivity.
Qed.

Lemma upto_all sep s : sep ∉ s -> upto sep s = s.
Proof. rewrite <- first_field_upto. apply first_field_all. Qed.

Lemma upto_app sep s rest : sep ∉ s -> upto sep (s ++ sep :: rest) = s.
Proof. rewrite <- first_field_upto. apply first_field_app. Qed.

Lemma BookingID_no_bar : bar ∉ BookingID.
Proof.
  intros H. apply list_elem_of_In in H. vm_compute in H.
  repeat (destruct H as [H|H]; [discriminate H|]). exact H.
Qed.

Lemma str_of_int_no_marker n : contains BookingID (str_of_int n) = false.
Proof.
  destruct (contains BookingID (str_of_int n)) eqn:E; [|reflexivity].
  apply contains_head_elem in E.
  pose proof (str_of_int_chars n) as F.
  rewrite Forall_forall in F. apply F in E.
  unfold numeral_char in E. simpl in E. lia.
Qed.

End Text.

(** * The ticket text: what is put into the QR image and what is read back *)

(** The identifier is recovered from any text that begins with the marker,
    whatever follows the first [|]. *)
Lemma booking_id_of_starting_with_marker id_text tail :
  bar ∉ id_text ->
  contains BookingID id_text = false ->
  tail = [] \/ (exists rest, tail = bar :: rest) ->
  booking_id_of (BookingID ++ id_text ++ tail) = Some id_text.
Proof.
  intros Hbar Hmark Htail. unfold booking_id_of.
  assert (C : contains BookingID (BookingID ++ id_text ++ tail) = true).
  { apply contains_spec. exists [], (id_text ++ tail). reflexivity. }
  rewrite C. cbn [negb]. f_equal.
  assert (F : nth 0 (split bar (BookingID ++ id_text ++ tail)) []
              = BookingID ++ id_text).
  { assert (N : bar ∉ BookingID ++ id_text).
    { rewrite not_elem_of_app. split; [apply BookingID_no_bar | exact Hbar]. }
    destruct Htail as [->|[rest ->]].
    - rewrite app_nil_r. apply first_field_all, N.
    - rewrite app_assoc. apply first_field_app, N. }
  rewrite F.
  change BookingID with (66%N :: lit "ookingID:") at 1 2.
  rewrite replace_at_start. simpl app.
  apply replace_absent. exact Hmark.
Qed.

(** C1 (as amended): for a text that begins with the marker, with no
    further marker before the first [|], the identifier read back is the
    text between the marker and the first [|] behind it, or the end of the
    text when there is none; there the handlers agree with the
    specification's wording of decode. *)
Theorem booking_id_of_leading_marker :
  forall id_text rest : str,
    bar ∉ id_text ->
    contains BookingID id_text = false ->
    booking_id_of (BookingID ++ id_text) = Some id_text /\
    booking_id_of (BookingID ++ id_text ++ bar :: rest) = Some id_text /\
    spec_decode (BookingID ++ id_text) = Some id_text /\
    spec_decode (BookingID ++ id_text ++ bar :: rest) = Some id_text.
Proof.
  intros id_text rest Hbar Hmark. repeat split.
  - rewrite <- (app_nil_r id_text) at 1.
    apply booking_id_of_starting_with_marker; auto.
  - apply booking_id_of_starting_with_marker; eauto.
  - unfold spec_decode. rewrite behind_at_start, upto_all; auto.
  - unfold spec_decode. rewrite behind_at_start, upto_app; auto.
Qed.

(** The text of a ticket with the id 17. *)
Lemma booking_id_of_leading_marker_witness :
  (bar ∉ lit "17") /\
  contains BookingID (lit "17") = false /\
  booking_id_of (BookingID ++ lit "17") = Some (lit "17") /\
  booking_id_of (BookingID ++ lit "17" ++ bar :: lit "Passenger:Asha")
    = Some (lit "17") /\
  spec_decode (BookingID ++ lit "17") = Some (lit "17") /\
  spec_decode (BookingID ++ lit "17" ++ bar :: lit "Passenger:Asha")
    = Some (lit "17").
Proof.
  assert (Hbar : bar ∉ lit "17") by apply (str_of_int_no_bar 17).
  assert (Hmark : contains BookingID (lit "17") = false) by reflexivity.
  split; [exact Hbar|]. split; [exact Hmark|].
  exact (booking_id_of_leading_marker (lit "17") (lit "Passenger:Asha")
           Hbar Hmark).
Defined.

(** C1 (as stated) fails: the marker may stand behind the first [|], or
    behind other text of the first field; the handlers then take the
    first field without the marker, not the text behind the marker. *)
Lemma booking_id_of_marker_not_leading :
  contains BookingID (lit "x|BookingID:5") = true /\
  spec_decode (lit "x|BookingID:5") = Some (lit "5") /\
  booking_id_of (lit "x|BookingID:5") = Some (lit "x") /\
  contains BookingID (lit "Ticket BookingID:5|x") = true /\
  spec_decode (lit "Ticket BookingID:5|x") = Some (lit "5") /\
  booking_id_of (lit "Ticket BookingID:5|x") = Some (lit "Ticket 5").
Proof. vm_compute. repeat split. Qed.

(** The marker test of lines 113 and 134. *)
Lemma booking_id_of_None (qr_text : str) :
  booking_id_of qr_text = None <->
  ~ exists pre post, qr_text = pre ++ BookingID ++ post.
Proof.
  unfold booking_id_of.
  destruct (contains BookingID qr_text) eqn:C; cbn [negb].
  - split; [discriminate|]. intros H. exfalso. apply H.
    apply contains_spec. exact C.
  - split; [|reflexivity]. intros _ H.
    apply contains_spec in H. congruence.
Qed.

(** The numeral of an integer reads back as that integer. *)
Lemma lit_ascii (s : string) :
  forallb (fun c => (c <? 256)%N) (lit s) = true /\
  string_of_list_ascii (map ascii_of_N (lit s)) = s.
Proof.
  unfold lit. split.
  - apply forallb_forall. intros c Hc.
    apply in_map_iff in Hc as (a & <- & _).
    apply N.ltb_lt, N_ascii_bounded.
  - rewrite map_map.
    rewrite (map_ext _ (fun a => a)) by apply ascii_N_embedding.
    rewrite map_id. apply string_of_list_ascii_of_string.
Qed.

Lemma decimal_int_of_str_of_int (n : Z) :
  decimal_int_of_text (str_of_int n) = Some n.
Proof.
  unfold decimal_int_of_text, str_of_int.
  destruct (lit_ascii (NilZero.string_of_int (Z.to_int n))) as [-> ->].
  rewrite NilZero.isi.
  - simpl. f_equal. apply DecimalZ.of_to.
  - destruct n; simpl; try discriminate.
    intros [= H]. exact (DecimalPos.Unsigned.to_uint_nonnil _ H).
  - destruct n; simpl; try discriminate.
    intros [= H]. exact (DecimalPos.Unsigned.to_uint_nonnil _ H).
Qed.

Create HintDb ticket.
#[local] Hint Resolve str_of_int_no_bar str_of_int_no_marker BookingID_no_bar
  : ticket.

Lemma booking_id_of_qr_data {cell : Type} (format_cell : cell -> str)
    (booking_id : Z) (passenger route_str : str) (time fare : cell) :
  booking_id_of (qr_data format_cell booking_id passenger route_str time fare)
  = Some (str_of_int booking_id).
Proof.
  unfold qr_data.
  change (lit "BookingID:") with BookingID.
  change (lit "|Passenger:") with (bar :: lit "Passenger:").
  rewrite <- app_comm_cons.
  apply booking_id_of_starting_with_marker; eauto with ticket.
Qed.

(** C2: the text put into the QR image of a booking reads back as the
    decimal numeral of the booking's id, which spells that id. *)
Theorem booking_id_of_encode :
  forall (cell : Type) (format_cell : cell -> str) (b : booking_row cell),
    booking_id_of (encode format_cell b) = Some (str_of_int (b_id b)) /\
    decimal_int_of_text (str_of_int (b_id b)) = Some (b_id b).
Proof.
  intros cell format_cell b. split.
  - apply booking_id_of_qr_data.
  - apply decimal_int_of_str_of_int.
Qed.

(** * Stripping *)

Lemma lstrip_head (s : str) (c : char) :
  head (lstrip s) = Some c -> isspace c = false.
Proof.
  induction s as [|a s IH]; simpl; [discriminate|].
  destruct (isspace a) eqn:E; [exact IH|].
  simpl. intros [= <-]. exact E.
Qed.

Lemma lstrip_suffix (s : str) : exists sp, s = sp ++ lstrip s.
Proof.
  induction s as [|a s [sp IH]]; simpl.
  - exists []. reflexivity.
  - destruct (isspace a).
    + exists (a :: sp). simpl. f_equal. exact IH.
    + exists []. reflexivity.
Qed.

Lemma rstrip_prefix (s : str) : exists sp, s = rstrip s ++ sp.
Proof.
  unfold rstrip. destruct (lstrip_suffix (rev s)) as [sp E].
  exists (rev sp). rewrite <- rev_app_distr, <- E, rev_involutive.
  reflexivity.
Qed.

Lemma rstrip_last (s : str) (c : char) :
  last (rstrip s) = Some c -> isspace c = false.
Proof.
  unfold rstrip. intros H. apply last_Some in H as [l' E].
  apply (f_equal (@rev char)) in E.
  rewrite rev_involutive, rev_app_distr in E. simpl in E.
  apply (lstrip_head (rev s)). rewrite E. reflexivity.
Qed.

Lemma strip_stripped (s : str) : stripped (strip s).
Proof.
  unfold stripped, strip. split; intros c H.
  - destruct (rstrip_prefix (lstrip s)) as [sp E].
    apply (lstrip_head s). rewrite E.
    destruct (rstrip (lstrip s)); [discriminate|exact H].
  - exact (rstrip_last _ _ H).
Qed.

Lemma lstrip_spaces (s : str) :
  Forall (fun c => isspace c = true) s -> lstrip s = [].
Proof.
  induction 1 as [|c s Hc _ IH]; simpl; [reflexivity|].
  rewrite Hc. exact IH.
Qed.

Lemma strip_spaces (s : str) :
  Forall (fun c => isspace c = true) s -> strip s = [].
Proof. intros H. unfold strip. rewrite (lstrip_spaces s H). reflexivity. Qed.

(** * Stripping takes the white space of the two ends away, and nothing
    else *)

Section TextMore.

Implicit Types (s : str) (c : char).

Lemma lstrip_split s :
  exists sp, s = sp ++ lstrip s /\ Forall (fun c => isspace c = true) sp.
Proof.
  induction s as [|a s (sp & E & F)]; simpl.
  - exists []. split; [reflexivity|constructor].
  - destruct (isspace a) eqn:Ha.
    + exists (a :: sp). split; [simpl; f_equal; exact E|].
      constructor; assumption.
    + exists []. split; [reflexivity|constructor].
Qed.

Lemma rstrip_split s :
  exists sp, s = rstrip s ++ sp /\ Forall (fun c => isspace c = true) sp.
Proof.
  unfold rstrip. destruct (lstrip_split (rev s)) as (sp & E & F).
  exists (rev sp). split.
  - rewrite <- rev_app_distr, <- E, rev_involutive. reflexivity.
  - apply Forall_forall. intros c Hc. rewrite Forall_forall in F.
    apply F. apply list_elem_of_In. apply in_rev.
    apply list_elem_of_In. exact Hc.
Qed.

Lemma lstrip_fixed s :
  (forall c, head s = Some c -> isspace c = false) -> lstrip s = s.
Proof.
  destruct s as [|a s]; [reflexivity|]. intros H. simpl.
  rewrite (H a eq_refl). reflexivity.
Qed.

Lemma rstrip_fixed s :
  (forall c, last s = Some c -> isspace c = false) -> rstrip s = s.
Proof.
  intros H. unfold rstrip. rewrite lstrip_fixed.
  - apply rev_involutive.
  - intros c Hc. apply H. destruct (rev s) as [|a t] eqn:E; [discriminate|].
    injection Hc as ->.
    apply (f_equal (@rev char)) in E. rewrite rev_involutive in E.
    rewrite E. simpl. apply last_snoc.
Qed.


(** A stripped text between white space is what [strip] returns. *)
Lemma lstrip_app_spaces (sp s : str) :
  Forall (fun c => isspace c = true) sp -> lstrip (sp ++ s) = lstrip s.
Proof.
  induction 1 as [|c sp Hc _ IH]; simpl; [reflexivity|].
  rewrite Hc. exact IH.
Qed.

Lemma strip_between (before name after : str) :
  Forall (fun c => isspace c = true) before ->
  Forall (fun c => isspace c = true) after ->
  stripped name -> name <> [] ->
  strip (before ++ name ++ after) = name.
Proof.
  intros Fb Fa [Hh Hl] Hn. unfold strip.
  rewrite (lstrip_app_spaces before _ Fb).
  rewrite lstrip_fixed.
  2:{ intros c Hc. apply Hh. destruct name; [contradiction|exact Hc]. }
  unfold rstrip. rewrite rev_app_distr.
  rewrite lstrip_app_spaces.
  2:{ apply Forall_forall. intros c Hc. rewrite Forall_forall in Fa.
      apply Fa. apply list_elem_of_In, in_rev, list_elem_of_In. exact Hc. }
  fold (rstrip name). apply rstrip_fixed, Hl.
Qed.

End TextMore.

(** * The statements and the handlers *)

Section Handlers.

Context {cell : Type}.
Variable format_cell : cell -> str.
Variable sqlite_int_of_text : str -> option Z.
Variable routes_df : list (route cell).

Local Abbreviation database := (database cell).
Local Abbreviation booking_row := (booking_row cell).
Local Abbreviation book_ticket := (book_ticket format_cell routes_df).
Local Abbreviation where_id := (where_id sqlite_int_of_text).
Local Abbreviation mark := (mark sqlite_int_of_text).
Local Abbreviation update_status := (update_status sqlite_int_of_text).
Local Abbreviation validation := (validation sqlite_int_of_text).
Local Abbreviation validated_by := (validated_by sqlite_int_of_text).
Local Abbreviation validate_from_image :=
  (validate_from_image sqlite_int_of_text).
Local Abbreviation scan_codes := (scan_codes sqlite_int_of_text).
Local Abbreviation scan_frames := (scan_frames sqlite_int_of_text).
Local Abbreviation validate_via_webcam :=
  (validate_via_webcam sqlite_int_of_text).
Local Abbreviation perform := (perform format_cell sqlite_int_of_text routes_df).
Local Abbreviation run := (run format_cell sqlite_int_of_text routes_df).
Local Abbreviation reachable :=
  (reachable format_cell sqlite_int_of_text routes_df).

Implicit Types (d : database) (r : booking_row) (rows : list booking_row)
  (logs : list log_row).

(** ** Rowids *)

Lemma foldr_max_ge (ids : list Z) (i : Z) :
  i ∈ ids -> i <= foldr Z.max 0 ids.
Proof.
  induction ids as [|j ids IH]; intros H.
  - apply elem_of_nil in H. contradiction.
  - apply elem_of_cons in H as [->|H]; simpl; [lia|].
    specialize (IH H). lia.
Qed.

Lemma next_rowid_fresh (ids : list Z) (seq : option Z) :
  (next_rowid ids seq ∉ ids) /\ 1 <= next_rowid ids seq.
Proof.
  unfold next_rowid. split.
  - intros H. apply foldr_max_ge in H. lia.
  - assert (0 <= foldr Z.max 0 ids) by (induction ids; simpl; lia). lia.
Qed.

(** ** The set-up *)

Lemma database_setup_run (file : database) :
  database_setup file =
    (Ok tt,
     {| bookings := Some [];
        validation_logs := Some [];
        sqlite_sequence :=
          delete "validation_logs"%string
            (delete "bookings"%string (sqlite_sequence file)) |}).
Proof. reflexivity. Qed.

(** ** The validation statements *)

Lemma validation_run (booking_id method now : str) d rows logs :
  bookings d = Some rows ->
  validation_logs d = Some logs ->
  validation booking_id method now d =
    (Ok tt,
     {| bookings := Some (map (mark booking_id) rows);
        validation_logs :=
          Some (logs ++
                [ {| l_log_id :=
                       next_rowid (map l_log_id logs)
                         (sqlite_sequence d !! "validation_logs"%string);
                     l_booking_id := booking_id;
                     l_method := method;
                     l_timestamp := now |} ]);
        sqlite_sequence :=
          <["validation_logs"%string :=
              next_rowid (map l_log_id logs)
                (sqlite_sequence d !! "validation_logs"%string)]>
            (sqlite_sequence d) |}).
Proof.
  intros Hb Hl.
  unfold validation, bind, update_status, add_log, bind, insert_log, ret.
  rewrite Hb. simpl. rewrite Hl. reflexivity.
Qed.

Lemma bind_validation {A : Type} (x : A) (booking_id method now : str) d :
  (update_status (lit "Validated") booking_id ;;;
   add_log booking_id method now ;;; ret x) d
  = match validation booking_id method now d with
    | (Ok _, d') => (Ok x, d')
    | (Raise e, d') => (Raise e, d')
    end.
Proof.
  unfold validation, bind.
  destruct (update_status _ _ d) as [[[]|e] d1]; [|reflexivity].
  destruct (add_log booking_id method now d1) as [[[]|e] d2]; reflexivity.
Qed.

Lemma snd_validated_by {A : Type} (x : A) (booking_id method now : str) d :
  snd (validated_by x booking_id method now d)
  = snd (validation booking_id method now d).
Proof.
  unfold validated_by.
  destruct (validation booking_id method now d) as [[[]|e] d']; reflexivity.
Qed.

(** ** Validate from Image *)

Lemma validate_from_image_run qr_text more booking_id now d :
  booking_id_of qr_text = Some booking_id ->
  validate_from_image (Some (qr_text :: more)) now d
  = validated_by (Validated booking_id) booking_id (lit "Image") now d.
Proof.
  intros H. unfold validate_from_image. rewrite H. apply bind_validation.
Qed.

Lemma validate_from_image_cases picked now d :
  validate_from_image picked now d = (Ok NoFile, d) \/
  validate_from_image picked now d = (Ok NoQRCode, d) \/
  validate_from_image picked now d = (Ok InvalidQRCode, d) \/
  exists booking_id,
    validate_from_image picked now d
    = validated_by (Validated booking_id) booking_id (lit "Image") now d.
Proof.
  destruct picked as [[|qr_text more]|]; [tauto| |tauto].
  destruct (booking_id_of qr_text) as [booking_id|] eqn:E.
  - right. right. right. exists booking_id.
    apply validate_from_image_run, E.
  - right. right. left. unfold validate_from_image. rewrite E. reflexivity.
Qed.

(** ** Validate via Webcam *)

Lemma scan_codes_skip junk codes now d :
  Forall (fun t => booking_id_of t = None) junk ->
  scan_codes (junk ++ codes) now d = scan_codes codes now d.
Proof.
  induction 1 as [|t junk Ht _ IH]; [reflexivity|].
  simpl. rewrite Ht. exact IH.
Qed.

Lemma scan_codes_run qr_text more booking_id now d :
  booking_id_of qr_text = Some booking_id ->
  scan_codes (qr_text :: more) now d
  = validated_by (Some booking_id) booking_id (lit "Webcam") now d.
Proof. intros H. simpl. rewrite H. apply bind_validation. Qed.

Lemma scan_codes_cases codes now d :
  scan_codes codes now d = (Ok None, d) \/
  exists booking_id,
    scan_codes codes now d
    = validated_by (Some booking_id) booking_id (lit "Webcam") now d.
Proof.
  induction codes as [|qr_text codes IH]; [left; reflexivity|].
  destruct (booking_id_of qr_text) as [booking_id|] eqn:E.
  - right. exists booking_id. apply scan_codes_run, E.
  - simpl. rewrite E. exact IH.
Qed.

Lemma scan_frames_found f frames booking_id now d :
  scan_codes (frame_codes f) now d
  = validated_by (Some booking_id) booking_id (lit "Webcam") now d ->
  scan_frames (f :: frames) now d
  = validated_by (Some booking_id) booking_id (lit "Webcam") now d.
Proof.
  intros H. simpl. unfold bind. rewrite H. unfold validated_by.
  destruct (validation booking_id (lit "Webcam") now d) as [[[]|e] d'];
    reflexivity.
Qed.

Lemma scan_frames_cases frames now d :
  scan_frames frames now d = (Ok None, d) \/
  exists booking_id,
    scan_frames frames now d
    = validated_by (Some booking_id) booking_id (lit "Webcam") now d.
Proof.
  induction frames as [|f frames IH]; [left; reflexivity|].
  destruct (scan_codes_cases (frame_codes f) now d) as [H|[booking_id H]].
  - simpl. unfold bind. rewrite H.
    destruct (frame_key_q f); [left; reflexivity|exact IH].
  - right. exists booking_id. apply scan_frames_found, H.
Qed.

Lemma scan_frames_skip skipped frames now d :
  Forall (fun f => Forall (fun t => booking_id_of t = None) (frame_codes f)
                   /\ frame_key_q f = false) skipped ->
  scan_frames (skipped ++ frames) now d = scan_frames frames now d.
Proof.
  induction 1 as [|f skipped [Hc Hq] _ IH]; [reflexivity|].
  simpl. unfold bind.
  rewrite <- (app_nil_r (frame_codes f)), (scan_codes_skip _ [] now d Hc).
  simpl. unfold ret. rewrite Hq. exact IH.
Qed.

Lemma validate_via_webcam_found frames booking_id now d :
  scan_frames frames now d
  = validated_by (Some booking_id) booking_id (lit "Webcam") now d ->
  validate_via_webcam frames now d
  = validated_by (Validated booking_id) booking_id (lit "Webcam") now d.
Proof.
  intros H. unfold validate_via_webcam, bind. rewrite H.
  unfold validated_by.
  destruct (validation booking_id (lit "Webcam") now d) as [[[]|e] d'];
    reflexivity.
Qed.

Lemma validate_via_webcam_cases frames now d :
  validate_via_webcam frames now d = (Ok NoValidQR, d) \/
  exists booking_id,
    validate_via_webcam frames now d
    = validated_by (Validated booking_id) booking_id (lit "Webcam") now d.
Proof.
  destruct (scan_frames_cases frames now d) as [H|[booking_id H]].
  - left. unfold validate_via_webcam, bind. rewrite H. reflexivity.
  - right. exists booking_id. apply validate_via_webcam_found, H.
Qed.

(** An action that presents a text with the marker runs the validation
    of the id read from it. *)
Lemma perform_presents qr a method now booking_id d :
  presents qr a method now ->
  booking_id_of qr = Some booking_id ->
  perform a d = snd (validation booking_id method now d).
Proof.
  intros P E. destruct P as [more now|skipped junk more key later now Hs Hj].
  - unfold perform. rewrite (validate_from_image_run _ _ _ _ _ E).
    apply snd_validated_by.
  - unfold perform. rewrite (validate_via_webcam_found _ booking_id).
    + apply snd_validated_by.
    + rewrite (scan_frames_skip _ _ _ _ Hs).
      apply scan_frames_found. simpl.
      rewrite (scan_codes_skip _ _ _ _ Hj).
      apply scan_codes_run, E.
Qed.

(** ** Book Ticket *)

Lemma book_ticket_warning entry_name curselection d :
  strip entry_name = [] \/ curselection = [] ->
  book_ticket entry_name curselection d = (Ok BookWarning, d).
Proof.
  unfold book_ticket. intros [->| ->]; [reflexivity|].
  destruct (strip entry_name); reflexivity.
Qed.

Lemma book_ticket_run entry_name i more route d rows :
  strip entry_name <> [] ->
  routes_df !! i = Some route ->
  bookings d = Some rows ->
  let booking_id :=
    next_rowid (map b_id rows) (sqlite_sequence d !! "bookings"%string) in
  let b := booked_row format_cell booking_id (strip entry_name) route in
  book_ticket entry_name (i :: more) d =
    (Ok (BookSuccess booking_id (encode format_cell b)),
     {| bookings := Some (rows ++ [b]);
        validation_logs := validation_logs d;
        sqlite_sequence :=
          <["bookings"%string := booking_id]> (sqlite_sequence d) |}).
Proof.
  intros Hp Hr Hb. unfold book_ticket.
  destruct (strip entry_name) as [|c p] eqn:E; [contradiction|].
  cbn [py_not orb lookup list_lookup]. rewrite Hr.
  unfold bind, insert_booking. rewrite Hb. reflexivity.
Qed.

Lemma book_ticket_cases entry_name curselection d :
  book_ticket entry_name curselection d = (Ok BookWarning, d) \/
  book_ticket entry_name curselection d = (Raise IndexError, d) \/
  book_ticket entry_name curselection d = (Raise OperationalError, d) \/
  exists i more route rows,
    strip entry_name <> [] /\ curselection = i :: more /\
    routes_df !! i = Some route /\ bookings d = Some rows.
Proof.
  destruct (strip entry_name) as [|c p] eqn:E.
  { left. apply book_ticket_warning. left. exact E. }
  destruct curselection as [|i more].
  { left. apply book_ticket_warning. right. reflexivity. }
  destruct (routes_df !! i) as [route|] eqn:Hr.
  - destruct (bookings d) as [rows|] eqn:Hb.
    + right. right. right. exists i, more, route, rows.
      repeat split; auto.
    + right. right. left. unfold book_ticket. rewrite E.
      cbn [py_not orb lookup list_lookup]. rewrite Hr.
      unfold bind, insert_booking. rewrite Hb. reflexivity.
  - right. left. unfold book_ticket. rewrite E.
    cbn [py_not orb lookup list_lookup]. rewrite Hr. reflexivity.
Qed.

(** ** The status of a booking *)

Lemma find_map_id (f : booking_row -> booking_row) (id : Z) rows :
  (forall r, b_id (f r) = b_id r) ->
  List.find (fun r => Z.eqb (b_id r) id) (map f rows)
  = option_map f (List.find (fun r => Z.eqb (b_id r) id) rows).
Proof.
  intros Hf. induction rows as [|r rows IH]; [reflexivity|].
  simpl. rewrite Hf. destruct (b_id r =? id); [reflexivity|exact IH].
Qed.

Lemma find_snoc (id : Z) rows r :
  List.find (fun r => Z.eqb (b_id r) id) (rows ++ [r])
  = match List.find (fun r => Z.eqb (b_id r) id) rows with
    | Some r' => Some r'
    | None => if b_id r =? id then Some r else None
    end.
Proof.
  induction rows as [|r' rows IH]; [reflexivity|].
  simpl. destruct (b_id r' =? id); [reflexivity|exact IH].
Qed.

Lemma find_absent (id : Z) rows :
  id ∉ map b_id rows ->
  List.find (fun r => Z.eqb (b_id r) id) rows = None.
Proof.
  induction rows as [|r rows IH]; [reflexivity|].
  simpl. intros H. apply not_elem_of_cons in H as [Hne H].
  destruct (Z.eqb_spec (b_id r) id); [congruence|auto].
Qed.

Lemma b_id_mark param r : b_id (mark param r) = b_id r.
Proof. unfold mark. destruct (where_id param r); reflexivity. Qed.

Lemma b_status_mark param r :
  b_status (mark param r) = b_status r \/
  b_status (mark param r) = lit "Validated".
Proof. unfold mark. destruct (where_id param r); [right|left]; reflexivity. Qed.

Lemma where_id_eqb param id r :
  sqlite_int_of_text param = Some id ->
  where_id param r = (b_id r =? id).
Proof.
  intros H. unfold where_id. rewrite H.
  destruct (Z.eqb_spec (b_id r) id) as [->|N].
  - apply bool_decide_eq_true. reflexivity.
  - apply bool_decide_eq_false. congruence.
Qed.

Lemma mark_idempotent param r : mark param (mark param r) = mark param r.
Proof.
  assert (W : where_id param (mark param r) = where_id param r).
  { unfold where_id. rewrite b_id_mark. reflexivity. }
  unfold mark at 1. rewrite W.
  unfold mark. destruct (where_id param r); reflexivity.
Qed.

(** The validation of [param] leaves every booking in place, and only
    moves statuses to Validated. *)
Lemma status_of_validation param method now d rows logs id :
  bookings d = Some rows ->
  validation_logs d = Some logs ->
  status_of id (snd (validation param method now d))
  = match List.find (fun r => Z.eqb (b_id r) id) rows with
    | Some r => Some (b_status (mark param r))
    | None => None
    end.
Proof.
  intros Hb Hl. rewrite (validation_run _ _ _ _ _ _ Hb Hl).
  unfold status_of. cbn [snd bookings].
  rewrite find_map_id by apply b_id_mark.
  destruct (List.find _ rows); reflexivity.
Qed.

(** ** What every reachable database satisfies *)

Lemma row_ok_mark param r : row_ok r -> row_ok (mark param r).
Proof.
  unfold row_ok, mark. destruct (where_id param r); [|tauto].
  intros (_ & Hs & Hn). simpl. tauto.
Qed.

Lemma well_formed_setup (file : database) d :
  database_setup file = (Ok tt, d) -> well_formed d.
Proof.
  rewrite database_setup_run. intros [= <-].
  exists [], []. repeat split; constructor.
Qed.

Lemma well_formed_validation param method now d :
  well_formed d -> well_formed (snd (validation param method now d)).
Proof.
  intros (rows & logs & Hb & Hl & Hok & Hnd).
  rewrite (validation_run _ _ _ _ _ _ Hb Hl).
  eexists _, _. cbn [snd bookings validation_logs].
  split; [reflexivity|]. split; [reflexivity|]. split.
  - apply Forall_map. eapply Forall_impl; [exact Hok|].
    intros r. apply row_ok_mark.
  - rewrite map_map. erewrite map_ext; [exact Hnd|].
    intros r. apply b_id_mark.
Qed.

Lemma well_formed_book_ticket entry_name curselection d :
  well_formed d ->
  well_formed (snd (book_ticket entry_name curselection d)).
Proof.
  intros W.
  destruct (book_ticket_cases entry_name curselection d)
    as [H|[H|[H|(i & more & route & rows & Hp & -> & Hr & Hb)]]];
    try (rewrite H; exact W).
  rewrite (book_ticket_run _ _ _ _ _ _ Hp Hr Hb).
  destruct W as (rows' & logs & Hb' & Hl & Hok & Hnd).
  rewrite Hb in Hb'. injection Hb' as <-.
  eexists _, logs. cbn [snd bookings validation_logs].
  split; [reflexivity|]. split; [exact Hl|]. split.
  - apply Forall_app. split; [exact Hok|].
    constructor; [|constructor].
    unfold row_ok. cbn [b_status b_passenger].
    split; [left; reflexivity|]. split; [apply strip_stripped|exact Hp].
  - rewrite map_app. apply NoDup_app. split; [exact Hnd|]. split.
    + intros id Hin Hin'. simpl in Hin'.
      apply list_elem_of_singleton in Hin'. subst id.
      exact (proj1 (next_rowid_fresh _ _) Hin).
    + apply NoDup_singleton.
Qed.

Lemma well_formed_perform a d : well_formed d -> well_formed (perform a d).
Proof.
  intros W. destruct a as [e c|picked now|frames now]; unfold perform.
  - apply well_formed_book_ticket, W.
  - destruct (validate_from_image_cases picked now d)
      as [H|[H|[H|[booking_id H]]]]; rewrite H; try exact W.
    rewrite snd_validated_by. apply well_formed_validation, W.
  - destruct (validate_via_webcam_cases frames now d)
      as [H|[booking_id H]]; rewrite H; try exact W.
    rewrite snd_validated_by. apply well_formed_validation, W.
Qed.

Lemma reachable_well_formed d : reachable d -> well_formed d.
Proof.
  induction 1 as [file d H|d a _ IH].
  - exact (well_formed_setup file d H).
  - apply well_formed_perform, IH.
Qed.

Lemma reachable_run acts d : reachable d -> reachable (run acts d).
Proof.
  revert d. induction acts as [|a acts IH]; intros d R; [exact R|].
  apply IH. constructor. exact R.
Qed.

(** ** Bookings stay, and a status only moves forward *)

Lemma status_of_book_ticket entry_name i more route d rows id :
  strip entry_name <> [] ->
  routes_df !! i = Some route ->
  bookings d = Some rows ->
  status_of id (snd (book_ticket entry_name (i :: more) d))
  = match status_of id d with
    | Some s => Some s
    | None =>
        if next_rowid (map b_id rows) (sqlite_sequence d !! "bookings"%string)
           =? id
        then Some (lit "Booked") else None
    end.
Proof.
  intros Hp Hr Hb. rewrite (book_ticket_run _ _ _ _ _ _ Hp Hr Hb).
  unfold status_of. cbn [snd bookings]. rewrite Hb, find_snoc.
  destruct (List.find _ rows); [reflexivity|].
  cbn [booked_row b_id]. destruct (_ =? id); reflexivity.
Qed.

Lemma status_of_perform a d id s :
  well_formed d ->
  status_of id d = Some s ->
  status_of id (perform a d) = Some s \/
  status_of id (perform a d) = Some (lit "Validated").
Proof.
  intros W Hs.
  assert (V : forall param method now,
    status_of id (snd (validation param method now d)) = Some s \/
    status_of id (snd (validation param method now d))
    = Some (lit "Validated")).
  { intros param method now.
    destruct W as (rows & logs & Hb & Hl & _).
    rewrite (status_of_validation _ _ _ _ _ _ _ Hb Hl).
    unfold status_of in Hs. rewrite Hb in Hs.
    destruct (List.find _ rows) as [r|]; [|discriminate].
    injection Hs as <-.
    destruct (b_status_mark param r) as [-> | ->]; tauto. }
  destruct a as [e c|picked now|frames now]; unfold perform.
  - destruct (book_ticket_cases e c d)
      as [H|[H|[H|(i & more & route & rows & Hp & -> & Hr & Hb)]]];
      try (rewrite H; left; exact Hs).
    rewrite (status_of_book_ticket _ _ _ _ _ _ _ Hp Hr Hb), Hs. tauto.
  - destruct (validate_from_image_cases picked now d)
      as [H|[H|[H|[booking_id H]]]]; rewrite H; try (left; exact Hs).
    rewrite snd_validated_by. apply V.
  - destruct (validate_via_webcam_cases frames now d)
      as [H|[booking_id H]]; rewrite H; try (left; exact Hs).
    rewrite snd_validated_by. apply V.
Qed.

Lemma status_of_run acts d id s :
  well_formed d ->
  status_of id d = Some s ->
  exists s', status_of id (run acts d) = Some s' /\
             (s = lit "Validated" -> s' = lit "Validated").
Proof.
  revert d s. induction acts as [|a acts IH]; intros d s W Hs.
  - exists s. split; [exact Hs|tauto].
  - simpl.
    destruct (status_of_perform a d id s W Hs) as [H|H];
      destruct (IH _ _ (well_formed_perform a d W) H) as (s' & Hs' & Hv);
      exists s'; (split; [exact Hs'|]); intros E; apply Hv; congruence.
Qed.

Lemma book_ticket_success_inv entry_name curselection d booking_id qr d1 :
  book_ticket entry_name curselection d
  = (Ok (BookSuccess booking_id qr), d1) ->
  exists i more route rows,
    strip entry_name <> [] /\ curselection = i :: more /\
    routes_df !! i = Some route /\ bookings d = Some rows /\
    booking_id
    = next_rowid (map b_id rows) (sqlite_sequence d !! "bookings"%string) /\
    qr = encode format_cell
           (booked_row format_cell booking_id (strip entry_name) route) /\
    d1 = {| bookings :=
              Some (rows ++ [booked_row format_cell booking_id
                               (strip entry_name) route]);
            validation_logs := validation_logs d;
            sqlite_sequence :=
              <["bookings"%string := booking_id]> (sqlite_sequence d) |}.
Proof.
  intros H.
  destruct (book_ticket_cases entry_name curselection d)
    as [H'|[H'|[H'|(i & more & route & rows & Hp & -> & Hr & Hb)]]];
    try (rewrite H' in H; discriminate).
  rewrite (book_ticket_run _ _ _ _ _ _ Hp Hr Hb) in H.
  injection H as <- <- <-.
  exists i, more, route, rows. repeat split; auto.
Qed.

(** * The properties of the handlers *)

(** C6: a decoded text is refused exactly when the marker occurs nowhere
    in it, and the image handler then shows "Invalid QR code" and leaves
    the database as it is; any text with the marker is taken, and the
    text "garbage" is refused. *)
Theorem booking_id_of_None_iff_no_marker :
  (forall qr_text : str,
     booking_id_of qr_text = None <->
     ~ exists pre post, qr_text = pre ++ BookingID ++ post) /\
  (forall (qr_text : str) more now d,
     validate_from_image (Some (qr_text :: more)) now d
     = (Ok InvalidQRCode, d) <->
     booking_id_of qr_text = None) /\
  booking_id_of (lit "garbage") = None.
Proof.
  split; [exact booking_id_of_None|]. split; [|reflexivity].
  intros qr_text more now d. split.
  - destruct (booking_id_of qr_text) as [booking_id|] eqn:E; [|reflexivity].
    rewrite (validate_from_image_run _ more _ now d E). unfold validated_by.
    destruct (validation booking_id (lit "Image") now d) as [[[]|e] d'];
      discriminate.
  - intros E. unfold validate_from_image. rewrite E. reflexivity.
Qed.

(** C10: whatever an earlier run left in the database file, the set-up
    succeeds and leaves both tables empty with no rowid given out: the
    first booking of the run gets id 1 and the first log gets log id 1. *)
Theorem database_setup_fresh :
  forall file : database,
  exists d,
    database_setup file = (Ok tt, d) /\
    bookings d = Some [] /\
    validation_logs d = Some [] /\
    sqlite_sequence d !! "bookings"%string = None /\
    sqlite_sequence d !! "validation_logs"%string = None /\
    (forall entry_name i more route,
       strip entry_name <> [] ->
       routes_df !! i = Some route ->
       exists qr d',
         book_ticket entry_name (i :: more) d
         = (Ok (BookSuccess 1 qr), d')) /\
    (forall booking_id method now,
       fst (insert_log booking_id method now d) = Ok 1).
Proof.
  intros file.
  set (seq := delete "validation_logs"%string
                (delete "bookings"%string (sqlite_sequence file))).
  set (d := {| bookings := Some []; validation_logs := Some [];
               sqlite_sequence := seq |} : database).
  assert (Sb : sqlite_sequence d !! "bookings"%string = None).
  { unfold d, seq. cbn [sqlite_sequence].
    rewrite lookup_delete_ne by discriminate. apply lookup_delete_eq. }
  assert (Sl : sqlite_sequence d !! "validation_logs"%string = None).
  { apply lookup_delete_eq. }
  exists d. split; [apply database_setup_run|].
  repeat split; auto.
  - intros entry_name i more route Hp Hr. eexists _, _.
    rewrite (book_ticket_run entry_name i more route d [] Hp Hr eq_refl).
    rewrite Sb. reflexivity.
  - intros booking_id method now. unfold insert_log.
    cbn [validation_logs d]. rewrite Sl. reflexivity.
Qed.

(** C5 (as amended): in every reachable database, [book_ticket] shows
    the warning and leaves the database as it is when the passenger name
    is empty once stripped of white space or nothing is selected;
    otherwise, for a selected route of the catalogue, it appends one
    booking with a fresh id and the status Booked, touches no log, and
    hands out that id with the booking's text for the QR image. *)
Theorem book_ticket_warns_or_books :
  forall entry_name curselection d,
    reachable d ->
    (strip entry_name = [] \/ curselection = [] ->
     book_ticket entry_name curselection d = (Ok BookWarning, d)) /\
    (forall i more route,
       strip entry_name <> [] ->
       curselection = i :: more ->
       routes_df !! i = Some route ->
       exists rows booking_id,
         let b := booked_row format_cell booking_id (strip entry_name) route in
         bookings d = Some rows /\
         (booking_id ∉ map b_id rows) /\
         fst (book_ticket entry_name curselection d)
         = Ok (BookSuccess booking_id (encode format_cell b)) /\
         bookings (snd (book_ticket entry_name curselection d))
         = Some (rows ++ [b]) /\
         validation_logs (snd (book_ticket entry_name curselection d))
         = validation_logs d /\
         status_of booking_id (snd (book_ticket entry_name curselection d))
         = Some (lit "Booked")).
Proof.
  intros entry_name curselection d R. split.
  - apply book_ticket_warning.
  - intros i more route Hp -> Hr.
    destruct (reachable_well_formed d R) as (rows & logs & Hb & Hl & _).
    exists rows, (next_rowid (map b_id rows)
                    (sqlite_sequence d !! "bookings"%string)).
    pose proof (next_rowid_fresh (map b_id rows)
                  (sqlite_sequence d !! "bookings"%string)) as [Hf _].
    cbv zeta. split; [exact Hb|]. split; [exact Hf|].
    rewrite (status_of_book_ticket _ _ _ _ _ _ _ Hp Hr Hb).
    rewrite (book_ticket_run _ _ _ _ _ _ Hp Hr Hb).
    cbn [fst snd bookings validation_logs]. repeat split.
    unfold status_of. rewrite Hb, (find_absent _ _ Hf), Z.eqb_refl.
    reflexivity.
Qed.

(** C7: when the parameter of the UPDATE denotes the id of no booking,
    the statement raises nothing and the database stays as it was; a
    validation handed a text with such an id changes no booking. *)
Theorem update_status_no_match :
  forall d rows param,
    bookings d = Some rows ->
    (forall r, r ∈ rows -> sqlite_int_of_text param <> Some (b_id r)) ->
    update_status (lit "Validated") param d = (Ok tt, d) /\
    (forall method now,
       bookings (snd (validation param method now d)) = Some rows).
Proof.
  intros d rows param Hb Hno.
  assert (M : map (fun r => if where_id param r
                            then set_status (lit "Validated") r else r) rows
              = rows).
  { rewrite <- (map_id rows) at 2. apply map_ext_in.
    intros r Hr. apply list_elem_of_In in Hr.
    unfold where_id. rewrite bool_decide_eq_false_2; [reflexivity|].
    apply Hno, Hr. }
  assert (U : update_status (lit "Validated") param d = (Ok tt, d)).
  { unfold update_status. rewrite Hb, M. destruct d; simpl in *.
    rewrite Hb. reflexivity. }
  split; [exact U|].
  intros method now. unfold validation, bind. rewrite U.
  unfold add_log, bind, insert_log.
  destruct (validation_logs d); cbn [snd bookings]; exact Hb.
Qed.

(** C8: in every reachable database each booking's status is Booked or
    Validated; a booking is created with the status Booked; and a
    status that is Validated stays Validated whatever is done next. *)
Theorem status_booked_then_validated :
  forall d,
    reachable d ->
    (exists rows,
       bookings d = Some rows /\
       Forall (fun r => b_status r = lit "Booked" \/
                        b_status r = lit "Validated") rows) /\
    (forall entry_name curselection booking_id qr d',
       book_ticket entry_name curselection d
       = (Ok (BookSuccess booking_id qr), d') ->
       status_of booking_id d = None /\
       status_of booking_id d' = Some (lit "Booked")) /\
    (forall acts booking_id,
       status_of booking_id d = Some (lit "Validated") ->
       status_of booking_id (run acts d) = Some (lit "Validated")).
Proof.
  intros d R. pose proof (reachable_well_formed d R) as W.
  split; [|split].
  - destruct W as (rows & logs & Hb & _ & Hok & _).
    exists rows. split; [exact Hb|].
    eapply Forall_impl; [exact Hok|]. intros r H. apply H.
  - intros entry_name curselection booking_id qr d' H.
    apply book_ticket_success_inv in H
      as (i & more & route & rows & Hp & -> & Hr & Hb & Hid & _ & ->).
    pose proof (next_rowid_fresh (map b_id rows)
                  (sqlite_sequence d !! "bookings"%string)) as [Hf _].
    rewrite <- Hid in Hf.
    unfold status_of. cbn [bookings].
    rewrite Hb, find_snoc, (find_absent _ _ Hf).
    cbn [booked_row b_id]. rewrite Z.eqb_refl. split; reflexivity.
  - intros acts booking_id Hs.
    destruct (status_of_run acts d booking_id _ W Hs) as (s' & Hs' & Hv).
    rewrite Hs', Hv; reflexivity.
Qed.

(** C9: [book_ticket] strips the passenger name first, before the test
    for an empty name and before the INSERT.  A name of white space only
    is turned away just as the empty name is, whatever is selected.  A
    name that is white space, a non-empty text without white space at its
    ends and white space again is booked as that text is, and the booking
    holds the text without the white space around it.  Every booking of
    a reachable database holds a passenger without white space at either
    end; and a booking just made holds the entry without the white space
    at its two ends, nothing else taken away, which is not empty. *)
Theorem book_ticket_strips_passenger :
  (forall entry_name curselection d,
     Forall (fun c => isspace c = true) entry_name ->
     book_ticket entry_name curselection d = book_ticket [] curselection d /\
     book_ticket entry_name curselection d = (Ok BookWarning, d)) /\
  (forall before name after i more route d,
     Forall (fun c => isspace c = true) before ->
     Forall (fun c => isspace c = true) after ->
     stripped name -> name <> [] ->
     reachable d -> routes_df !! i = Some route ->
     book_ticket (before ++ name ++ after) (i :: more) d
     = book_ticket name (i :: more) d /\
     exists rows booking_id qr r,
       bookings d = Some rows /\
       fst (book_ticket (before ++ name ++ after) (i :: more) d)
       = Ok (BookSuccess booking_id qr) /\
       bookings (snd (book_ticket (before ++ name ++ after) (i :: more) d))
       = Some (rows ++ [r]) /\
       b_id r = booking_id /\ b_passenger r = name /\
       b_status r = lit "Booked") /\
  (forall d,
     reachable d ->
     exists rows,
       bookings d = Some rows /\
       Forall (fun r => stripped (b_passenger r)) rows) /\
  (forall entry_name curselection d booking_id qr d',
     book_ticket entry_name curselection d
     = (Ok (BookSuccess booking_id qr), d') ->
     exists rows r before after,
       bookings d' = Some (rows ++ [r]) /\ b_id r = booking_id /\
       b_passenger r = strip entry_name /\ stripped (b_passenger r) /\
       b_passenger r <> [] /\
       entry_name = before ++ b_passenger r ++ after /\
       Forall (fun c => isspace c = true) before /\
       Forall (fun c => isspace c = true) after).
Proof.
  split; [|split; [|split]].
  - intros entry_name curselection d Hsp.
    rewrite !book_ticket_warning; auto.
    left. apply strip_spaces, Hsp.
  - intros before name after i more route d Fb Fa Hs Hn R Hr.
    destruct (reachable_well_formed d R) as (rows & logs & Hb & _).
    pose proof (strip_between before name after Fb Fa Hs Hn) as E1.
    pose proof (strip_between [] name [] (Forall_nil_2 _) (Forall_nil_2 _)
                  Hs Hn) as E2.
    rewrite app_nil_l, app_nil_r in E2.
    assert (Hp1 : strip (before ++ name ++ after) <> []) by congruence.
    assert (Hp2 : strip name <> []) by congruence.
    rewrite (book_ticket_run _ _ _ _ _ _ Hp1 Hr Hb).
    rewrite (book_ticket_run _ _ _ _ _ _ Hp2 Hr Hb).
    rewrite E1, E2. split; [reflexivity|].
    eexists rows, _, _, _. cbn [fst snd bookings].
    split; [exact Hb|]. split; [reflexivity|]. split; [reflexivity|].
    cbn [booked_row b_id b_passenger b_status]. repeat split.
  - intros d R.
    destruct (reachable_well_formed d R) as (rows & logs & Hb & _ & Hok & _).
    exists rows. split; [exact Hb|].
    eapply Forall_impl; [exact Hok|]. intros r H. apply H.
  - intros entry_name curselection d booking_id qr d' H.
    apply book_ticket_success_inv in H
      as (i & more & route & rows & Hp & -> & Hr & Hb & Hid & _ & ->).
    destruct (lstrip_split entry_name) as (before & E1 & F1).
    destruct (rstrip_split (lstrip entry_name)) as (after & E2 & F2).
    eexists rows, _, before, after. cbn [bookings]. split; [reflexivity|].
    cbn [booked_row b_id b_passenger].
    split; [reflexivity|]. split; [reflexivity|].
    split; [apply strip_stripped|]. split; [exact Hp|].
    split; [|split; assumption].
    unfold strip. rewrite <- E2, <- E1. reflexivity.
Qed.

(** ** Validation of a ticket of this program *)

(** SQLite reads the decimal numeral of an integer as that integer when
    it compares the bound text with the INTEGER column. *)
Hypothesis sqlite_int_of_decimal :
  forall n : Z, sqlite_int_of_text (str_of_int n) = Some n.

(** What one validation of the ticket of [booking_id] does. *)
Lemma validation_of_ticket booking_id method now d :
  well_formed d ->
  is_Some (status_of booking_id d) ->
  let d' := snd (validation (str_of_int booking_id) method now d) in
  status_of booking_id d' = Some (lit "Validated") /\
  (forall other,
     other <> booking_id -> status_of other d' = status_of other d) /\
  exists logs log_id,
    validation_logs d = Some logs /\
    validation_logs d'
    = Some (logs ++ [ {| l_log_id := log_id;
                         l_booking_id := str_of_int booking_id;
                         l_method := method;
                         l_timestamp := now |} ]).
Proof.
  intros (rows & logs & Hb & Hl & _) [s Hs]. cbv zeta.
  split; [|split].
  - rewrite (status_of_validation _ _ _ _ _ _ _ Hb Hl).
    unfold status_of in Hs. rewrite Hb in Hs.
    destruct (List.find _ rows) as [r|] eqn:F; [|discriminate].
    apply find_some in F as [_ F]. unfold mark.
    rewrite (where_id_eqb _ _ _ (sqlite_int_of_decimal booking_id)), F.
    reflexivity.
  - intros other Hne.
    rewrite (status_of_validation _ _ _ _ _ _ _ Hb Hl).
    unfold status_of. rewrite Hb.
    destruct (List.find _ rows) as [r|] eqn:F; [|reflexivity].
    apply find_some in F as [_ F]. apply Z.eqb_eq in F. unfold mark.
    rewrite (where_id_eqb _ _ _ (sqlite_int_of_decimal booking_id)).
    destruct (Z.eqb_spec (b_id r) booking_id); [congruence|reflexivity].
  - rewrite (validation_run _ _ _ _ _ _ Hb Hl).
    eexists logs, _. split; [exact Hl|]. reflexivity.
Qed.

(** A ticket sold stays in the table, and its text reads back as the
    numeral of its id. *)
Lemma ticket_in_run d0 entry_name curselection booking_id qr d1 acts :
  reachable d0 ->
  book_ticket entry_name curselection d0
  = (Ok (BookSuccess booking_id qr), d1) ->
  well_formed (run acts d1) /\
  is_Some (status_of booking_id (run acts d1)) /\
  booking_id_of qr = Some (str_of_int booking_id).
Proof.
  intros R H.
  assert (R1 : reachable d1).
  { change d1 with (snd (Ok (BookSuccess booking_id qr), d1)).
    rewrite <- H. exact (reachable_perform _ _ _ d0
                           (Book entry_name curselection) R). }
  pose proof (reachable_well_formed d1 R1) as W1.
  apply book_ticket_success_inv in H
    as (i & more & route & rows & Hp & -> & Hr & Hb & Hid & -> & Hd1).
  split; [|split].
  - apply reachable_well_formed, reachable_run, R1.
  - assert (S1 : status_of booking_id d1 = Some (lit "Booked")).
    { pose proof (next_rowid_fresh (map b_id rows)
                    (sqlite_sequence d0 !! "bookings"%string)) as [Hf _].
      rewrite <- Hid in Hf. rewrite Hd1.
      unfold status_of. cbn [bookings].
      rewrite find_snoc, (find_absent _ _ Hf).
      cbn [booked_row b_id]. rewrite Z.eqb_refl. reflexivity. }
    destruct (status_of_run acts d1 booking_id _ W1 S1) as (s' & Hs' & _).
    exists s'. exact Hs'.
  - apply booking_id_of_qr_data.
Qed.

(** C3: a ticket sold by [book_ticket] and later presented to either
    validation handler: the handler leaves the booking of that ticket
    with the status Validated, changes the status of no other booking,
    and appends one row to the log, with the ticket's id, the handler's
    method (Image or Webcam) and the time of the call.  It rests on
    [sqlite_int_of_decimal]. *)
Theorem validate_marks_and_logs :
  forall d0 entry_name curselection booking_id qr d1 acts a method now,
    reachable d0 ->
    book_ticket entry_name curselection d0
    = (Ok (BookSuccess booking_id qr), d1) ->
    presents qr a method now ->
    let d := run acts d1 in
    let d' := perform a d in
    (method = lit "Image" \/ method = lit "Webcam") /\
    status_of booking_id d' = Some (lit "Validated") /\
    (forall other,
       other <> booking_id -> status_of other d' = status_of other d) /\
    exists logs log_id,
      validation_logs d = Some logs /\
      validation_logs d'
      = Some (logs ++ [ {| l_log_id := log_id;
                           l_booking_id := str_of_int booking_id;
                           l_method := method;
                           l_timestamp := now |} ]).
Proof.
  intros d0 entry_name curselection booking_id qr d1 acts a method now
    R H P. cbv zeta.
  destruct (ticket_in_run _ _ _ _ _ _ acts R H) as (W & S & E).
  split; [destruct P; tauto|].
  rewrite (perform_presents _ _ _ _ _ _ P E).
  exact (validation_of_ticket booking_id method now _ W S).
Qed.

(** C4: the same ticket presented twice in a row: the booking is
    Validated after the first call and after the second, the second call
    changes nothing in the bookings table, and the log has grown by two
    rows, one per call.  It rests on [sqlite_int_of_decimal]. *)
Theorem validate_twice :
  forall d0 entry_name curselection booking_id qr d1 acts
         a1 method1 now1 a2 method2 now2,
    reachable d0 ->
    book_ticket entry_name curselection d0
    = (Ok (BookSuccess booking_id qr), d1) ->
    presents qr a1 method1 now1 ->
    presents qr a2 method2 now2 ->
    let d := run acts d1 in
    let d' := perform a1 d in
    let d'' := perform a2 d' in
    status_of booking_id d' = Some (lit "Validated") /\
    status_of booking_id d'' = Some (lit "Validated") /\
    bookings d'' = bookings d' /\
    exists logs log_id1 log_id2,
      validation_logs d = Some logs /\
      validation_logs d''
      = Some (logs ++ [ {| l_log_id := log_id1;
                           l_booking_id := str_of_int booking_id;
                           l_method := method1;
                           l_timestamp := now1 |};
                        {| l_log_id := log_id2;
                           l_booking_id := str_of_int booking_id;
                           l_method := method2;
                           l_timestamp := now2 |} ]).
Proof.
  intros d0 entry_name curselection booking_id qr d1 acts
    a1 method1 now1 a2 method2 now2 R H P1 P2. cbv zeta.
  destruct (ticket_in_run _ _ _ _ _ _ acts R H) as (W & S & E).
  rewrite (perform_presents _ _ _ _ _ (perform a1 (run acts d1)) P2 E).
  rewrite (perform_presents _ _ _ _ _ (run acts d1) P1 E).
  set (d := run acts d1) in *.
  set (d' := snd (validation (str_of_int booking_id) method1 now1 d)).
  destruct (validation_of_ticket booking_id method1 now1 d W S)
    as (S1 & _ & logs & log_id1 & Hl & Hl1).
  fold d' in S1, Hl1.
  assert (W' : well_formed d') by apply well_formed_validation, W.
  destruct (validation_of_ticket booking_id method2 now2 d' W'
              (ex_intro _ _ S1))
    as (S2 & _ & logs' & log_id2 & Hl' & Hl2).
  split; [exact S1|]. split; [exact S2|]. split.
  - destruct W as (rows & logs0 & Hb & Hl0 & _).
    destruct W' as (rows' & logs0' & Hb' & Hl0' & _).
    rewrite (validation_run _ _ _ _ _ _ Hb' Hl0'). cbn [snd bookings].
    rewrite Hb'. unfold d' in Hb'.
    rewrite (validation_run _ _ _ _ _ _ Hb Hl0) in Hb'.
    cbn [snd bookings] in Hb'. injection Hb' as <-.
    rewrite map_map. f_equal. apply map_ext. intros r.
    apply mark_idempotent.
  - exists logs, log_id1, log_id2. split; [exact Hl|].
    rewrite Hl2. rewrite Hl1 in Hl'. injection Hl' as <-.
    rewrite <- app_assoc. reflexivity.
Qed.

End Handlers.

(** * The handlers on the sample run *)

(** The set-up on a new file and on the file of an earlier run. *)
Lemma database_setup_samples :
  database_setup empty_file = (Ok tt, fresh) /\
  database_setup used_file = (Ok tt, fresh).
Proof. split; vm_compute; reflexivity. Qed.

Lemma reachable_fresh :
  reachable text_cell decimal_int_of_text sample_routes fresh.
Proof.
  apply (reachable_setup _ _ _ used_file). apply database_setup_samples.
Qed.

(** The scenario of the specification: the booking gets id 1 and the
    text of its ticket, and the validation from an image marks it and
    logs one row. *)
Lemma asha_books :
  book_ticket text_cell sample_routes (lit " Asha ") [0%nat] fresh
  = (Ok (BookSuccess 1 asha_qr), asha_booked).
Proof. vm_compute. reflexivity. Qed.

Lemma asha_is_validated :
  status_of 1 asha_booked = Some (lit "Booked") /\
  status_of 1 asha_validated = Some (lit "Validated") /\
  validation_logs asha_validated
  = Some [ {| l_log_id := 1; l_booking_id := lit "1";
              l_method := lit "Image";
              l_timestamp := lit "2024-01-01 09:05:00" |} ].
Proof. vm_compute. repeat split. Qed.

Lemma presents_from_image :
  presents asha_qr from_image (lit "Image") (lit "2024-01-01 09:05:00").
Proof. apply presents_image. Qed.

Lemma presents_via_webcam :
  presents asha_qr via_webcam (lit "Webcam") (lit "2024-01-01 09:06:00").
Proof.
  apply (presents_webcam asha_qr
           [ {| frame_codes := []; frame_key_q := false |} ]
           [lit "garbage"] [] false []).
  - repeat constructor.
  - repeat constructor.
Qed.

(** The ticket of Asha, read by the camera behind an empty frame and a
    symbol without the marker. *)
Lemma validate_marks_and_logs_witness :
  reachable text_cell decimal_int_of_text sample_routes fresh /\
  book_ticket text_cell sample_routes (lit " Asha ") [0%nat] fresh
  = (Ok (BookSuccess 1 asha_qr), asha_booked) /\
  presents asha_qr via_webcam (lit "Webcam") (lit "2024-01-01 09:06:00") /\
  status_of 1
    (perform text_cell decimal_int_of_text sample_routes via_webcam
       asha_booked)
  = Some (lit "Validated").
Proof.
  split; [exact reachable_fresh|]. split; [exact asha_books|].
  split; [exact presents_via_webcam|].
  exact (proj1 (proj2
    (validate_marks_and_logs text_cell decimal_int_of_text sample_routes
       decimal_int_of_str_of_int fresh (lit " Asha ") [0%nat] 1 asha_qr
       asha_booked [] via_webcam (lit "Webcam") (lit "2024-01-01 09:06:00")
       reachable_fresh asha_books presents_via_webcam))).
Defined.

(** The ticket of Asha, validated from an image and then by the camera. *)
Lemma validate_twice_witness :
  reachable text_cell decimal_int_of_text sample_routes fresh /\
  book_ticket text_cell sample_routes (lit " Asha ") [0%nat] fresh
  = (Ok (BookSuccess 1 asha_qr), asha_booked) /\
  presents asha_qr from_image (lit "Image") (lit "2024-01-01 09:05:00") /\
  presents asha_qr via_webcam (lit "Webcam") (lit "2024-01-01 09:06:00") /\
  status_of 1
    (perform text_cell decimal_int_of_text sample_routes via_webcam
       asha_validated)
  = Some (lit "Validated") /\
  bookings
    (perform text_cell decimal_int_of_text sample_routes via_webcam
       asha_validated)
  = bookings asha_validated.
Proof.
  split; [exact reachable_fresh|]. split; [exact asha_books|].
  split; [exact presents_from_image|]. split; [exact presents_via_webcam|].
  pose proof
    (validate_twice text_cell decimal_int_of_text sample_routes
       decimal_int_of_str_of_int fresh (lit " Asha ") [0%nat] 1 asha_qr
       asha_booked [] from_image (lit "Image") (lit "2024-01-01 09:05:00")
       via_webcam (lit "Webcam") (lit "2024-01-01 09:06:00")
       reachable_fresh asha_books presents_from_image presents_via_webcam)
    as (_ & H2 & H3 & _).
  split; [exact H2|exact H3].
Defined.

(** A name of blanks and the name of Asha on the fresh database. *)
Lemma book_ticket_warns_or_books_witness :
  reachable text_cell decimal_int_of_text sample_routes fresh /\
  (strip (lit "   ") = [] \/ [0%nat] = [] ->
   book_ticket text_cell sample_routes (lit "   ") [0%nat] fresh
   = (Ok BookWarning, fresh)) /\
  exists booking_id,
    bookings
      (snd (book_ticket text_cell sample_routes (lit " Asha ") [0%nat] fresh))
    = Some [ booked_row text_cell booking_id (strip (lit " Asha "))
               {| route_BusNo := lit "12A";
                  route_Source := lit "CityX";
                  route_Destination := lit "CityY";
                  route_Time := lit "09:00";
                  route_Fare := lit "50.0" |} ] /\
    status_of booking_id
      (snd (book_ticket text_cell sample_routes (lit " Asha ") [0%nat] fresh))
    = Some (lit "Booked").
Proof.
  split; [exact reachable_fresh|]. split.
  - exact (proj1
      (book_ticket_warns_or_books text_cell decimal_int_of_text sample_routes
         (lit "   ") [0%nat] fresh reachable_fresh)).
  - destruct (proj2
      (book_ticket_warns_or_books text_cell decimal_int_of_text sample_routes
         (lit " Asha ") [0%nat] fresh reachable_fresh)
      0%nat [] _ ltac:(vm_compute; discriminate) eq_refl eq_refl)
      as (rows & booking_id & Hrows & _ & _ & Hb & _ & Hs).
    injection Hrows as <-. exists booking_id. split; [exact Hb|exact Hs].
Defined.

(** C5 (as stated) fails: a passenger name of blanks is not empty, and
    with a route selected the handler still shows the warning and
    inserts no booking. *)
Lemma book_ticket_blank_name :
  py_not (lit "   ") = false /\
  py_not [0%nat] = false /\
  is_Some (sample_routes !! 0%nat) /\
  book_ticket text_cell sample_routes (lit "   ") [0%nat] fresh
  = (Ok BookWarning, fresh) /\
  bookings
    (snd (book_ticket text_cell sample_routes (lit "   ") [0%nat] fresh))
  = Some [].
Proof.
  split; [reflexivity|]. split; [reflexivity|].
  split; [eexists; reflexivity|]. split; reflexivity.
Qed.

(** The id 2 when the only booking has the id 1. *)
Lemma update_status_no_match_witness :
  bookings asha_booked
  = Some [ booked_row text_cell 1 (lit "Asha")
             {| route_BusNo := lit "12A";
                route_Source := lit "CityX";
                route_Destination := lit "CityY";
                route_Time := lit "09:00";
                route_Fare := lit "50.0" |} ] /\
  decimal_int_of_text (lit "2") = Some 2 /\
  update_status decimal_int_of_text (lit "Validated") (lit "2") asha_booked
  = (Ok tt, asha_booked).
Proof.
  assert (Hb : bookings asha_booked
    = Some [ booked_row text_cell 1 (lit "Asha")
               {| route_BusNo := lit "12A";
                  route_Source := lit "CityX";
                  route_Destination := lit "CityY";
                  route_Time := lit "09:00";
                  route_Fare := lit "50.0" |} ]) by reflexivity.
  split; [exact Hb|]. split; [reflexivity|].
  refine (proj1 (update_status_no_match decimal_int_of_text asha_booked _
                   (lit "2") Hb _)).
  intros r Hr. apply list_elem_of_singleton in Hr. subst r.
  vm_compute. discriminate.
Defined.

(** The validated booking of Asha through one more booking and two more
    validations. *)
Lemma status_booked_then_validated_witness :
  reachable text_cell decimal_int_of_text sample_routes asha_validated /\
  status_of 1 asha_validated = Some (lit "Validated") /\
  status_of 1
    (run text_cell decimal_int_of_text sample_routes
       [Book (lit "Ravi") [0%nat]; via_webcam; from_image] asha_validated)
  = Some (lit "Validated").
Proof.
  assert (R : reachable text_cell decimal_int_of_text sample_routes
                asha_validated).
  { apply reachable_perform.
    apply (reachable_perform _ _ _ fresh (Book (lit " Asha ") [0%nat])).
    exact reachable_fresh. }
  assert (S : status_of 1 asha_validated = Some (lit "Validated"))
    by reflexivity.
  split; [exact R|]. split; [exact S|].
  exact (proj2 (proj2
    (status_booked_then_validated text_cell decimal_int_of_text
       sample_routes asha_validated R))
    [Book (lit "Ravi") [0%nat]; via_webcam; from_image] 1 S).
Defined.

(** C9 on the sample catalogue: a name of three blanks is turned away,
    and "Asha" between a tab and a blank, and a blank and a line feed, is
    booked as "Asha". *)
Lemma book_ticket_strips_passenger_witness :
  book_ticket text_cell sample_routes (lit "   ") [0%nat] fresh
  = (Ok BookWarning, fresh) /\
  exists rows booking_id qr r,
    bookings fresh = Some rows /\
    fst (book_ticket text_cell sample_routes
           ([9; 32]%N ++ lit "Asha" ++ [32; 10]%N) [0%nat] fresh)
    = Ok (BookSuccess booking_id qr) /\
    bookings (snd (book_ticket text_cell sample_routes
                     ([9; 32]%N ++ lit "Asha" ++ [32; 10]%N) [0%nat] fresh))
    = Some (rows ++ [r]) /\
    b_id r = booking_id /\ b_passenger r = lit "Asha" /\
    b_status r = lit "Booked".
Proof.
  destruct (book_ticket_strips_passenger text_cell decimal_int_of_text
              sample_routes) as (Hblank & Hname & _).
  split.
  - apply (Hblank (lit "   ") [0%nat] fresh).
    repeat constructor.
  - eapply (Hname [9; 32]%N (lit "Asha") [32; 10]%N 0%nat []).
    + repeat constructor.
    + repeat constructor.
    + split; intros c [= <-]; reflexivity.
    + discriminate.
    + exact reachable_fresh.
    + reflexivity.
Defined.

(** * Runs of the handlers: what every step keeps *)

Section Runs.

Context {cell : Type}.
Variable format_cell : cell -> str.
Variable sqlite_int_of_text : str -> option Z.
Variable routes_df : list (route cell).

Local Abbreviation database := (database cell).
Local Abbreviation booking_row := (booking_row cell).
Local Abbreviation book_ticket := (book_ticket format_cell routes_df).
Local Abbreviation where_id := (where_id sqlite_int_of_text).
Local Abbreviation mark := (mark sqlite_int_of_text).
Local Abbreviation update_status := (update_status sqlite_int_of_text).
Local Abbreviation validation := (validation sqlite_int_of_text).
Local Abbreviation validated_by := (validated_by sqlite_int_of_text).
Local Abbreviation validate_from_image :=
  (validate_from_image sqlite_int_of_text).
Local Abbreviation scan_codes := (scan_codes sqlite_int_of_text).
Local Abbreviation scan_frames := (scan_frames sqlite_int_of_text).
Local Abbreviation validate_via_webcam :=
  (validate_via_webcam sqlite_int_of_text).
Local Abbreviation perform := (perform format_cell sqlite_int_of_text routes_df).
Local Abbreviation run := (run format_cell sqlite_int_of_text routes_df).
Local Abbreviation reachable :=
  (reachable format_cell sqlite_int_of_text routes_df).
Local Abbreviation validate_from_image_file :=
  (validate_from_image_file sqlite_int_of_text).
Local Abbreviation scan_symbols := (scan_symbols sqlite_int_of_text).
Local Abbreviation scan_camera := (scan_camera sqlite_int_of_text).
Local Abbreviation validate_via_webcam_camera :=
  (validate_via_webcam_camera sqlite_int_of_text).

Implicit Types (d : database) (r : booking_row) (rows : list booking_row)
  (logs : list log_row).

(** ** The three kinds of step *)

(** The database after the validation of [param]. *)
Definition validated_db (param method now : str) d rows logs : database :=
  {| bookings := Some (map (mark param) rows);
     validation_logs :=
       Some (logs ++
             [ {| l_log_id :=
                    next_rowid (map l_log_id logs)
                      (sqlite_sequence d !! "validation_logs"%string);
                  l_booking_id := param;
                  l_method := method;
                  l_timestamp := now |} ]);
     sqlite_sequence :=
       <["validation_logs"%string :=
           next_rowid (map l_log_id logs)
             (sqlite_sequence d !! "validation_logs"%string)]>
         (sqlite_sequence d) |}.

(** The database after the booking of [passenger] on [route]. *)
Definition booked_db (passenger : str) (route : route cell) d rows
  : database :=
  {| bookings :=
       Some (rows ++
             [ booked_row format_cell
                 (next_rowid (map b_id rows)
                    (sqlite_sequence d !! "bookings"%string))
                 passenger route ]);
     validation_logs := validation_logs d;
     sqlite_sequence :=
       <["bookings"%string :=
           next_rowid (map b_id rows)
             (sqlite_sequence d !! "bookings"%string)]>
         (sqlite_sequence d) |}.

Lemma scan_codes_found codes now d :
  (scan_codes codes now d = (Ok None, d) /\
   Forall (fun t => booking_id_of t = None) codes) \/
  exists qr param,
    qr ∈ codes /\ booking_id_of qr = Some param /\
    scan_codes codes now d
    = validated_by (Some param) param (lit "Webcam") now d.
Proof.
  induction codes as [|qr_text codes IH].
  - left. split; [reflexivity|constructor].
  - destruct (booking_id_of qr_text) as [param|] eqn:E.
    + right. exists qr_text, param. split; [left|]. split; [exact E|].
      apply scan_codes_run, E.
    + destruct IH as [[H F]|(qr & param & Hin & Hq & H)].
      * left. simpl. rewrite E. split; [exact H|]. constructor; assumption.
      * right. exists qr, param. split; [right; exact Hin|].
        split; [exact Hq|]. simpl. rewrite E. exact H.
Qed.

Lemma scan_frames_found_text frames now d :
  scan_frames frames now d = (Ok None, d) \/
  exists qr param,
    booking_id_of qr = Some param /\
    scan_frames frames now d
    = validated_by (Some param) param (lit "Webcam") now d.
Proof.
  induction frames as [|f frames IH]; [left; reflexivity|].
  destruct (scan_codes_found (frame_codes f) now d)
    as [[H _]|(qr & param & _ & Hq & H)].
  - simpl. unfold bind. rewrite H.
    destruct (frame_key_q f); [left; reflexivity|exact IH].
  - right. exists qr, param. split; [exact Hq|].
    apply scan_frames_found, H.
Qed.

(** A step leaves the database as it is, runs one validation, or makes
    one booking. *)
Lemma perform_kinds a d :
  well_formed d ->
  exists rows logs,
    bookings d = Some rows /\ validation_logs d = Some logs /\
    (perform a d = d \/
     (exists qr param method now,
        booking_id_of qr = Some param /\
        (method = lit "Image" \/ method = lit "Webcam") /\
        (forall entry_name curselection, a <> Book entry_name curselection) /\
        perform a d = validated_db param method now d rows logs) \/
     (exists entry_name i more route,
        a = Book entry_name (i :: more) /\
        routes_df !! i = Some route /\ strip entry_name <> [] /\
        perform a d = booked_db (strip entry_name) route d rows)).
Proof.
  intros (rows & logs & Hb & Hl & _). exists rows, logs.
  split; [exact Hb|]. split; [exact Hl|].
  destruct a as [e c|picked now|frames now]; unfold perform.
  - destruct (book_ticket_cases format_cell routes_df e c d)
      as [H|[H|[H|(i & more & route & rows' & Hp & -> & Hr & Hb')]]];
      try (left; rewrite H; reflexivity).
    right. right. exists e, i, more, route.
    rewrite Hb in Hb'. injection Hb' as <-.
    split; [reflexivity|]. split; [exact Hr|]. split; [exact Hp|].
    rewrite (book_ticket_run _ _ _ _ _ _ _ _ Hp Hr Hb). reflexivity.
  - destruct picked as [[|qr more]|]; try (left; reflexivity).
    destruct (booking_id_of qr) as [param|] eqn:E.
    + right. left. exists qr, param, (lit "Image"), now.
      split; [exact E|]. split; [left; reflexivity|].
      split; [discriminate|].
      rewrite (validate_from_image_run _ _ _ _ _ _ E), snd_validated_by.
      rewrite (validation_run _ _ _ _ _ _ _ Hb Hl). reflexivity.
    + left. unfold validate_from_image. rewrite E. reflexivity.
  - unfold validate_via_webcam, bind.
    destruct (scan_frames_found_text frames now d)
      as [H|(qr & param & Hq & H)]; rewrite H.
    + left. reflexivity.
    + right. left. exists qr, param, (lit "Webcam"), now.
      split; [exact Hq|]. split; [right; reflexivity|].
      split; [discriminate|].
      unfold validated_by. rewrite (validation_run _ _ _ _ _ _ _ Hb Hl).
      reflexivity.
Qed.

(** Induction over the reachable databases, one case per kind of step. *)
Lemma reachable_steps (P : database -> Prop) :
  (forall file d, database_setup file = (Ok tt, d) -> P d) ->
  (forall d rows logs qr param method now,
     reachable d -> P d ->
     bookings d = Some rows -> validation_logs d = Some logs ->
     booking_id_of qr = Some param ->
     method = lit "Image" \/ method = lit "Webcam" ->
     P (validated_db param method now d rows logs)) ->
  (forall d rows entry_name route,
     reachable d -> P d ->
     bookings d = Some rows ->
     strip entry_name <> [] -> route ∈ routes_df ->
     P (booked_db (strip entry_name) route d rows)) ->
  forall d, reachable d -> P d.
Proof.
  intros Hsetup Hval Hbook d R.
  induction R as [file d H|d a R IH]; [exact (Hsetup file d H)|].
  destruct (perform_kinds a d (reachable_well_formed _ _ _ d R))
    as (rows & logs & Hb & Hl &
        [H|[(qr & param & method & now & Hq & Hm & _ & H)
           |(e & i & more & route & _ & Hr & Hp & H)]]); rewrite H.
  - exact IH.
  - exact (Hval d rows logs qr param method now R IH Hb Hl Hq Hm).
  - apply (Hbook d rows e route R IH Hb Hp).
    exact (list_elem_of_lookup_2 _ _ _ Hr).
Qed.

(** ** Rowids *)

Lemma foldr_max_snoc (ids : list Z) (x : Z) :
  0 <= x -> foldr Z.max 0 (ids ++ [x]) = Z.max (foldr Z.max 0 ids) x.
Proof. intros Hx. induction ids as [|i ids IH]; simpl; lia. Qed.

Lemma foldr_max_seqZ (n : nat) :
  foldr Z.max 0 (seqZ 1 (Z.of_nat n)) = Z.of_nat n.
Proof.
  induction n as [|n IH]; [reflexivity|].
  rewrite seqZ_S, foldr_max_snoc, IH by lia. lia.
Qed.

Lemma next_rowid_seqZ (n : nat) (seq : option Z) :
  default 0 seq <= Z.of_nat n ->
  next_rowid (seqZ 1 (Z.of_nat n)) seq = Z.of_nat (S n).
Proof. intros H. unfold next_rowid. rewrite foldr_max_seqZ. lia. Qed.

(** Bookings and logs are numbered 1, 2, 3, ... in the order they were
    made, and the counters of [sqlite_sequence] are not ahead of them. *)
Definition counted d : Prop :=
  exists rows logs,
    bookings d = Some rows /\ validation_logs d = Some logs /\
    map b_id rows = seqZ 1 (Z.of_nat (length rows)) /\
    map l_log_id logs = seqZ 1 (Z.of_nat (length logs)) /\
    default 0 (sqlite_sequence d !! "bookings"%string)
    <= Z.of_nat (length rows) /\
    default 0 (sqlite_sequence d !! "validation_logs"%string)
    <= Z.of_nat (length logs).

Lemma reachable_counted d : reachable d -> counted d.
Proof.
  apply reachable_steps; clear d.
  - intros file d H. rewrite database_setup_run in H. injection H as <-.
    exists [], []. cbn [bookings validation_logs sqlite_sequence].
    rewrite lookup_delete_ne by discriminate.
    rewrite !lookup_delete_eq. repeat split; reflexivity.
  - intros d rows logs qr param method now _
      (rows' & logs' & Hb' & Hl' & Hi & Hli & Hs & Hls) Hb Hl _ _.
    rewrite Hb in Hb'. injection Hb' as <-.
    rewrite Hl in Hl'. injection Hl' as <-.
    eexists _, _. unfold validated_db.
    cbn [bookings validation_logs sqlite_sequence].
    split; [reflexivity|]. split; [reflexivity|].
    rewrite Hli, (next_rowid_seqZ _ _ Hls).
    rewrite lookup_insert_ne by discriminate. rewrite lookup_insert_eq.
    rewrite length_map, length_app, map_map, map_app. cbn [length map].
    rewrite (map_ext (fun r => b_id (mark param r)) b_id)
      by (intros r; apply b_id_mark).
    rewrite Hi, Hli.
    replace (length logs + 1)%nat with (S (length logs)) by lia.
    rewrite seqZ_S. cbn [default l_log_id].
    repeat split; try assumption; try (unfold id; lia).
    do 2 f_equal. lia.
  - intros d rows entry_name route _
      (rows' & logs & Hb' & Hl & Hi & Hli & Hs & Hls) Hb _ _.
    rewrite Hb in Hb'. injection Hb' as <-.
    eexists _, logs. unfold booked_db.
    cbn [bookings validation_logs sqlite_sequence].
    split; [reflexivity|]. split; [exact Hl|].
    rewrite Hi, (next_rowid_seqZ _ _ Hs).
    rewrite lookup_insert_eq. rewrite lookup_insert_ne by discriminate.
    rewrite length_app, map_app. cbn [length map booked_row b_id].
    rewrite Hi.
    replace (length rows + 1)%nat with (S (length rows)) by lia.
    rewrite seqZ_S. cbn [default].
    repeat split; try assumption; try (unfold id; lia).
    do 2 f_equal. lia.
Qed.

(** X1: in every reachable database the bookings carry the ids 1, 2,
    ..., n in the order they were made, and the logs the log ids 1, 2,
    ..., m: ids are unique, rising, and none is skipped or reused. *)
Theorem rowids_count_up :
  forall d,
    reachable d ->
    exists rows logs,
      bookings d = Some rows /\ validation_logs d = Some logs /\
      map b_id rows = seqZ 1 (Z.of_nat (length rows)) /\
      map l_log_id logs = seqZ 1 (Z.of_nat (length logs)).
Proof.
  intros d R.
  destruct (reachable_counted d R) as (rows & logs & Hb & Hl & Hi & Hli & _).
  exists rows, logs. auto.
Qed.

(** ** How a handler ends *)

Lemma passed_over_text (qr_text : str) :
  passed_over (Some qr_text) = true -> booking_id_of qr_text = None.
Proof.
  unfold passed_over, booking_id_of. intros ->. reflexivity.
Qed.

Lemma scan_symbols_skip junk symbols now d :
  forallb passed_over junk = true ->
  scan_symbols (junk ++ symbols) now d = scan_symbols symbols now d.
Proof.
  induction junk as [|y junk IH]; [reflexivity|].
  cbn [forallb]. intros H. apply andb_prop in H as [Hy Hj].
  destruct y as [qr_text|]; [|discriminate].
  simpl. rewrite (passed_over_text _ Hy). exact (IH Hj).
Qed.

Lemma scan_symbols_none symbols now d :
  forallb passed_over symbols = true ->
  scan_symbols symbols now d = (Returned None, d).
Proof.
  intros H. rewrite <- (app_nil_r symbols).
  rewrite (scan_symbols_skip symbols [] now d H). reflexivity.
Qed.

(** The loop over the symbols of a frame stops at the first symbol that
    is not passed over. *)
Lemma first_not_passed_over (symbols : list symbol) :
  forallb passed_over symbols = false ->
  exists junk y more,
    symbols = junk ++ y :: more /\
    forallb passed_over junk = true /\ passed_over y = false.
Proof.
  induction symbols as [|y symbols IH]; [discriminate|].
  cbn [forallb]. destruct (passed_over y) eqn:Hy.
  - intros H. destruct (IH H) as (junk & y' & more & -> & Hj & Hy').
    exists (y :: junk), y', more. cbn [forallb]. rewrite Hy, Hj. auto.
  - intros _. exists [], y, symbols. auto.
Qed.

Lemma ended_validation {A : Type} (x : A) param method now d rows logs :
  bookings d = Some rows ->
  validation_logs d = Some logs ->
  ended x (validation param method now d)
  = (Returned x, snd (validation param method now d)).
Proof.
  intros Hb Hl. rewrite (validation_run _ _ _ _ _ _ _ Hb Hl). reflexivity.
Qed.

Lemma scan_symbols_kinds symbols now d :
  well_formed d ->
  (forallb passed_over symbols = true /\
   scan_symbols symbols now d = (Returned None, d)) \/
  (exists junk more,
     symbols = junk ++ None :: more /\ forallb passed_over junk = true /\
     scan_symbols symbols now d = (Crashed UnicodeDecodeError, d)) \/
  (exists junk qr param more,
     symbols = junk ++ Some qr :: more /\ forallb passed_over junk = true /\
     booking_id_of qr = Some param /\
     scan_symbols symbols now d
     = (Returned (Some param),
        snd (validation param (lit "Webcam") now d))).
Proof.
  intros (rows & logs & Hb & Hl & _).
  destruct (forallb passed_over symbols) eqn:F.
  { left. split; [reflexivity|]. apply scan_symbols_none, F. }
  right.
  destruct (first_not_passed_over symbols F)
    as (junk & y & more & -> & Hj & Hy).
  rewrite (scan_symbols_skip junk _ now d Hj).
  destruct y as [qr|].
  - right. unfold passed_over in Hy. apply negb_false_iff in Hy.
    destruct (booking_id_of qr) as [param|] eqn:E.
    2:{ unfold booking_id_of in E. rewrite Hy in E. discriminate. }
    exists junk, qr, param, more. split; [reflexivity|].
    split; [exact Hj|]. split; [exact E|].
    simpl. rewrite E.
    exact (ended_validation (Some param) param (lit "Webcam") now d
             rows logs Hb Hl).
  - left. exists junk, more. auto.
Qed.

Lemma scan_camera_turn fuel (cap : camera) turn now d :
  scan_camera (S fuel) cap turn now d
  = match cap turn with
    | None => Some (Returned None, d)
    | Some frame =>
        match scan_symbols (shot_symbols frame) now d with
        | (Crashed c, d') => Some (Crashed c, d')
        | (Returned (Some booking_id), d') =>
            Some (Returned (Some booking_id), d')
        | (Returned None, d') =>
            if shot_key_q frame then Some (Returned None, d')
            else scan_camera fuel cap (S turn) now d'
        end
    end.
Proof. reflexivity. Qed.

(** Turns at which the loop goes on are gone through one by one. *)
Lemma scan_camera_goes_on (cap : camera) now d n :
  forall turn fuel,
    (forall m, (m < n)%nat -> goes_on (cap (turn + m)%nat) = true) ->
    scan_camera (n + fuel) cap turn now d
    = scan_camera fuel cap (turn + n) now d.
Proof.
  induction n as [|n IH]; intros turn fuel Hgo.
  - rewrite Nat.add_0_r. reflexivity.
  - pose proof (Hgo 0%nat ltac:(lia)) as H0. rewrite Nat.add_0_r in H0.
    cbn [Nat.add]. rewrite scan_camera_turn.
    unfold goes_on in H0. destruct (cap turn) as [frame|]; [|discriminate].
    apply andb_prop in H0 as [Hs Hq]. apply negb_true_iff in Hq.
    rewrite (scan_symbols_none _ now d Hs), Hq.
    rewrite (IH (S turn) fuel).
    + f_equal. lia.
    + intros m Hm. specialize (Hgo (S m) ltac:(lia)).
      replace (S turn + m)%nat with (turn + S m)%nat by lia. exact Hgo.
Qed.

(** What the handler makes of the turn at which the loop ends. *)
Definition ending_at (cap : camera) (turn : nat) (now : str) d
  : click validated * database :=
  match cap turn with
  | None => (Returned NoValidQR, d)
  | Some frame =>
      match scan_symbols (shot_symbols frame) now d with
      | (Crashed c, d') => (Crashed c, d')
      | (Returned (Some booking_id), d') =>
          (Returned (Validated booking_id), d')
      | (Returned None, d') => (Returned NoValidQR, d')
      end
  end.

Lemma validate_via_webcam_camera_ends (cap : camera) now d turn fuel :
  well_formed d ->
  (forall m, (m < turn)%nat -> goes_on (cap m) = true) ->
  goes_on (cap turn) = false ->
  (turn < fuel)%nat ->
  validate_via_webcam_camera fuel cap now d
  = Some (ending_at cap turn now d).
Proof.
  intros W Hgo Hstop Hfuel. unfold validate_via_webcam_camera.
  replace fuel with (turn + S (fuel - S turn))%nat by lia.
  rewrite (scan_camera_goes_on cap now d turn 0 _ Hgo). cbn [Nat.add].
  rewrite scan_camera_turn. unfold ending_at.
  unfold goes_on in Hstop. destruct (cap turn) as [frame|]; [|reflexivity].
  destruct (scan_symbols_kinds (shot_symbols frame) now d W)
    as [[F H]|[(junk & more & _ & _ & H)
              |(junk & qr & param & more & _ & _ & _ & H)]];
    rewrite H; try reflexivity.
  rewrite F in Hstop. cbn [andb] in Hstop. apply negb_false_iff in Hstop.
  rewrite Hstop. reflexivity.
Qed.

Lemma validate_via_webcam_camera_running (cap : camera) now d fuel :
  (forall m, (m < fuel)%nat -> goes_on (cap m) = true) ->
  validate_via_webcam_camera fuel cap now d = None.
Proof.
  intros Hgo. unfold validate_via_webcam_camera.
  replace fuel with (fuel + 0)%nat at 1 by lia.
  rewrite (scan_camera_goes_on cap now d fuel 0 0 Hgo). reflexivity.
Qed.

Lemma scan_camera_crash (cap : camera) now d c d' fuel :
  well_formed d ->
  forall turn,
    scan_camera fuel cap turn now d = Some (Crashed c, d') ->
    d' = d /\ c = UnicodeDecodeError /\
    exists turn' frame,
      cap turn' = Some frame /\ None ∈ shot_symbols frame.
Proof.
  intros W. induction fuel as [|fuel IH]; intros turn H; [discriminate|].
  rewrite scan_camera_turn in H.
  destruct (cap turn) as [frame|] eqn:C; [|discriminate].
  destruct (scan_symbols_kinds (shot_symbols frame) now d W)
    as [[F E]|[(junk & more & Hs & _ & E)
              |(junk & qr & param & more & _ & _ & _ & E)]];
    rewrite E in H.
  - destruct (shot_key_q frame); [discriminate|]. exact (IH _ H).
  - injection H as <- <-. split; [reflexivity|]. split; [reflexivity|].
    exists turn, frame. split; [exact C|].
    rewrite Hs. apply elem_of_app. right. left.
  - discriminate.
Qed.

(** On texts that are decoded the handlers on the file and on the camera
    are the handlers on the texts. *)
Lemma validate_from_image_file_decoded picked now d :
  validate_from_image_file (file_of picked) now d
  = click_of (validate_from_image picked now d).
Proof.
  destruct picked as [[|qr_text more]|]; try reflexivity.
  unfold file_of, validate_from_image_file, validate_from_image.
  cbn [map]. destruct (booking_id_of qr_text) as [param|]; [|reflexivity].
  rewrite bind_validation.
  change ((update_status (lit "Validated") param ;;;
           add_log param (lit "Image") now) d)
    with (validation param (lit "Image") now d).
  destruct (validation param (lit "Image") now d) as [[[]|e] d'];
    reflexivity.
Qed.

Lemma scan_symbols_decoded codes now d :
  scan_symbols (map Some codes) now d = click_of (scan_codes codes now d).
Proof.
  induction codes as [|qr_text codes IH]; [reflexivity|].
  simpl.
  destruct (booking_id_of qr_text) as [param|]; [|exact IH].
  rewrite bind_validation.
  change ((update_status (lit "Validated") param ;;;
           add_log param (lit "Webcam") now) d)
    with (validation param (lit "Webcam") now d).
  destruct (validation param (lit "Webcam") now d) as [[[]|e] d'];
    reflexivity.
Qed.

Lemma scan_camera_decoded frames now :
  forall (cap : camera) turn fuel d,
    (forall m, cap (turn + m)%nat = camera_of frames m) ->
    (length frames < fuel)%nat ->
    scan_camera fuel cap turn now d
    = Some (click_of (scan_frames frames now d)).
Proof.
  induction frames as [|f frames IH]; intros cap turn fuel d Hcap Hfuel.
  - destruct fuel as [|fuel]; [simpl in Hfuel; lia|].
    rewrite scan_camera_turn.
    pose proof (Hcap 0%nat) as H0. rewrite Nat.add_0_r in H0.
    rewrite H0. reflexivity.
  - destruct fuel as [|fuel]; [simpl in Hfuel; lia|].
    rewrite scan_camera_turn.
    pose proof (Hcap 0%nat) as H0. rewrite Nat.add_0_r in H0.
    rewrite H0. cbn [camera_of lookup list_lookup option_map shot_of
                       shot_symbols shot_key_q].
    rewrite scan_symbols_decoded.
    simpl scan_frames. unfold bind.
    destruct (scan_codes (frame_codes f) now d) as [[[param|]|e] d'];
      cbn [click_of]; try reflexivity.
    destruct (frame_key_q f); [reflexivity|].
    apply IH.
    + intros m. replace (S turn + m)%nat with (turn + S m)%nat by lia.
      rewrite Hcap. reflexivity.
    + simpl in Hfuel. lia.
Qed.

Lemma validate_via_webcam_camera_decoded frames fuel now d :
  (length frames < fuel)%nat ->
  validate_via_webcam_camera fuel (camera_of frames) now d
  = Some (click_of (validate_via_webcam frames now d)).
Proof.
  intros Hfuel. unfold validate_via_webcam_camera, validate_via_webcam, bind.
  rewrite (scan_camera_decoded frames now (camera_of frames) 0 fuel d
             (fun m => eq_refl) Hfuel).
  destruct (scan_frames frames now d) as [[[param|]|e] d']; reflexivity.
Qed.

Lemma book_ticket_raises entry_name curselection d e d' :
  well_formed d ->
  book_ticket entry_name curselection d = (Raise e, d') <->
  d' = d /\ e = IndexError /\ strip entry_name <> [] /\
  exists i more, curselection = i :: more /\ (length routes_df <= i)%nat.
Proof.
  intros (rows & logs & Hb & _). split.
  - intros H.
    destruct (strip entry_name) as [|ch s'] eqn:E.
    { rewrite book_ticket_warning in H by (left; exact E). discriminate. }
    destruct curselection as [|i more].
    { rewrite book_ticket_warning in H by (right; reflexivity).
      discriminate. }
    assert (Hp : strip entry_name <> []) by (rewrite E; discriminate).
    destruct (routes_df !! i) as [route|] eqn:Hr.
    { rewrite (book_ticket_run _ _ _ _ _ _ _ _ Hp Hr Hb) in H.
      discriminate. }
    unfold book_ticket in H. rewrite E in H.
    cbn [py_not orb lookup list_lookup] in H. rewrite Hr in H.
    injection H as <- <-. split; [reflexivity|]. split; [reflexivity|].
    split; [discriminate|]. exists i, more. split; [reflexivity|].
    apply lookup_ge_None. exact Hr.
  - intros (-> & -> & Hp & i & more & -> & Hi).
    apply lookup_ge_None in Hi. unfold book_ticket.
    destruct (strip entry_name) as [|ch s']; [contradiction|].
    cbn [py_not orb lookup list_lookup]. rewrite Hi. reflexivity.
Qed.

(** X2: how a handler is left by an exception.  On a reachable database
    no statement fails, and the exceptions that are left are raised
    before the first statement of the handler: the image handler raises
    exactly when the file is no image or the first symbol is not UTF-8,
    the webcam handler only on a symbol that is not UTF-8, and
    [book_ticket], up to its INSERT and the text of the ticket (lines
    62-78), exactly when a name is given and the first selected index is
    beyond the catalogue; the database is then as it was.  (The image
    steps of lines 79-90 come behind the INSERT; see
    [click_book_ticket].)  On texts that decode, and on a camera that
    delivers finitely many frames, the handlers on the file and on the
    camera are [validate_from_image] and [validate_via_webcam]. *)
Theorem handlers_raise_before_writing :
  forall d,
    reachable d ->
    (forall file now c d',
       validate_from_image_file file now d = (Crashed c, d') <->
       d' = d /\
       (file = NoImage /\ c = OpenError \/
        (exists more, file = ImageWith (None :: more)) /\
        c = UnicodeDecodeError)) /\
    (forall fuel cap now c d',
       validate_via_webcam_camera fuel cap now d = Some (Crashed c, d') ->
       d' = d /\ c = UnicodeDecodeError /\
       exists turn frame,
         cap turn = Some frame /\ None ∈ shot_symbols frame) /\
    (forall entry_name curselection e d',
       book_ticket entry_name curselection d = (Raise e, d') <->
       d' = d /\ e = IndexError /\ strip entry_name <> [] /\
       exists i more,
         curselection = i :: more /\ (length routes_df <= i)%nat) /\
    (forall picked now,
       validate_from_image_file (file_of picked) now d
       = click_of (validate_from_image picked now d)) /\
    (forall frames fuel now,
       (length frames < fuel)%nat ->
       validate_via_webcam_camera fuel (camera_of frames) now d
       = Some (click_of (validate_via_webcam frames now d))).
Proof.
  intros d R. pose proof (reachable_well_formed _ _ _ d R) as W.
  split; [|split; [|split; [|split]]].
  - intros file now c d'. destruct W as (rows & logs & Hb & Hl & _).
    split.
    + destruct file as [| |[|[qr_text|] more]];
        unfold validate_from_image_file;
        try discriminate.
      * intros [= <- <-]. split; [reflexivity|]. left. auto.
      * destruct (booking_id_of qr_text) as [param|]; [|discriminate].
        change ((update_status (lit "Validated") param ;;;
                 add_log param (lit "Image") now) d)
          with (validation param (lit "Image") now d).
        rewrite (ended_validation _ _ _ _ _ rows logs Hb Hl). discriminate.
      * intros [= <- <-]. split; [reflexivity|]. right. eauto.
    + intros (-> & [[-> ->]|[[more ->] ->]]); reflexivity.
  - intros fuel cap now c d' H. unfold validate_via_webcam_camera in H.
    destruct (scan_camera fuel cap 0 now d) as [[[[param|]|c0] d0]|] eqn:E;
      try discriminate.
    injection H as -> ->.
    exact (scan_camera_crash cap now d c d' fuel W 0%nat E).
  - intros entry_name curselection e d'.
    apply book_ticket_raises, W.
  - intros picked now. apply validate_from_image_file_decoded.
  - intros frames fuel now.
    apply validate_via_webcam_camera_decoded.
Qed.

(** X20: the loop of the webcam handler has no bound of its own.  It ends
    at the first turn at which the camera fails to read, [q] is down, or
    a symbol is not passed over, and not before: with every number of
    turns beyond that one the handler ends in the same way, reporting "No
    valid QR scanned" when the camera fails or [q] is down over symbols
    that are all passed over, raising UnicodeDecodeError at a symbol that
    is not UTF-8, and validating the id of the first text with the
    marker.  On a camera that goes on for ever with frames of texts
    without the marker and [q] never down, the handler does not return. *)
Theorem webcam_loop_ends_at_first_stop :
  forall (cap : camera) now d,
    reachable d ->
    (forall turn,
       (forall m, (m < turn)%nat -> goes_on (cap m) = true) ->
       goes_on (cap turn) = false ->
       exists ending,
         (forall fuel, (turn < fuel)%nat ->
                       validate_via_webcam_camera fuel cap now d = Some ending) /\
         (forall fuel, (fuel <= turn)%nat ->
                       validate_via_webcam_camera fuel cap now d = None) /\
         (cap turn = None -> ending = (Returned NoValidQR, d)) /\
         (forall frame,
            cap turn = Some frame ->
            forallb passed_over (shot_symbols frame) = true ->
            shot_key_q frame = true /\ ending = (Returned NoValidQR, d)) /\
         (forall frame junk more,
            cap turn = Some frame ->
            shot_symbols frame = junk ++ None :: more ->
            forallb passed_over junk = true ->
            ending = (Crashed UnicodeDecodeError, d)) /\
         (forall frame junk qr more param,
            cap turn = Some frame ->
            shot_symbols frame = junk ++ Some qr :: more ->
            forallb passed_over junk = true ->
            booking_id_of qr = Some param ->
            ending = (Returned (Validated param),
                 snd (validation param (lit "Webcam") now d)))) /\
    ((forall turn, goes_on (cap turn) = true) ->
     forall fuel, validate_via_webcam_camera fuel cap now d = None).
Proof.
  intros cap now d R. pose proof (reachable_well_formed _ _ _ d R) as W.
  split.
  - intros turn Hgo Hstop. exists (ending_at cap turn now d).
    split; [|split; [|split; [|split; [|split]]]].
    + intros fuel Hfuel.
      exact (validate_via_webcam_camera_ends cap now d turn fuel W Hgo
               Hstop Hfuel).
    + intros fuel Hfuel. apply validate_via_webcam_camera_running.
      intros m Hm. apply Hgo. lia.
    + intros C. unfold ending_at. rewrite C. reflexivity.
    + intros frame C F. unfold ending_at. rewrite C.
      rewrite (scan_symbols_none _ now d F). split; [|reflexivity].
      unfold goes_on in Hstop. rewrite C, F in Hstop.
      cbn [andb] in Hstop. apply negb_false_iff in Hstop. exact Hstop.
    + intros frame junk more C Hs Hj. unfold ending_at. rewrite C, Hs.
      rewrite (scan_symbols_skip junk _ now d Hj). reflexivity.
    + intros frame junk qr more param C Hs Hj Hq.
      destruct W as (rows & logs & Hb & Hl & _).
      unfold ending_at. rewrite C, Hs.
      rewrite (scan_symbols_skip junk _ now d Hj).
      simpl. rewrite Hq.
      change ((update_status (lit "Validated") param ;;;
               add_log param (lit "Webcam") now) d)
        with (validation param (lit "Webcam") now d).
      rewrite (ended_validation _ _ _ _ _ rows logs Hb Hl). reflexivity.
  - intros Hgo fuel. apply validate_via_webcam_camera_running.
    intros m _. apply Hgo.
Qed.

(** ** Bookings and logs only grow *)

Definition is_booking (a : action) : bool :=
  match a with
  | Book _ _ => true
  | _ => false
  end.

Lemma same_ticket_refl r : same_ticket r r.
Proof. repeat split. Qed.

Lemma same_ticket_mark param r : same_ticket r (mark param r).
Proof.
  unfold mark. destruct (where_id param r); repeat split.
Qed.

Lemma same_ticket_trans r1 r2 r3 :
  same_ticket r1 r2 -> same_ticket r2 r3 -> same_ticket r1 r3.
Proof.
  unfold same_ticket. intros (? & ? & ? & ? & ?) (? & ? & ? & ? & ?).
  repeat split; congruence.
Qed.

Lemma perform_grows a d rows logs :
  well_formed d ->
  bookings d = Some rows -> validation_logs d = Some logs ->
  exists rows' new new_logs,
    bookings (perform a d) = Some (rows' ++ new) /\
    Forall2 same_ticket rows rows' /\
    validation_logs (perform a d) = Some (logs ++ new_logs) /\
    (length new <= if is_booking a then 1 else 0)%nat /\
    (length new_logs <= if is_booking a then 0 else 1)%nat.
Proof.
  intros W Hb Hl.
  destruct (perform_kinds a d W)
    as (rows0 & logs0 & Hb0 & Hl0 &
        [H|[(qr & param & method & now & _ & _ & Hna & H)
           |(e & i & more & route & -> & _ & _ & H)]]);
    rewrite Hb in Hb0; injection Hb0 as <-;
    rewrite Hl in Hl0; injection Hl0 as <-; rewrite H.
  - exists rows, [], []. rewrite !app_nil_r.
    split; [exact Hb|]. split.
    { apply Forall2_same_length_lookup. split; [reflexivity|].
      intros i x y Hx Hy. rewrite Hx in Hy. injection Hy as <-.
      apply same_ticket_refl. }
    split; [exact Hl|]. simpl. split; lia.
  - eexists (map (mark param) rows), [], [_]. rewrite app_nil_r.
    unfold validated_db. cbn [bookings validation_logs].
    split; [reflexivity|]. split.
    { apply Forall2_fmap_r, Forall2_same_length_lookup. split; [reflexivity|].
      intros i x y Hx Hy. rewrite Hx in Hy. injection Hy as <-.
      apply same_ticket_mark. }
    split; [reflexivity|].
    destruct a; [exfalso; eapply Hna; reflexivity| |]; simpl; lia.
  - eexists rows, [_], []. rewrite app_nil_r.
    unfold booked_db. cbn [bookings validation_logs].
    split; [reflexivity|]. split.
    { apply Forall2_same_length_lookup. split; [reflexivity|].
      intros j x y Hx Hy. rewrite Hx in Hy. injection Hy as <-.
      apply same_ticket_refl. }
    split; [exact Hl|]. simpl. split; lia.
Qed.

Lemma run_grows acts d rows logs :
  well_formed d ->
  bookings d = Some rows -> validation_logs d = Some logs ->
  exists rows' new new_logs,
    bookings (run acts d) = Some (rows' ++ new) /\
    Forall2 same_ticket rows rows' /\
    validation_logs (run acts d) = Some (logs ++ new_logs) /\
    (length new <= length (filter is_booking acts))%nat /\
    (length new_logs
     <= length (filter (fun a => negb (is_booking a)) acts))%nat.
Proof.
  revert d rows logs.
  induction acts as [|a acts IH]; intros d rows logs W Hb Hl.
  - exists rows, [], []. rewrite !app_nil_r.
    split; [exact Hb|]. split.
    { apply Forall2_same_length_lookup. split; [reflexivity|].
      intros i x y Hx Hy. rewrite Hx in Hy. injection Hy as <-.
      apply same_ticket_refl. }
    split; [exact Hl|]. simpl. split; lia.
  - destruct (perform_grows a d rows logs W Hb Hl)
      as (rows1 & new1 & logs1 & Hb1 & F1 & Hl1 & Ln1 & Ll1).
    destruct (IH _ _ _ (well_formed_perform _ _ _ a d W) Hb1 Hl1)
      as (rows2 & new2 & logs2 & Hb2 & F2 & Hl2 & Ln2 & Ll2).
    apply Forall2_app_inv_l in F2 as (rows2a & rows2b & Fa & Fb & ->).
    exists rows2a, (rows2b ++ new2), (logs1 ++ logs2).
    change (run (a :: acts) d) with (run acts (perform a d)).
    rewrite Hb2, Hl2, <- !app_assoc.
    split; [reflexivity|]. split.
    { apply Forall2_same_length_lookup.
      pose proof (Forall2_length _ _ _ F1) as L1.
      pose proof (Forall2_length _ _ _ Fa) as La.
      split; [congruence|].
      intros i x z Hx Hz.
      destruct (lookup_lt_is_Some_2 rows1 i) as [y Hy].
      { rewrite <- L1. eapply lookup_lt_Some, Hx. }
      eapply same_ticket_trans.
      - exact (Forall2_lookup_lr _ _ _ _ _ _ F1 Hx Hy).
      - exact (Forall2_lookup_lr _ _ _ _ _ _ Fa Hy Hz). }
    split; [reflexivity|].
    pose proof (Forall2_length _ _ _ Fb) as Lb.
    rewrite !length_app, !filter_cons.
    destruct (is_booking a); simpl in *; lia.
Qed.

(** X3: over any run from a reachable database every booking keeps its
    place in the table and its id, passenger, route, time and fare (only
    the status may differ), and new bookings come behind the old ones,
    at most one per press of the booking button. *)
Theorem bookings_keep_their_fields :
  forall d acts,
    reachable d ->
    exists rows rows' new,
      bookings d = Some rows /\
      bookings (run acts d) = Some (rows' ++ new) /\
      Forall2 same_ticket rows rows' /\
      (length new <= length (filter is_booking acts))%nat.
Proof.
  intros d acts R.
  pose proof (reachable_well_formed _ _ _ d R) as W.
  destruct W as (rows & logs & Hb & Hl & W).
  destruct (run_grows acts d rows logs
              (reachable_well_formed _ _ _ d R) Hb Hl)
    as (rows' & new & new_logs & Hb' & F & _ & Ln & _).
  exists rows, rows', new. auto.
Qed.

(** X4: the log is append-only: over any run from a reachable database
    the old log rows stay as they are, in place, and at most one row is
    added per press of a validation button, none by a booking. *)
Theorem logs_append_only :
  forall d acts,
    reachable d ->
    exists logs new_logs,
      validation_logs d = Some logs /\
      validation_logs (run acts d) = Some (logs ++ new_logs) /\
      (length new_logs
       <= length (filter (fun a => negb (is_booking a)) acts))%nat.
Proof.
  intros d acts R.
  pose proof (reachable_well_formed _ _ _ d R) as W.
  destruct W as (rows & logs & Hb & Hl & W).
  destruct (run_grows acts d rows logs
              (reachable_well_formed _ _ _ d R) Hb Hl)
    as (rows' & new & new_logs & _ & _ & Hl' & _ & Ll).
  exists logs, new_logs. auto.
Qed.

(** ** What the log holds *)

(** The validations of a run that the handlers report as done ("Booking
    ... validated"), each with its method and the time of the call. *)
Definition report (a : action) d : list (str * str) :=
  match a with
  | Book _ _ => []
  | FromImage picked now =>
      match fst (validate_from_image picked now d) with
      | Ok (Validated _) => [(lit "Image", now)]
      | _ => []
      end
  | ViaWebcam frames now =>
      match fst (validate_via_webcam frames now d) with
      | Ok (Validated _) => [(lit "Webcam", now)]
      | _ => []
      end
  end.

Fixpoint reported (acts : list action) d : list (str * str) :=
  match acts with
  | [] => []
  | a :: acts' => report a d ++ reported acts' (perform a d)
  end.

Definition method_and_time (l : log_row) : str * str :=
  (l_method l, l_timestamp l).

Lemma perform_report a d logs :
  well_formed d ->
  validation_logs d = Some logs ->
  exists new_logs,
    validation_logs (perform a d) = Some (logs ++ new_logs) /\
    map method_and_time new_logs = report a d.
Proof.
  intros W Hl. pose proof W as (rows & logs' & Hb & Hl' & _).
  rewrite Hl in Hl'. injection Hl' as <-.
  destruct a as [e c|picked now|frames now]; unfold perform, report.
  - exists []. rewrite app_nil_r. split; [|reflexivity].
    destruct (book_ticket_cases format_cell routes_df e c d)
      as [H|[H|[H|(i & more & route & rows' & Hp & -> & Hr & Hb')]]];
      try (rewrite H; exact Hl).
    rewrite (book_ticket_run _ _ _ _ _ _ _ _ Hp Hr Hb'). exact Hl.
  - destruct (validate_from_image_cases sqlite_int_of_text picked now d)
      as [H|[H|[H|[param H]]]]; rewrite H;
      try (exists []; rewrite app_nil_r; split; [exact Hl|reflexivity]).
    unfold validated_by. rewrite (validation_run _ _ _ _ _ _ _ Hb Hl).
    eexists [_]. split; reflexivity.
  - destruct (validate_via_webcam_cases sqlite_int_of_text frames now d)
      as [H|[param H]]; rewrite H;
      try (exists []; rewrite app_nil_r; split; [exact Hl|reflexivity]).
    unfold validated_by. rewrite (validation_run _ _ _ _ _ _ _ Hb Hl).
    eexists [_]. split; reflexivity.
Qed.

Lemma run_reported acts d logs :
  well_formed d ->
  validation_logs d = Some logs ->
  exists new_logs,
    validation_logs (run acts d) = Some (logs ++ new_logs) /\
    map method_and_time new_logs = reported acts d.
Proof.
  revert d logs. induction acts as [|a acts IH]; intros d logs W Hl.
  - exists []. rewrite app_nil_r. split; [exact Hl|reflexivity].
  - destruct (perform_report a d logs W Hl) as (new1 & Hl1 & E1).
    destruct (IH _ _ (well_formed_perform _ _ _ a d W) Hl1)
      as (new2 & Hl2 & E2).
    exists (new1 ++ new2).
    change (run (a :: acts) d) with (run acts (perform a d)).
    rewrite Hl2, <- app_assoc. split; [reflexivity|].
    rewrite map_app, E1, E2. reflexivity.
Qed.

Lemma log_methods :
  forall d,
    reachable d ->
    exists logs,
      validation_logs d = Some logs /\
      Forall (fun l => l_method l = lit "Image" \/ l_method l = lit "Webcam")
        logs.
Proof.
  apply (reachable_steps (fun d => exists logs,
    validation_logs d = Some logs /\
    Forall (fun l => l_method l = lit "Image" \/ l_method l = lit "Webcam")
      logs)).
  - intros file d H. rewrite database_setup_run in H. injection H as <-.
    exists []. split; [reflexivity|constructor].
  - intros d rows logs qr param method now _ (logs' & Hl' & F) _ Hl Hq Hm.
    rewrite Hl in Hl'. injection Hl' as <-.
    eexists. unfold validated_db. cbn [validation_logs].
    split; [reflexivity|]. apply Forall_app. split; [exact F|].
    constructor; [exact Hm|constructor].
  - intros d rows entry_name route _ (logs & Hl & F) _ _ _.
    exists logs. split; [exact Hl|exact F].
Qed.

(** X5: the log is the journal of the validations reported as done: over
    any run from a reachable database the rows added to the log are, one
    for one and in this order, the validations for which a handler showed
    its success box, each with the method of the handler (Image or
    Webcam) and the time of the call; nothing else writes a log row. *)
Theorem log_rows_are_the_reported_validations :
  forall d acts,
    reachable d ->
    exists logs new_logs,
      validation_logs d = Some logs /\
      validation_logs (run acts d) = Some (logs ++ new_logs) /\
      map method_and_time new_logs = reported acts d /\
      Forall (fun l => l_method l = lit "Image" \/ l_method l = lit "Webcam")
        (logs ++ new_logs).
Proof.
  intros d acts R. pose proof (reachable_well_formed _ _ _ d R) as W.
  pose proof W as (rows & logs & Hb & Hl & _).
  destruct (run_reported acts d logs W Hl) as (new_logs & Hl' & E).
  exists logs, new_logs. split; [exact Hl|]. split; [exact Hl'|].
  split; [exact E|].
  destruct (log_methods (run acts d) (reachable_run _ _ _ acts d R))
    as (logs' & Hl'' & F).
  rewrite Hl' in Hl''. injection Hl'' as <-. exact F.
Qed.

(** X6: a booking is Validated only if the log tells so: in every
    reachable database each booking with the status Validated has a log
    row whose booking id SQLite compares equal to the booking's id. *)
Theorem validated_bookings_are_logged :
  forall d,
    reachable d ->
    exists rows logs,
      bookings d = Some rows /\ validation_logs d = Some logs /\
      forall r,
        r ∈ rows -> b_status r = lit "Validated" ->
        exists l, l ∈ logs /\
                  sqlite_int_of_text (l_booking_id l) = Some (b_id r).
Proof.
  apply (reachable_steps (fun d => exists rows logs,
    bookings d = Some rows /\ validation_logs d = Some logs /\
    forall r,
      r ∈ rows -> b_status r = lit "Validated" ->
      exists l, l ∈ logs /\
                sqlite_int_of_text (l_booking_id l) = Some (b_id r))).
  - intros file d H. rewrite database_setup_run in H. injection H as <-.
    exists [], []. split; [reflexivity|]. split; [reflexivity|].
    intros r Hr. apply elem_of_nil in Hr. contradiction.
  - intros d rows logs qr param method now _
      (rows' & logs' & Hb' & Hl' & IH) Hb Hl _ _.
    rewrite Hb in Hb'. injection Hb' as <-.
    rewrite Hl in Hl'. injection Hl' as <-.
    eexists _, _. unfold validated_db. cbn [bookings validation_logs].
    split; [reflexivity|]. split; [reflexivity|].
    intros r' Hr' Hs. apply list_elem_of_fmap in Hr' as (r & -> & Hr).
    unfold mark in *.
    destruct (where_id param r) eqn:W.
    + eexists. split; [apply elem_of_app; right; left|].
      cbn [l_booking_id set_status b_id].
      unfold where_id in W. apply bool_decide_eq_true in W. exact W.
    + destruct (IH r Hr Hs) as (l & Hin & E).
      exists l. split; [apply elem_of_app; left; exact Hin|exact E].
  - intros d rows entry_name route _ (rows' & logs & Hb' & Hl & IH) Hb _ _.
    rewrite Hb in Hb'. injection Hb' as <-.
    eexists _, logs. unfold booked_db. cbn [bookings validation_logs].
    split; [reflexivity|]. split; [exact Hl|].
    intros r Hr Hs. apply elem_of_app in Hr as [Hr|Hr].
    + exact (IH r Hr Hs).
    + apply list_elem_of_singleton in Hr. subst r.
      cbn [booked_row b_status] in Hs. vm_compute in Hs. discriminate.
Qed.

(** ** Texts that are no ticket of a booking *)

Lemma no_match_no_mark param d rows :
  bookings d = Some rows ->
  (forall id, sqlite_int_of_text param = Some id -> status_of id d = None) ->
  map (mark param) rows = rows.
Proof.
  intros Hb Hno. rewrite <- (map_id rows) at 2. apply map_ext_in.
  intros r Hr. unfold mark, where_id.
  destruct (sqlite_int_of_text param) as [id|] eqn:E.
  - specialize (Hno id eq_refl). unfold status_of in Hno. rewrite Hb in Hno.
    destruct (List.find _ rows) as [r'|] eqn:F; [discriminate|].
    pose proof (find_none _ _ F r Hr) as N. simpl in N.
    apply Z.eqb_neq in N.
    rewrite bool_decide_eq_false_2; [reflexivity|congruence].
  - rewrite bool_decide_eq_false_2; [reflexivity|discriminate].
Qed.

(** X7: a text with the marker is logged whether or not it names a
    booking: when its id is the id of no booking, the handler still
    reports the validation and appends one log row, with its method and
    the time of the call; the row refers to no booking, and the bookings
    table stays as it was. *)
Theorem unknown_id_is_logged :
  forall d qr param a method now,
    reachable d ->
    booking_id_of qr = Some param ->
    presents qr a method now ->
    (forall id, sqlite_int_of_text param = Some id ->
                status_of id d = None) ->
    bookings (perform a d) = bookings d /\
    (exists logs l,
       validation_logs d = Some logs /\
       validation_logs (perform a d) = Some (logs ++ [l]) /\
       l_method l = method /\ l_timestamp l = now /\
       (forall id, sqlite_int_of_text (l_booking_id l) = Some id ->
                   status_of id (perform a d) = None)) /\
    (forall more now',
       fst (validate_from_image (Some (qr :: more)) now' d)
       = Ok (Validated param)).
Proof.
  intros d qr param a method now R Hq P Hno.
  destruct (reachable_well_formed _ _ _ d R) as (rows & logs & Hb & Hl & _).
  rewrite (perform_presents _ _ _ _ _ _ _ _ _ P Hq).
  rewrite (validation_run _ _ _ _ _ _ _ Hb Hl).
  cbn [snd bookings validation_logs].
  rewrite (no_match_no_mark _ _ _ Hb Hno).
  split; [symmetry; exact Hb|]. split.
  - eexists logs, _. split; [exact Hl|]. split; [reflexivity|].
    cbn [l_method l_timestamp l_booking_id].
    split; [reflexivity|]. split; [reflexivity|].
    intros id Hid. specialize (Hno id Hid).
    unfold status_of in *. cbn [bookings]. rewrite Hb in Hno. exact Hno.
  - intros more now'.
    rewrite (validate_from_image_run _ _ _ _ _ _ Hq). unfold validated_by.
    rewrite (validation_run _ _ _ _ _ _ _ Hb Hl). reflexivity.
Qed.

(** ** The webcam loop *)

Lemma scan_frames_stop frames f later now d :
  frame_key_q f = true \/
  Exists (fun t => booking_id_of t <> None) (frame_codes f) ->
  scan_frames (frames ++ f :: later) now d
  = scan_frames (frames ++ [f]) now d.
Proof.
  intros Hf. induction frames as [|f0 frames IH].
  - simpl. unfold bind.
    destruct (scan_codes_found (frame_codes f) now d)
      as [[H F]|(qr & param & _ & _ & H)]; rewrite H.
    + destruct Hf as [->|Hex]; [reflexivity|].
      exfalso. apply Exists_exists in Hex as (t & Ht & Hn).
      rewrite Forall_forall in F. exact (Hn (F t Ht)).
    + unfold validated_by.
      destruct (validation param (lit "Webcam") now d) as [[[]|e] d'];
        reflexivity.
  - simpl. unfold bind.
    destruct (scan_codes_found (frame_codes f0) now d)
      as [[H F]|(qr & param & _ & _ & H)]; rewrite H.
    + destruct (frame_key_q f0); [reflexivity|exact IH].
    + unfold validated_by.
      destruct (validation param (lit "Webcam") now d) as [[[]|e] d'];
        reflexivity.
Qed.

Lemma scan_frames_nothing frames now d :
  Forall (fun f => Forall (fun t => booking_id_of t = None) (frame_codes f))
    frames ->
  scan_frames frames now d = (Ok None, d).
Proof.
  induction 1 as [|f frames Hf _ IH]; [reflexivity|].
  simpl. unfold bind.
  rewrite <- (app_nil_r (frame_codes f)), (scan_codes_skip _ _ [] now d Hf).
  simpl. unfold ret. destruct (frame_key_q f); [reflexivity|exact IH].
Qed.

(** X8: the webcam handler stops at the first frame that shows a text
    with the marker or at which [q] is down, whatever the camera would
    deliver afterwards; and when no frame up to the end or up to [q]
    shows such a text, it reports "No valid QR scanned" and leaves the
    database as it is. *)
Theorem webcam_stops_at_ticket_or_q :
  (forall frames f later now d,
     frame_key_q f = true \/
     Exists (fun t => booking_id_of t <> None) (frame_codes f) ->
     validate_via_webcam (frames ++ f :: later) now d
     = validate_via_webcam (frames ++ [f]) now d) /\
  (forall frames now d,
     Forall (fun f => Forall (fun t => booking_id_of t = None)
                             (frame_codes f)) frames ->
     validate_via_webcam frames now d = (Ok NoValidQR, d)).
Proof.
  split.
  - intros frames f later now d Hf. unfold validate_via_webcam, bind.
    rewrite (scan_frames_stop frames f later now d Hf). reflexivity.
  - intros frames now d F. unfold validate_via_webcam, bind.
    rewrite (scan_frames_nothing frames now d F). reflexivity.
Qed.

(** X9: the two handlers differ on an image or frame with several
    symbols: when symbols without the marker come before a ticket, the
    image handler looks at the first symbol only and refuses with
    "Invalid QR code", leaving the database as it is, while the webcam
    handler passes them over and validates the ticket. *)
Theorem image_reads_first_symbol_only :
  forall t junk qr more param key now d,
    booking_id_of t = None ->
    Forall (fun t => booking_id_of t = None) junk ->
    booking_id_of qr = Some param ->
    validate_from_image (Some (t :: junk ++ qr :: more)) now d
    = (Ok InvalidQRCode, d) /\
    validate_via_webcam
      [ {| frame_codes := t :: junk ++ qr :: more; frame_key_q := key |} ]
      now d
    = validated_by (Validated param) param (lit "Webcam") now d.
Proof.
  intros t junk qr more param key now d Ht Hj Hq. split.
  - unfold validate_from_image. rewrite Ht. reflexivity.
  - apply validate_via_webcam_found, scan_frames_found.
    cbn [frame_codes].
    change (t :: junk ++ qr :: more) with ((t :: junk) ++ qr :: more).
    rewrite scan_codes_skip by (constructor; assumption).
    apply scan_codes_run, Hq.
Qed.

(** ** Tickets *)

Lemma str_of_int_inj (n m : Z) : str_of_int n = str_of_int m -> n = m.
Proof.
  intros E. apply (f_equal decimal_int_of_text) in E.
  rewrite !decimal_int_of_str_of_int in E. congruence.
Qed.

(** X10: no two bookings of a reachable database have the same ticket
    text: rows at different places of the table encode differently. *)
Theorem tickets_are_distinct :
  forall d rows i j r1 r2,
    reachable d ->
    bookings d = Some rows ->
    rows !! i = Some r1 ->
    rows !! j = Some r2 ->
    i <> j ->
    encode format_cell r1 <> encode format_cell r2.
Proof.
  intros d rows i j r1 r2 R Hb H1 H2 Hij E. apply Hij.
  destruct (reachable_well_formed _ _ _ d R) as (rows' & _ & Hb' & _ & _ & N).
  rewrite Hb in Hb'. injection Hb' as <-.
  assert (Hid : b_id r1 = b_id r2).
  { apply str_of_int_inj.
    pose proof (booking_id_of_qr_data format_cell (b_id r1)
                  (b_passenger r1) (b_route r1) (b_time r1) (b_fare r1)) as D1.
    pose proof (booking_id_of_qr_data format_cell (b_id r2)
                  (b_passenger r2) (b_route r2) (b_time r2) (b_fare r2)) as D2.
    fold (encode format_cell r1) in D1. fold (encode format_cell r2) in D2.
    rewrite E in D1. rewrite D1 in D2. congruence. }
  eapply NoDup_lookup; [exact N| |].
  - rewrite list_lookup_fmap, H1. reflexivity.
  - rewrite list_lookup_fmap, H2, Hid. reflexivity.
Qed.


(** ** A text need not be a ticket the program made *)

Hypothesis sqlite_int_of_decimal :
  forall n : Z, sqlite_int_of_text (str_of_int n) = Some n.

(** X12: only the id of a ticket is looked at: any text that is the
    marker, the numeral of a booking's id and then nothing or a [|] with
    anything behind it validates that booking, whatever passenger,
    route, time or fare it names.  It rests on [sqlite_int_of_decimal]. *)
Theorem any_text_with_the_id_validates :
  forall d booking_id tail a method now,
    reachable d ->
    is_Some (status_of booking_id d) ->
    tail = [] \/ (exists rest, tail = bar :: rest) ->
    presents (BookingID ++ str_of_int booking_id ++ tail) a method now ->
    status_of booking_id (perform a d) = Some (lit "Validated").
Proof.
  intros d booking_id tail a method now R S Ht P.
  assert (E : booking_id_of (BookingID ++ str_of_int booking_id ++ tail)
              = Some (str_of_int booking_id)).
  { apply booking_id_of_starting_with_marker; auto with ticket. }
  rewrite (perform_presents _ _ _ _ _ _ _ _ _ P E).
  exact (proj1 (validation_of_ticket sqlite_int_of_text
                  sqlite_int_of_decimal booking_id method now d
                  (reachable_well_formed _ _ _ d R) S)).
Qed.

End Runs.

(** * The queries behind the two tables and the export *)

Section Queries.

Context {A : Type} (key : A -> Z).

#[local] Instance desc_total : Total (desc key).
Proof. intros a b. unfold desc. lia. Qed.

#[local] Instance desc_trans : Transitive (desc key).
Proof. intros a b c. unfold desc. lia. Qed.

#[local] Instance asc_total : Total (asc key).
Proof. intros a b. unfold asc. lia. Qed.

#[local] Instance asc_trans : Transitive (asc key).
Proof. intros a b c. unfold asc. lia. Qed.

Lemma foldl_snoc (acc rows : list A) :
  foldl (fun table row => table ++ [row]) acc rows = acc ++ rows.
Proof.
  revert acc. induction rows as [|r rows IH]; intros acc; simpl.
  - rewrite app_nil_r. reflexivity.
  - rewrite IH, <- app_assoc. reflexivity.
Qed.

Lemma seqZ_rising (m : Z) (n : nat) :
  StronglySorted Z.lt (seqZ m (Z.of_nat n)).
Proof.
  revert m. induction n as [|n IH]; intros m; [constructor|].
  rewrite seqZ_cons by lia.
  replace (Z.pred (Z.of_nat (S n))) with (Z.of_nat n) by lia.
  constructor; [apply IH|].
  apply Forall_forall. intros k Hk. apply elem_of_seqZ in Hk. lia.
Qed.

(** Rows numbered 1, 2, ..., n in this order are in rowid order, with
    different keys. *)
Lemma numbered_rising (rows : list A) :
  map key rows = seqZ 1 (Z.of_nat (length rows)) ->
  StronglySorted (fun a b => key a < key b) rows.
Proof.
  intros E. pose proof (seqZ_rising 1 (length rows)) as S.
  rewrite <- E in S. clear E.
  induction rows as [|r rows IH]; [constructor|].
  simpl in S. apply StronglySorted_inv in S as [S F].
  constructor; [exact (IH S)|].
  rewrite Forall_fmap in F. exact F.
Qed.

Lemma rising_asc (rows : list A) :
  StronglySorted (fun a b => key a < key b) rows ->
  StronglySorted (asc key) rows.
Proof.
  induction 1 as [|r rows _ IH F]; constructor; [exact IH|].
  eapply Forall_impl; [exact F|]. intros b Hb. unfold asc.
  cbv beta in Hb. lia.
Qed.

Lemma rising_same (rows : list A) (a b : A) :
  StronglySorted (fun a b => key a < key b) rows ->
  a ∈ rows -> b ∈ rows -> key a = key b -> a = b.
Proof.
  induction 1 as [|r rows _ IH F]; intros Ha Hb E.
  - apply elem_of_nil in Ha. contradiction.
  - rewrite Forall_forall in F.
    apply elem_of_cons in Ha as [->|Ha]; apply elem_of_cons in Hb as [->|Hb].
    + reflexivity.
    + specialize (F b Hb). lia.
    + specialize (F a Ha). lia.
    + exact (IH Ha Hb E).
Qed.

(** On such rows [ORDER BY key DESC] is the reversal and the rowid
    order is the order of the list. *)
Lemma order_by_desc_rising (rows : list A) :
  StronglySorted (fun a b => key a < key b) rows ->
  order_by_desc key rows = reverse rows.
Proof.
  intros S. unfold order_by_desc.
  apply (StronglySorted_unique_strong (desc key)).
  - intros a b Ha Hb Hab Hba.
    rewrite elem_of_reverse in Hb.
    rewrite merge_sort_Permutation in Ha.
    apply (rising_same rows a b S Ha Hb). unfold desc in *. lia.
  - apply StronglySorted_merge_sort; apply _.
  - apply Sorted_StronglySorted; [apply _|].
    change (desc key) with (flip (asc key)).
    apply Sorted_reverse, StronglySorted_Sorted, rising_asc, S.
  - rewrite merge_sort_Permutation, reverse_Permutation. reflexivity.
Qed.

Lemma rowid_order_rising (rows : list A) :
  StronglySorted (fun a b => key a < key b) rows ->
  rowid_order key rows = rows.
Proof.
  intros S. unfold rowid_order.
  apply (StronglySorted_unique_strong (asc key)).
  - intros a b Ha Hb Hab Hba.
    rewrite merge_sort_Permutation in Ha.
    apply (rising_same rows a b S Ha Hb). unfold asc in *. lia.
  - apply StronglySorted_merge_sort; apply _.
  - apply rising_asc, S.
  - apply merge_sort_Permutation.
Qed.

(** The keys of the first rows of the reversal count down from [n]. *)
Lemma recent_keys (rows : list A) (i : nat) (r : A) :
  map key rows = seqZ 1 (Z.of_nat (length rows)) ->
  take 20 (reverse rows) !! i = Some r ->
  key r = Z.of_nat (length rows) - Z.of_nat i.
Proof.
  intros E H. rewrite lookup_take_Some in H. destruct H as [H _].
  rewrite reverse_lookup_Some in H. destruct H as [H Hi].
  assert (K : map key rows !! (length rows - S i)%nat = Some (key r)).
  { rewrite list_lookup_fmap, H. reflexivity. }
  rewrite E in K. apply lookup_seqZ in K. lia.
Qed.

End Queries.

(** * The window: what the buttons leave on screen *)

Section Clicks.

Context {cell : Type}.
Variable format_cell : cell -> str.
Variable sqlite_int_of_text : str -> option Z.
Variable routes_df : list (route cell).

Local Abbreviation database := (database cell).
Local Abbreviation booking_row := (booking_row cell).
Local Abbreviation window := (window cell).
Local Abbreviation book_ticket := (book_ticket format_cell routes_df).
Local Abbreviation validation := (validation sqlite_int_of_text).
Local Abbreviation validated_by := (validated_by sqlite_int_of_text).
Local Abbreviation validate_from_image :=
  (validate_from_image sqlite_int_of_text).
Local Abbreviation validate_via_webcam :=
  (validate_via_webcam sqlite_int_of_text).
Local Abbreviation perform := (perform format_cell sqlite_int_of_text routes_df).
Local Abbreviation reachable :=
  (reachable format_cell sqlite_int_of_text routes_df).
Local Abbreviation click_book_ticket :=
  (click_book_ticket format_cell routes_df).
Local Abbreviation click_validate_from_image :=
  (click_validate_from_image sqlite_int_of_text).
Local Abbreviation click_validate_via_webcam :=
  (click_validate_via_webcam sqlite_int_of_text).
Local Abbreviation pressed :=
  (pressed format_cell sqlite_int_of_text routes_df).

Implicit Types (d : database) (w : window) (rows : list booking_row)
  (logs : list log_row).

(** The table on screen is what its query gives on the database. *)
Definition bookings_in_sync w : Prop :=
  select_recent_bookings (conn w) = Ok (bookings_table w).

Definition logs_in_sync w : Prop :=
  select_recent_logs (conn w) = Ok (logs_table w).

Lemma set_conn_same w : set_conn (conn w) w = w.
Proof. destruct w. reflexivity. Qed.

Lemma load_bookings_run w rows :
  bookings (conn w) = Some rows ->
  load_bookings w
  = (Ok tt, {| conn := conn w;
               bookings_table := take 20 (order_by_desc b_id rows);
               logs_table := logs_table w |}).
Proof.
  intros Hb. unfold load_bookings, select_recent_bookings. rewrite Hb.
  rewrite foldl_snoc. reflexivity.
Qed.

Lemma load_logs_run w logs :
  validation_logs (conn w) = Some logs ->
  load_logs w
  = (Ok tt, {| conn := conn w;
               bookings_table := bookings_table w;
               logs_table := take 20 (order_by_desc l_log_id logs) |}).
Proof.
  intros Hl. unfold load_logs, select_recent_logs. rewrite Hl.
  rewrite foldl_snoc. reflexivity.
Qed.

Lemma refresh_after_validation_run x w :
  well_formed (conn w) ->
  exists w',
    refresh_after_validation x w = (Returned x, w') /\
    conn w' = conn w /\ bookings_in_sync w' /\ logs_in_sync w'.
Proof.
  intros (rows & logs & Hb & Hl & _). unfold refresh_after_validation.
  rewrite (load_logs_run w logs Hl).
  rewrite (load_bookings_run _ rows) by exact Hb.
  eexists. split; [reflexivity|]. cbn [conn]. split; [reflexivity|].
  unfold bookings_in_sync, logs_in_sync, select_recent_bookings,
    select_recent_logs. cbn [conn bookings_table logs_table].
  rewrite Hb, Hl. split; reflexivity.
Qed.

(** A press of a validation button: nothing happens to the database and
    the window, or the validation is run and both tables are loaded. *)
Lemma click_validated w
    (handler : database -> result validated * database)
    (clicked : click validated * window) :
  well_formed (conn w) ->
  clicked
  = match handler (conn w) with
    | (Raise e, d) => (Crashed (Raised e), set_conn d w)
    | (Ok (Validated booking_id), d) =>
        refresh_after_validation (Validated booking_id) (set_conn d w)
    | (Ok x, d) => (Returned x, set_conn d w)
    end ->
  (exists y, handler (conn w) = (Ok y, conn w) /\
             (forall b, y <> Validated b)) \/
  (exists param method now,
     handler (conn w)
     = validated_by (Validated param) param method now (conn w)) ->
  (exists y, clicked = (Returned y, w) /\ snd (handler (conn w)) = conn w /\
             (forall b, y <> Validated b)) \/
  (exists param w',
     clicked = (Returned (Validated param), w') /\
     fst (handler (conn w)) = Ok (Validated param) /\
     conn w' = snd (handler (conn w)) /\
     bookings_in_sync w' /\ logs_in_sync w').
Proof.
  intros W -> [(y & H & Hy)|(param & method & now & H)].
  - left. exists y. rewrite H. cbn [snd]. rewrite set_conn_same.
    split; [|split; [reflexivity|exact Hy]].
    destruct y; try reflexivity. exfalso. exact (Hy _ eq_refl).
  - right. rewrite H. unfold validated_by.
    destruct W as (rows & logs & Hb & Hl & W).
    pose proof (well_formed_validation sqlite_int_of_text param method now
                  (conn w) (ex_intro _ rows (ex_intro _ logs
                     (conj Hb (conj Hl W))))) as W'.
    rewrite (validation_run _ _ _ _ _ _ _ Hb Hl) in *. cbn [snd] in W'.
    cbn [fst snd].
    destruct (refresh_after_validation_run (Validated param)
                (set_conn _ w) W') as (w' & E & Hc & Sb & Sl).
    exists param, w'. rewrite E. cbn [conn set_conn] in Hc.
    repeat split; assumption.
Qed.

Lemma click_validate_from_image_kinds picked now w :
  well_formed (conn w) ->
  (exists y, click_validate_from_image picked now w = (Returned y, w) /\
             snd (validate_from_image picked now (conn w)) = conn w /\
             (forall b, y <> Validated b)) \/
  (exists param w',
     click_validate_from_image picked now w
     = (Returned (Validated param), w') /\
     fst (validate_from_image picked now (conn w)) = Ok (Validated param) /\
     conn w' = snd (validate_from_image picked now (conn w)) /\
     bookings_in_sync w' /\ logs_in_sync w').
Proof.
  intros W.
  apply (click_validated w (validate_from_image picked now)); auto.
  destruct (validate_from_image_cases sqlite_int_of_text picked now (conn w))
    as [H|[H|[H|[param H]]]].
  - left. exists NoFile. split; [exact H|discriminate].
  - left. exists NoQRCode. split; [exact H|discriminate].
  - left. exists InvalidQRCode. split; [exact H|discriminate].
  - right. exists param, (lit "Image"), now. exact H.
Qed.

Lemma click_validate_via_webcam_kinds frames now w :
  well_formed (conn w) ->
  (exists y, click_validate_via_webcam frames now w = (Returned y, w) /\
             snd (validate_via_webcam frames now (conn w)) = conn w /\
             (forall b, y <> Validated b)) \/
  (exists param w',
     click_validate_via_webcam frames now w
     = (Returned (Validated param), w') /\
     fst (validate_via_webcam frames now (conn w)) = Ok (Validated param) /\
     conn w' = snd (validate_via_webcam frames now (conn w)) /\
     bookings_in_sync w' /\ logs_in_sync w').
Proof.
  intros W.
  apply (click_validated w (validate_via_webcam frames now)); auto.
  destruct (validate_via_webcam_cases sqlite_int_of_text frames now (conn w))
    as [H|[param H]].
  - left. exists NoValidQR. split; [exact H|discriminate].
  - right. exists param, (lit "Webcam"), now. exact H.
Qed.

(** A press of the booking button. *)
Lemma click_book_ticket_kinds entry_name curselection image_ok w :
  well_formed (conn w) ->
  (exists c, click_book_ticket entry_name curselection image_ok w = (c, w) /\
             snd (book_ticket entry_name curselection (conn w)) = conn w /\
             (c = Returned BookWarning \/ c = Crashed (Raised IndexError))) \/
  (exists booking_id qr d',
     book_ticket entry_name curselection (conn w)
     = (Ok (BookSuccess booking_id qr), d') /\
     validation_logs d' = validation_logs (conn w) /\
     ((image_ok = true /\
       exists w',
         click_book_ticket entry_name curselection image_ok w
         = (Returned (BookSuccess booking_id qr), w') /\
         conn w' = d' /\ logs_table w' = logs_table w /\
         bookings_in_sync w') \/
      (image_ok = false /\
       click_book_ticket entry_name curselection image_ok w
       = (Crashed ImageError, set_conn d' w)))).
Proof.
  intros (rows & logs & Hb & Hl & _). unfold click_book_ticket.
  destruct (book_ticket_cases format_cell routes_df entry_name curselection
              (conn w))
    as [H|[H|[H|(i & more & route & rows' & Hp & -> & Hr & Hb')]]].
  - left. rewrite H. rewrite set_conn_same. eauto.
  - left. rewrite H. rewrite set_conn_same. eauto.
  - exfalso. unfold book_ticket in H.
    destruct (strip entry_name) as [|c p]; [discriminate|].
    destruct curselection as [|i more]; [discriminate|].
    cbn [py_not orb lookup list_lookup] in H.
    destruct (routes_df !! i); [|discriminate].
    unfold bind, insert_booking in H. rewrite Hb in H. discriminate.
  - right. rewrite (book_ticket_run _ _ _ _ _ _ _ _ Hp Hr Hb').
    eexists _, _, _. split; [reflexivity|].
    cbn [validation_logs]. split; [reflexivity|].
    destruct image_ok; [left|right; split; reflexivity].
    split; [reflexivity|].
    rewrite (load_bookings_run _ (rows' ++ [_])) by reflexivity.
    eexists. split; [reflexivity|]. cbn [conn logs_table set_conn].
    split; [reflexivity|]. split; [reflexivity|].
    unfold bookings_in_sync, select_recent_bookings.
    cbn [conn bookings bookings_table]. reflexivity.
Qed.

(** What a press keeps: the database stays reachable, the log table
    stays in step with it, and so does the bookings table unless the
    image of a booking fails. *)
Lemma pressed_keeps a w :
  reachable (conn w) ->
  logs_in_sync w ->
  reachable (conn (pressed a w)) /\
  logs_in_sync (pressed a w) /\
  ((forall entry_name curselection,
      a <> PressBook entry_name curselection false) ->
   bookings_in_sync w -> bookings_in_sync (pressed a w)).
Proof.
  intros R Sl. pose proof (reachable_well_formed _ _ _ _ R) as W.
  destruct a as [e c ok|picked now|frames now|]; unfold pressed.
  - pose proof (reachable_perform _ _ _ _ (Book e c) R) as R'.
    destruct (click_book_ticket_kinds e c ok w W)
      as [(x & H & Hd & _)
         |(booking_id & qr & d' & H & Hl & [(-> & w' & E & Hc & Ht & Sb)
                                            |(-> & E)])].
    + rewrite H. cbn [snd]. tauto.
    + rewrite E. cbn [snd]. simpl in R'. rewrite H in R'. cbn [snd] in R'.
      rewrite Hc. split; [exact R'|]. split; [|intros _ _; exact Sb].
      unfold logs_in_sync, select_recent_logs in *.
      rewrite Hc, Hl, Ht. exact Sl.
    + rewrite E. cbn [snd conn set_conn]. simpl in R'. rewrite H in R'.
      split; [exact R'|]. split.
      * unfold logs_in_sync, select_recent_logs in *.
        cbn [conn set_conn logs_table]. rewrite Hl. exact Sl.
      * intros Hn. exfalso. exact (Hn e c eq_refl).
  - pose proof (reachable_perform _ _ _ _ (FromImage picked now) R) as R'.
    simpl in R'.
    destruct (click_validate_from_image_kinds picked now w W)
      as [(y & H & Hd & _)|(param & w' & H & _ & Hc & Sb & Sl')];
      rewrite H; cbn [snd].
    + tauto.
    + rewrite Hc. tauto.
  - pose proof (reachable_perform _ _ _ _ (ViaWebcam frames now) R) as R'.
    simpl in R'.
    destruct (click_validate_via_webcam_kinds frames now w W)
      as [(y & H & Hd & _)|(param & w' & H & _ & Hc & Sb & Sl')];
      rewrite H; cbn [snd].
    + tauto.
    + rewrite Hc. tauto.
  - unfold export_bookings. destruct (select_all_bookings (conn w));
      cbn [snd]; tauto.
Qed.

(** ** The queries on a reachable database *)

Lemma queries_on_reachable d :
  reachable d ->
  exists rows logs,
    bookings d = Some rows /\ validation_logs d = Some logs /\
    map b_id rows = seqZ 1 (Z.of_nat (length rows)) /\
    map l_log_id logs = seqZ 1 (Z.of_nat (length logs)) /\
    select_recent_bookings d = Ok (take 20 (reverse rows)) /\
    select_recent_logs d = Ok (take 20 (reverse logs)) /\
    select_all_bookings d = Ok rows.
Proof.
  intros R.
  destruct (reachable_counted _ _ _ d R)
    as (rows & logs & Hb & Hl & Hi & Hli & _).
  exists rows, logs.
  unfold select_recent_bookings, select_recent_logs, select_all_bookings.
  rewrite Hb, Hl.
  rewrite (order_by_desc_rising b_id rows (numbered_rising b_id rows Hi)).
  rewrite (order_by_desc_rising l_log_id logs
             (numbered_rising l_log_id logs Hli)).
  rewrite (rowid_order_rising b_id rows (numbered_rising b_id rows Hi)).
  repeat split; assumption.
Qed.

(** X13: on a reachable database with n bookings and m logs, the query
    of the bookings table gives the last 20 bookings (all when n is
    below 20), newest first, with the ids n, n-1, ... in this order, and
    the query of the log table gives the last 20 logs in the same way. *)
Theorem tables_show_the_newest_twenty :
  forall d,
    reachable d ->
    exists rows logs shown shown_logs,
      bookings d = Some rows /\ validation_logs d = Some logs /\
      select_recent_bookings d = Ok shown /\
      select_recent_logs d = Ok shown_logs /\
      shown = take 20 (reverse rows) /\
      shown_logs = take 20 (reverse logs) /\
      length shown = Nat.min 20 (length rows) /\
      length shown_logs = Nat.min 20 (length logs) /\
      (forall i r, shown !! i = Some r ->
                   b_id r = Z.of_nat (length rows) - Z.of_nat i) /\
      (forall i l, shown_logs !! i = Some l ->
                   l_log_id l = Z.of_nat (length logs) - Z.of_nat i).
Proof.
  intros d R.
  destruct (queries_on_reachable d R)
    as (rows & logs & Hb & Hl & Hi & Hli & Qb & Ql & _).
  exists rows, logs, (take 20 (reverse rows)), (take 20 (reverse logs)).
  rewrite !length_take, !length_reverse.
  repeat split; try assumption.
  - intros i r H. exact (recent_keys b_id rows i r Hi H).
  - intros i l H. exact (recent_keys l_log_id logs i l Hli H).
Qed.

(** ** After a press *)

Lemma head_recent {A : Type} (rows : list A) (r : A) :
  head (take 20 (reverse (rows ++ [r]))) = Some r.
Proof. rewrite reverse_snoc. reflexivity. Qed.

(** X14: what was just done stands first on screen: after a booking
    whose image is made the first row of the bookings table is the new
    booking, with the id handed out, the stripped name and the status
    Booked; after a validation from an image the first row of the log
    table is its log row, with the method Image and the time of the
    call. *)
Theorem newest_row_comes_first :
  forall w,
    reachable (conn w) ->
    (forall entry_name curselection booking_id qr w',
       click_book_ticket entry_name curselection true w
       = (Returned (BookSuccess booking_id qr), w') ->
       exists r,
         head (bookings_table w') = Some r /\
         b_id r = booking_id /\ b_passenger r = strip entry_name /\
         b_status r = lit "Booked") /\
    (forall picked now param w',
       click_validate_from_image picked now w
       = (Returned (Validated param), w') ->
       exists l,
         head (logs_table w') = Some l /\
         l_method l = lit "Image" /\ l_timestamp l = now).
Proof.
  intros w R. pose proof (reachable_well_formed _ _ _ _ R) as W. split.
  - intros e c booking_id qr w' H.
    pose proof (reachable_perform _ _ _ _ (Book e c) R) as R'. simpl in R'.
    destruct (click_book_ticket_kinds e c true w W)
      as [(x & H' & _ & [-> | ->])
         |(id' & qr' & d' & Hbk & _ & [(_ & w'' & E & Hc & _ & Sb)
                                       |(F & _)])];
      try (rewrite H' in H; discriminate); [|discriminate].
    rewrite E in H. injection H as <- <- <-.
    rewrite Hbk in R'. cbn [snd] in R'.
    apply book_ticket_success_inv in Hbk
      as (i & more & route & rows & Hp & _ & Hr & Hb & Hid & -> & ->).
    destruct (queries_on_reachable _ R')
      as (rows' & _ & Hb' & _ & _ & _ & Q & _).
    cbn [bookings] in Hb'. injection Hb' as <-.
    unfold bookings_in_sync in Sb. rewrite Hc, Q in Sb.
    injection Sb as <-. rewrite head_recent.
    eexists. split; [reflexivity|]. repeat split.
  - intros picked now param w' H.
    pose proof (reachable_perform _ _ _ _ (FromImage picked now) R) as R'.
    simpl in R'.
    destruct (click_validate_from_image_kinds picked now w W)
      as [(y & H' & _ & Hy)|(param' & w'' & E & Hf & Hc & _ & Sl)].
    { rewrite H' in H. injection H as -> _. exfalso. exact (Hy _ eq_refl). }
    rewrite E in H. injection H as <- <-.
    destruct W as (rows & logs & Hb & Hl & _).
    destruct picked as [[|qr more]|]; try discriminate.
    destruct (booking_id_of qr) as [param''|] eqn:Eq;
      [|unfold validate_from_image in Hf; rewrite Eq in Hf; discriminate].
    rewrite (validate_from_image_run _ _ _ _ _ _ Eq) in Hf, Hc, R'.
    unfold validated_by in Hf, Hc, R'.
    rewrite (validation_run _ _ _ _ _ _ _ Hb Hl) in Hf, Hc, R'.
    cbn [fst snd] in Hf, Hc, R'. injection Hf as ->.
    destruct (queries_on_reachable _ R')
      as (_ & logs' & _ & Hl' & _ & _ & _ & Q & _).
    cbn [validation_logs] in Hl'. injection Hl' as <-.
    unfold logs_in_sync in Sl. rewrite Hc, Q in Sl.
    injection Sl as <-. rewrite head_recent.
    eexists. split; [reflexivity|]. repeat split.
Qed.

(** X15: when the image of a booking cannot be made, the booking is in
    the database all the same, with the status Booked: the handler is
    left after the commit, the tables on screen are not loaded again,
    and a bookings table that showed the database no longer does. *)
Theorem booking_outlives_image_failure :
  forall w entry_name i more route,
    reachable (conn w) ->
    strip entry_name <> [] ->
    routes_df !! i = Some route ->
    exists rows booking_id w',
      bookings (conn w) = Some rows /\
      click_book_ticket entry_name (i :: more) false w
      = (Crashed ImageError, w') /\
      bookings (conn w')
      = Some (rows ++ [booked_row format_cell booking_id
                         (strip entry_name) route]) /\
      bookings_table w' = bookings_table w /\
      logs_table w' = logs_table w /\
      (bookings_in_sync w -> ~ bookings_in_sync w').
Proof.
  intros w e i more route R Hp Hr.
  destruct (queries_on_reachable _ R)
    as (rows & logs & Hb & Hl & Hi & _ & Q & _).
  pose proof (reachable_perform _ _ _ _ (Book e (i :: more)) R) as R'.
  simpl in R'. unfold click_book_ticket.
  rewrite (book_ticket_run _ _ _ _ _ _ _ _ Hp Hr Hb) in *. cbn [snd] in R'.
  eexists rows, _, _. split; [exact Hb|]. split; [reflexivity|].
  cbn [conn set_conn bookings bookings_table logs_table].
  split; [reflexivity|]. split; [reflexivity|]. split; [reflexivity|].
  intros S S'. unfold bookings_in_sync in S, S'.
  cbn [conn set_conn bookings_table] in S'.
  destruct (queries_on_reachable _ R')
    as (rows' & _ & Hb' & _ & Hi' & _ & Q' & _).
  cbn [bookings] in Hb'. injection Hb' as <-.
  rewrite Q in S. rewrite Q' in S'. rewrite <- S in S'.
  injection S' as E.
  pose proof (head_recent rows (booked_row format_cell
               (next_rowid (map b_id rows)
                  (sqlite_sequence (conn w) !! "bookings"%string))
               (strip e) route)) as H1.
  rewrite head_lookup in H1.
  pose proof (recent_keys b_id _ 0 _ Hi' H1) as K2.
  rewrite E in H1.
  pose proof (recent_keys b_id rows 0 _ Hi H1) as K1.
  rewrite K1, length_app in K2. simpl in K2. lia.
Qed.

End Clicks.

(** * The program from its start *)

Section Programs.

Context {cell : Type}.
Variable format_cell : cell -> str.
Variable sqlite_int_of_text : str -> option Z.

Local Abbreviation database := (database cell).
Local Abbreviation program := (program cell).
Local Abbreviation script := (script format_cell).
Local Abbreviation main_loop := (main_loop format_cell sqlite_int_of_text).
Local Abbreviation on_screen := (on_screen format_cell sqlite_int_of_text).
Local Abbreviation reachable := (reachable format_cell sqlite_int_of_text).
Local Abbreviation click_book_ticket := (click_book_ticket format_cell).
Local Abbreviation click_validate_from_image :=
  (click_validate_from_image sqlite_int_of_text).
Local Abbreviation click_validate_via_webcam :=
  (click_validate_via_webcam sqlite_int_of_text).

(** A booking press whose image fails. *)
Definition image_fails (a : press) : bool :=
  match a with
  | PressBook _ _ false => true
  | _ => false
  end.

(** The presses of a session, one after the other. *)
Definition session (acts : list press) (p : program) : program :=
  foldl (fun p a => main_loop a p) p acts.

Lemma foldl_snoc_map {A B : Type} (f : A -> B) (acc : list B) (l : list A) :
  foldl (fun box row => box ++ [f row]) acc l = acc ++ map f l.
Proof.
  revert acc. induction l as [|x l IH]; intros acc; simpl.
  - rewrite app_nil_r. reflexivity.
  - rewrite IH, <- app_assoc. reflexivity.
Qed.

Lemma script_run (file : database) (df : list (route cell)) :
  script file (CsvFrame df)
  = Running
      {| p_routes_df := df;
         p_route_box := map (route_item format_cell) df;
         p_window :=
           {| conn :=
                {| bookings := Some [];
                   validation_logs := Some [];
                   sqlite_sequence :=
                     delete "validation_logs"%string
                       (delete "bookings"%string (sqlite_sequence file)) |};
              bookings_table := [];
              logs_table := [] |} |}.
Proof.
  unfold script. rewrite database_setup_run. cbn [load_routes].
  rewrite foldl_snoc_map. reflexivity.
Qed.

Lemma script_running file csv p :
  script file csv = Running p ->
  exists df, csv = CsvFrame df /\ script file (CsvFrame df) = Running p.
Proof.
  destruct csv as [| |df]; intros H.
  - unfold script in H. rewrite database_setup_run in H. discriminate.
  - unfold script in H. rewrite database_setup_run in H. discriminate.
  - exists df. split; [reflexivity|exact H].
Qed.

(** What the start establishes and every press keeps. *)
Lemma main_loop_keeps a p :
  reachable (p_routes_df p) (conn (p_window p)) ->
  logs_in_sync (p_window p) ->
  length (p_route_box p) = length (p_routes_df p) ->
  reachable (p_routes_df (main_loop a p)) (conn (p_window (main_loop a p))) /\
  logs_in_sync (p_window (main_loop a p)) /\
  length (p_route_box (main_loop a p)) = length (p_routes_df (main_loop a p)) /\
  (image_fails a = false ->
   bookings_in_sync (p_window p) ->
   bookings_in_sync (p_window (main_loop a p))).
Proof.
  intros R Sl Hlen. unfold main_loop.
  cbn [p_routes_df p_route_box p_window].
  destruct (pressed_keeps format_cell sqlite_int_of_text (p_routes_df p)
              a (p_window p) R Sl) as (R' & Sl' & Sb').
  split; [exact R'|]. split; [exact Sl'|]. split; [exact Hlen|].
  intros Hf. apply Sb'. intros e c ->. discriminate.
Qed.

Lemma start_keeps file csv p :
  script file csv = Running p ->
  reachable (p_routes_df p) (conn (p_window p)) /\
  logs_in_sync (p_window p) /\ bookings_in_sync (p_window p) /\
  length (p_route_box p) = length (p_routes_df p).
Proof.
  intros H. apply script_running in H as (df & -> & H).
  rewrite script_run in H. injection H as <-.
  cbn [p_routes_df p_route_box p_window conn].
  split; [|split; [|split]].
  - apply (reachable_setup _ _ _ file). apply database_setup_run.
  - reflexivity.
  - reflexivity.
  - apply length_map.
Qed.

Lemma on_screen_keeps p :
  on_screen p ->
  reachable (p_routes_df p) (conn (p_window p)) /\
  logs_in_sync (p_window p) /\
  length (p_route_box p) = length (p_routes_df p).
Proof.
  induction 1 as [file csv p H|p a _ (R & Sl & Hlen)].
  - destruct (start_keeps file csv p H) as (R & Sl & _ & Hlen). auto.
  - destruct (main_loop_keeps a p R Sl Hlen) as (R' & Sl' & Hlen' & _). auto.
Qed.

Lemma on_screen_session acts p : on_screen p -> on_screen (session acts p).
Proof.
  revert p. induction acts as [|a acts IH]; intros p H; [exact H|].
  apply IH. constructor. exact H.
Qed.

(** X16: the script resets the database before it reads the route
    catalogue: with a catalogue it reaches the main loop with one
    listbox line per route and both tables empty; without one (file
    missing or unreadable) it stops at the listbox with an
    AttributeError; either way the bookings and logs of earlier runs are
    gone. *)
Theorem script_resets_then_needs_routes :
  forall (file : database) (csv : csv_file cell),
    (forall df,
       csv = CsvFrame df ->
       exists d,
         script file csv
         = Running {| p_routes_df := df;
                      p_route_box := map (route_item format_cell) df;
                      p_window := {| conn := d;
                                     bookings_table := [];
                                     logs_table := [] |} |} /\
         bookings d = Some [] /\ validation_logs d = Some []) /\
    (csv = CsvMissing \/ csv = CsvUnreadable ->
     exists d,
       script file csv = Stopped AttributeError d /\
       bookings d = Some [] /\ validation_logs d = Some []).
Proof.
  intros file csv. split.
  - intros df ->. eexists. rewrite script_run.
    split; [reflexivity|]. split; reflexivity.
  - intros [-> | ->]; eexists; unfold script;
      rewrite database_setup_run; cbn [load_routes];
      (split; [reflexivity|]); split; reflexivity.
Qed.

(** X17: the log table on screen always shows the database: in every
    program a user can be looking at it holds the last 20 log rows,
    newest first. *)
Theorem log_table_shows_the_database :
  forall p,
    on_screen p ->
    exists logs,
      validation_logs (conn (p_window p)) = Some logs /\
      select_recent_logs (conn (p_window p)) = Ok (logs_table (p_window p)) /\
      logs_table (p_window p) = take 20 (reverse logs).
Proof.
  intros p H. destruct (on_screen_keeps p H) as (R & Sl & _).
  destruct (queries_on_reachable _ _ _ _ R)
    as (rows & logs & _ & Hl & _ & _ & _ & Q & _).
  exists logs. split; [exact Hl|]. split; [exact Sl|].
  unfold logs_in_sync in Sl. rewrite Q in Sl. injection Sl as <-.
  reflexivity.
Qed.

(** X18: the bookings table on screen shows the database as long as no
    image of a booking has failed: after a session of presses without
    such a failure it holds the last 20 bookings, newest first. *)
Theorem bookings_table_shows_the_database :
  forall file csv p acts,
    script file csv = Running p ->
    Forall (fun a => image_fails a = false) acts ->
    exists rows,
      bookings (conn (p_window (session acts p))) = Some rows /\
      bookings_table (p_window (session acts p)) = take 20 (reverse rows).
Proof.
  intros file csv p acts H F.
  destruct (start_keeps file csv p H) as (R & Sl & Sb & Hlen).
  clear H. revert p R Sl Sb Hlen.
  induction F as [|a acts Ha _ IH]; intros p R Sl Sb Hlen.
  - destruct (queries_on_reachable _ _ _ _ R)
      as (rows & logs & Hb & _ & _ & _ & Q & _).
    exists rows. split; [exact Hb|].
    unfold bookings_in_sync in Sb. simpl. rewrite Q in Sb.
    injection Sb as <-. reflexivity.
  - destruct (main_loop_keeps a p R Sl Hlen) as (R' & Sl' & Hlen' & Sb').
    exact (IH _ R' Sl' (Sb' Ha Sb) Hlen').
Qed.

Lemma on_screen_route_box p :
  on_screen p ->
  p_route_box p = map (route_item format_cell) (p_routes_df p).
Proof.
  induction 1 as [file csv p H|p a _ IH]; [|exact IH].
  apply script_running in H as (df & -> & H).
  rewrite script_run in H. injection H as <-. reflexivity.
Qed.

(** X19: the listbox and the catalogue stay in step, so that the line
    selected is the route booked: in every program on screen line [i] of
    the listbox is the line of route [i] of the catalogue; a booking
    with a name and a line selected, whose image is made, returns (no
    index is beyond the catalogue) and puts at the head of the bookings
    table a booking on the route of that line; a booking with nothing
    selected returns too; and the export returns every booking in the
    order made and leaves the window as it is. *)
Theorem selected_line_is_the_route_booked :
  forall p,
    on_screen p ->
    p_route_box p = map (route_item format_cell) (p_routes_df p) /\
    (forall entry_name i more line,
       p_route_box p !! i = Some line ->
       strip entry_name <> [] ->
       exists route booking_id qr w' r,
         p_routes_df p !! i = Some route /\
         line = route_item format_cell route /\
         click_book_ticket (p_routes_df p) entry_name (i :: more) true
           (p_window p)
         = (Returned (BookSuccess booking_id qr), w') /\
         head (bookings_table w') = Some r /\
         b_id r = booking_id /\ b_passenger r = strip entry_name /\
         b_route r = route_str format_cell route) /\
    (forall entry_name curselection,
       curselection = [] \/
       (exists i more, curselection = i :: more /\
                       (i < length (p_route_box p))%nat) ->
       exists x,
         fst (click_book_ticket (p_routes_df p) entry_name curselection
                true (p_window p)) = Returned x) /\
    (exists rows,
       bookings (conn (p_window p)) = Some rows /\
       map b_id rows = seqZ 1 (Z.of_nat (length rows)) /\
       export_bookings (p_window p) = (Returned rows, p_window p)).
Proof.
  intros p H. destruct (on_screen_keeps p H) as (R & Sl & Hlen).
  pose proof (on_screen_route_box p H) as Hbox.
  pose proof (reachable_well_formed _ _ _ _ R) as W.
  split; [exact Hbox|]. split; [|split].
  - intros e i more line Hline Hp.
    rewrite Hbox, list_lookup_fmap in Hline.
    destruct (p_routes_df p !! i) as [route|] eqn:Hr; [|discriminate].
    injection Hline as <-.
    destruct W as (rows & logs & Hb & Hl & _).
    pose proof (reachable_perform _ _ _ _ (Book e (i :: more)) R) as R'.
    simpl in R'. unfold click_book_ticket.
    rewrite (book_ticket_run _ _ _ _ _ _ _ _ Hp Hr Hb) in *.
    cbn [snd] in R'.
    rewrite (load_bookings_run _ (rows ++ [_])) by reflexivity.
    destruct (queries_on_reachable _ _ _ _ R')
      as (rows' & _ & Hb' & _ & _ & _ & Q & _).
    cbn [bookings] in Hb'. injection Hb' as <-.
    unfold select_recent_bookings in Q. cbn [bookings] in Q.
    injection Q as Q.
    eexists route, _, _, _, _. split; [reflexivity|].
    split; [reflexivity|]. split; [reflexivity|].
    cbn [bookings_table]. rewrite Q, head_recent.
    split; [reflexivity|]. repeat split.
  - intros e c Hsel. destruct W as (rows & logs & Hb & Hl & _).
    unfold click_book_ticket.
    destruct (strip e) as [|ch s'] eqn:E.
    { rewrite book_ticket_warning by (left; exact E). eauto. }
    destruct Hsel as [->|(i & more & -> & Hi)].
    { rewrite book_ticket_warning by (right; reflexivity). eauto. }
    rewrite Hlen in Hi. destruct (lookup_lt_is_Some_2 _ i Hi) as [route Hr].
    assert (Hp : strip e <> []) by (rewrite E; discriminate).
    rewrite (book_ticket_run _ _ _ _ _ _ _ _ Hp Hr Hb).
    rewrite (load_bookings_run _ (rows ++ [_])) by reflexivity. eauto.
  - destruct (queries_on_reachable _ _ _ _ R)
      as (rows & logs & Hb & _ & Hi & _ & _ & _ & Q).
    exists rows. split; [exact Hb|]. split; [exact Hi|].
    unfold export_bookings. rewrite Q. reflexivity.
Qed.

End Programs.

(** * The further properties on the sample run *)

Lemma reachable_asha_booked :
  reachable text_cell decimal_int_of_text sample_routes asha_booked.
Proof.
  apply (reachable_perform _ _ _ fresh (Book (lit " Asha ") [0%nat])).
  exact reachable_fresh.
Qed.

Lemma reachable_asha_validated :
  reachable text_cell decimal_int_of_text sample_routes asha_validated.
Proof. apply reachable_perform. exact reachable_asha_booked. Qed.

Lemma script_sample :
  script text_cell used_file (CsvFrame sample_routes) = Running sample_program.
Proof. vm_compute. reflexivity. Qed.

Lemma on_screen_sample :
  on_screen text_cell decimal_int_of_text sample_program.
Proof.
  apply (on_screen_start _ _ used_file (CsvFrame sample_routes)).
  exact script_sample.
Qed.

(** The bookings and logs after Asha's validation are numbered from 1. *)
Lemma rowids_count_up_witness :
  reachable text_cell decimal_int_of_text sample_routes asha_validated /\
  exists rows logs,
    bookings asha_validated = Some rows /\
    validation_logs asha_validated = Some logs /\
    map b_id rows = seqZ 1 (Z.of_nat (length rows)) /\
    map l_log_id logs = seqZ 1 (Z.of_nat (length logs)).
Proof.
  split; [exact reachable_asha_validated|].
  exact (rowids_count_up text_cell decimal_int_of_text sample_routes
           asha_validated reachable_asha_validated).
Defined.

(** After Asha's booking: a file that is no image, an image whose first
    symbol is not UTF-8, and a booking with the fourth line selected when
    the catalogue has one route. *)
Lemma handlers_raise_before_writing_witness :
  reachable text_cell decimal_int_of_text sample_routes asha_booked /\
  validate_from_image_file decimal_int_of_text NoImage
    (lit "2024-01-01 09:05:00") asha_booked
  = (Crashed OpenError, asha_booked) /\
  validate_from_image_file decimal_int_of_text
    (ImageWith [None; Some asha_qr]) (lit "2024-01-01 09:05:00") asha_booked
  = (Crashed UnicodeDecodeError, asha_booked) /\
  book_ticket text_cell sample_routes (lit "Ravi") [3%nat] asha_booked
  = (Raise IndexError, asha_booked) /\
  validate_from_image_file decimal_int_of_text (file_of (Some [asha_qr]))
    (lit "2024-01-01 09:05:00") asha_booked
  = click_of (validate_from_image decimal_int_of_text (Some [asha_qr])
                (lit "2024-01-01 09:05:00") asha_booked).
Proof.
  split; [exact reachable_asha_booked|].
  destruct (handlers_raise_before_writing text_cell decimal_int_of_text
              sample_routes asha_booked reachable_asha_booked)
    as (Hi & _ & Hb & Hd & _).
  split; [|split; [|split]].
  - apply Hi. split; [reflexivity|]. left. split; reflexivity.
  - apply Hi. split; [reflexivity|]. right.
    split; [exists [Some asha_qr]|]; reflexivity.
  - apply Hb. split; [reflexivity|]. split; [reflexivity|].
    split; [vm_compute; discriminate|].
    exists 3%nat, []. split; [reflexivity|]. simpl. lia.
  - apply Hd.
Defined.

(** Asha's ticket at the second turn of the camera, and a camera that
    never shows a ticket. *)
Lemma webcam_loop_ends_at_first_stop_witness :
  reachable text_cell decimal_int_of_text sample_routes asha_booked /\
  (exists ending,
     (forall fuel, (1 < fuel)%nat ->
        validate_via_webcam_camera decimal_int_of_text fuel sample_camera
          (lit "2024-01-01 09:06:00") asha_booked = Some ending) /\
     (forall fuel, (fuel <= 1)%nat ->
        validate_via_webcam_camera decimal_int_of_text fuel sample_camera
          (lit "2024-01-01 09:06:00") asha_booked = None) /\
     fst ending = Returned (Validated (lit "1")) /\
     status_of 1 (snd ending) = Some (lit "Validated")) /\
  (forall fuel,
     validate_via_webcam_camera decimal_int_of_text fuel idle_camera
       (lit "2024-01-01 09:06:00") asha_booked = None).
Proof.
  split; [exact reachable_asha_booked|].
  pose proof (webcam_loop_ends_at_first_stop text_cell decimal_int_of_text
                sample_routes) as T.
  split.
  - destruct (proj1 (T sample_camera (lit "2024-01-01 09:06:00") asha_booked
                       reachable_asha_booked) 1%nat)
      as (ending & Hsome & Hnone & _ & _ & _ & Hval).
    + intros m Hm. destruct m as [|m]; [reflexivity|lia].
    + reflexivity.
    + exists ending. split; [exact Hsome|]. split; [exact Hnone|].
      rewrite (Hval _ [Some (lit "garbage")] asha_qr [] (lit "1")
                 eq_refl eq_refl eq_refl eq_refl).
      split; reflexivity.
  - apply (proj2 (T idle_camera (lit "2024-01-01 09:06:00") asha_booked
                    reachable_asha_booked)).
    intros turn. reflexivity.
Defined.

(** Asha's booking through a validation and another booking. *)
Lemma bookings_keep_their_fields_witness :
  reachable text_cell decimal_int_of_text sample_routes asha_booked /\
  exists rows rows' new,
    bookings asha_booked = Some rows /\
    bookings (run text_cell decimal_int_of_text sample_routes
                [from_image; Book (lit "Ravi") [0%nat]] asha_booked)
    = Some (rows' ++ new) /\
    Forall2 same_ticket rows rows' /\
    (length new
     <= length (filter is_booking [from_image; Book (lit "Ravi") [0%nat]]))%nat.
Proof.
  split; [exact reachable_asha_booked|].
  exact (bookings_keep_their_fields text_cell decimal_int_of_text
           sample_routes asha_booked [from_image; Book (lit "Ravi") [0%nat]]
           reachable_asha_booked).
Defined.

(** The log through a booking and two validations. *)
Lemma logs_append_only_witness :
  reachable text_cell decimal_int_of_text sample_routes asha_validated /\
  exists logs new_logs,
    validation_logs asha_validated = Some logs /\
    validation_logs
      (run text_cell decimal_int_of_text sample_routes
         [Book (lit "Ravi") [0%nat]; via_webcam; from_image] asha_validated)
    = Some (logs ++ new_logs) /\
    (length new_logs
     <= length (filter (fun a => negb (is_booking a))
                  [Book (lit "Ravi") [0%nat]; via_webcam; from_image]))%nat.
Proof.
  split; [exact reachable_asha_validated|].
  exact (logs_append_only text_cell decimal_int_of_text sample_routes
           asha_validated
           [Book (lit "Ravi") [0%nat]; via_webcam; from_image]
           reachable_asha_validated).
Defined.

(** A validation from an image, a booking and a validation by webcam
    after Asha's booking: two log rows. *)
Lemma log_rows_are_the_reported_validations_witness :
  reachable text_cell decimal_int_of_text sample_routes asha_booked /\
  exists logs new_logs,
    validation_logs asha_booked = Some logs /\
    validation_logs
      (run text_cell decimal_int_of_text sample_routes
         [from_image; Book (lit "Ravi") [0%nat]; via_webcam] asha_booked)
    = Some (logs ++ new_logs) /\
    map method_and_time new_logs
    = [ (lit "Image", lit "2024-01-01 09:05:00");
        (lit "Webcam", lit "2024-01-01 09:06:00") ].
Proof.
  split; [exact reachable_asha_booked|].
  destruct (log_rows_are_the_reported_validations text_cell
              decimal_int_of_text sample_routes asha_booked
              [from_image; Book (lit "Ravi") [0%nat]; via_webcam]
              reachable_asha_booked)
    as (logs & new_logs & Hl & Hl' & E & _).
  exists logs, new_logs. split; [exact Hl|]. split; [exact Hl'|].
  rewrite E. reflexivity.
Defined.

Lemma validated_bookings_are_logged_witness :
  reachable text_cell decimal_int_of_text sample_routes asha_validated /\
  exists rows logs,
    bookings asha_validated = Some rows /\
    validation_logs asha_validated = Some logs /\
    forall r,
      r ∈ rows -> b_status r = lit "Validated" ->
      exists l, l ∈ logs /\
                decimal_int_of_text (l_booking_id l) = Some (b_id r).
Proof.
  split; [exact reachable_asha_validated|].
  exact (validated_bookings_are_logged text_cell decimal_int_of_text
           sample_routes asha_validated reachable_asha_validated).
Defined.

Lemma stray_qr_names_no_booking :
  forall id, decimal_int_of_text (lit "7") = Some id ->
             status_of id asha_booked = None.
Proof. intros id H. vm_compute in H. injection H as <-. reflexivity. Qed.

(** The text "BookingID:7" when the only booking has the id 1. *)
Lemma unknown_id_is_logged_witness :
  reachable text_cell decimal_int_of_text sample_routes asha_booked /\
  booking_id_of stray_qr = Some (lit "7") /\
  bookings
    (perform text_cell decimal_int_of_text sample_routes
       (FromImage (Some [stray_qr]) (lit "2024-01-01 09:05:00")) asha_booked)
  = bookings asha_booked /\
  (exists logs l,
     validation_logs asha_booked = Some logs /\
     validation_logs
       (perform text_cell decimal_int_of_text sample_routes
          (FromImage (Some [stray_qr]) (lit "2024-01-01 09:05:00"))
          asha_booked)
     = Some (logs ++ [l]) /\
     l_method l = lit "Image") /\
  fst (validate_from_image decimal_int_of_text (Some [stray_qr])
         (lit "2024-01-01 09:05:00") asha_booked)
  = Ok (Validated (lit "7")).
Proof.
  assert (Hq : booking_id_of stray_qr = Some (lit "7")) by reflexivity.
  split; [exact reachable_asha_booked|]. split; [exact Hq|].
  destruct (unknown_id_is_logged text_cell decimal_int_of_text sample_routes
              asha_booked stray_qr (lit "7")
              (FromImage (Some [stray_qr]) (lit "2024-01-01 09:05:00"))
              (lit "Image") (lit "2024-01-01 09:05:00")
              reachable_asha_booked Hq (presents_image stray_qr [] _)
              stray_qr_names_no_booking)
    as (Hb & (logs & l & Hl & Hl' & Hm & _) & Hv).
  split; [exact Hb|]. split; [|apply Hv].
  exists logs, l. auto.
Defined.

(** An image with a symbol "garbage" before Asha's ticket. *)
Lemma image_reads_first_symbol_only_witness :
  booking_id_of (lit "garbage") = None /\
  booking_id_of asha_qr = Some (lit "1") /\
  validate_from_image decimal_int_of_text
    (Some (lit "garbage" :: [] ++ asha_qr :: []))
    (lit "2024-01-01 09:05:00") asha_booked
  = (Ok InvalidQRCode, asha_booked).
Proof.
  assert (Ht : booking_id_of (lit "garbage") = None) by reflexivity.
  assert (Hq : booking_id_of asha_qr = Some (lit "1")) by reflexivity.
  split; [exact Ht|]. split; [exact Hq|].
  exact (proj1 (image_reads_first_symbol_only decimal_int_of_text
                  (lit "garbage") [] asha_qr [] (lit "1") false
                  (lit "2024-01-01 09:05:00") asha_booked
                  Ht (Forall_nil_2 _) Hq)).
Defined.

Lemma bookings_asha_booked :
  bookings asha_booked
  = Some [ booked_row text_cell 1 (lit "Asha")
             {| route_BusNo := lit "12A";
                route_Source := lit "CityX";
                route_Destination := lit "CityY";
                route_Time := lit "09:00";
                route_Fare := lit "50.0" |} ].
Proof. reflexivity. Qed.

Lemma reachable_ravi_booked :
  reachable text_cell decimal_int_of_text sample_routes ravi_booked.
Proof. apply reachable_perform. exact reachable_asha_validated. Qed.

(** The tickets of Asha and Ravi, who booked the same route. *)
Lemma tickets_are_distinct_witness :
  reachable text_cell decimal_int_of_text sample_routes ravi_booked /\
  exists r1 r2,
    bookings ravi_booked = Some [r1; r2] /\
    b_route r1 = b_route r2 /\
    encode text_cell r1 <> encode text_cell r2.
Proof.
  split; [exact reachable_ravi_booked|].
  eexists _, _. split; [reflexivity|]. split; [reflexivity|].
  refine (tickets_are_distinct text_cell decimal_int_of_text sample_routes
            ravi_booked _ 0 1 _ _ reachable_ravi_booked eq_refl
            eq_refl eq_refl _).
  discriminate.
Defined.


(** A text with Asha's id and another passenger validates her booking. *)
Lemma any_text_with_the_id_validates_witness :
  reachable text_cell decimal_int_of_text sample_routes asha_booked /\
  is_Some (status_of 1 asha_booked) /\
  status_of 1
    (perform text_cell decimal_int_of_text sample_routes
       (FromImage (Some [forged_qr]) (lit "2024-01-01 09:05:00")) asha_booked)
  = Some (lit "Validated").
Proof.
  assert (S : is_Some (status_of 1 asha_booked)) by (eexists; reflexivity).
  split; [exact reachable_asha_booked|]. split; [exact S|].
  exact (any_text_with_the_id_validates text_cell decimal_int_of_text
           sample_routes decimal_int_of_str_of_int asha_booked 1
           (bar :: lit "Passenger:Mallory")
           (FromImage (Some [forged_qr]) (lit "2024-01-01 09:05:00"))
           (lit "Image") (lit "2024-01-01 09:05:00")
           reachable_asha_booked S
           (or_intror (ex_intro _ (lit "Passenger:Mallory") eq_refl))
           (presents_image forged_qr [] _)).
Defined.

Lemma tables_show_the_newest_twenty_witness :
  reachable text_cell decimal_int_of_text sample_routes asha_validated /\
  exists rows,
    bookings asha_validated = Some rows /\
    select_recent_bookings asha_validated = Ok (take 20 (reverse rows)).
Proof.
  split; [exact reachable_asha_validated|].
  destruct (tables_show_the_newest_twenty text_cell decimal_int_of_text
              sample_routes asha_validated reachable_asha_validated)
    as (rows & logs & shown & shown_logs & Hb & _ & Q & _ & -> & _).
  exists rows. split; [exact Hb|exact Q].
Defined.

(** Asha's booking heads the bookings table after the press. *)
Lemma newest_row_comes_first_witness :
  reachable text_cell decimal_int_of_text sample_routes (conn sample_window) /\
  exists r,
    head (bookings_table
            (snd (click_book_ticket text_cell sample_routes (lit " Asha ")
                    [0%nat] true sample_window))) = Some r /\
    b_id r = 1 /\ b_passenger r = strip (lit " Asha ").
Proof.
  split; [exact reachable_fresh|].
  destruct (proj1 (newest_row_comes_first text_cell decimal_int_of_text
                     sample_routes sample_window reachable_fresh)
              (lit " Asha ") [0%nat] 1 asha_qr
              (snd (click_book_ticket text_cell sample_routes (lit " Asha ")
                      [0%nat] true sample_window))
              ltac:(vm_compute; reflexivity))
    as (r & Hh & Hi & Hp & _).
  exists r. auto.
Defined.

(** Asha's booking when its image cannot be made. *)
Lemma booking_outlives_image_failure_witness :
  reachable text_cell decimal_int_of_text sample_routes (conn sample_window) /\
  strip (lit " Asha ") <> [] /\
  exists w',
    click_book_ticket text_cell sample_routes (lit " Asha ") [0%nat] false
      sample_window
    = (Crashed ImageError, w') /\
    bookings_table w' = bookings_table sample_window.
Proof.
  assert (Hp : strip (lit " Asha ") <> []) by (vm_compute; discriminate).
  split; [exact reachable_fresh|]. split; [exact Hp|].
  destruct (booking_outlives_image_failure text_cell decimal_int_of_text
              sample_routes sample_window (lit " Asha ") 0 [] _
              reachable_fresh Hp eq_refl)
    as (rows & booking_id & w' & _ & E & _ & Ht & _).
  exists w'. split; [exact E|exact Ht].
Defined.

Lemma log_table_shows_the_database_witness :
  on_screen text_cell decimal_int_of_text
    (session text_cell decimal_int_of_text sample_session sample_program) /\
  exists logs,
    validation_logs
      (conn (p_window (session text_cell decimal_int_of_text sample_session
                         sample_program))) = Some logs /\
    logs_table
      (p_window (session text_cell decimal_int_of_text sample_session
                   sample_program))
    = take 20 (reverse logs).
Proof.
  assert (H : on_screen text_cell decimal_int_of_text
                (session text_cell decimal_int_of_text sample_session
                   sample_program)).
  { apply on_screen_session. exact on_screen_sample. }
  split; [exact H|].
  destruct (log_table_shows_the_database text_cell decimal_int_of_text _ H)
    as (logs & Hl & _ & E).
  exists logs. split; [exact Hl|exact E].
Defined.

Lemma bookings_table_shows_the_database_witness :
  script text_cell used_file (CsvFrame sample_routes) = Running sample_program /\
  Forall (fun a => image_fails a = false) sample_session /\
  exists rows,
    bookings
      (conn (p_window (session text_cell decimal_int_of_text sample_session
                         sample_program))) = Some rows /\
    bookings_table
      (p_window (session text_cell decimal_int_of_text sample_session
                   sample_program))
    = take 20 (reverse rows).
Proof.
  assert (F : Forall (fun a => image_fails a = false) sample_session)
    by (repeat constructor).
  split; [exact script_sample|]. split; [exact F|].
  exact (bookings_table_shows_the_database text_cell decimal_int_of_text
           used_file (CsvFrame sample_routes) sample_program sample_session
           script_sample F).
Defined.

(** The one line of the listbox selected for Asha. *)
Lemma selected_line_is_the_route_booked_witness :
  on_screen text_cell decimal_int_of_text sample_program /\
  strip (lit " Asha ") <> [] /\
  exists route booking_id qr w' r,
    p_routes_df sample_program !! 0%nat = Some route /\
    p_route_box sample_program !! 0%nat = Some (route_item text_cell route) /\
    click_book_ticket text_cell (p_routes_df sample_program) (lit " Asha ")
      [0%nat] true (p_window sample_program)
    = (Returned (BookSuccess booking_id qr), w') /\
    head (bookings_table w') = Some r /\
    b_route r = lit "12A: CityX-CityY".
Proof.
  assert (Hp : strip (lit " Asha ") <> []) by (vm_compute; discriminate).
  split; [exact on_screen_sample|]. split; [exact Hp|].
  destruct (selected_line_is_the_route_booked text_cell decimal_int_of_text
              sample_program on_screen_sample) as (_ & Hsel & _).
  destruct (Hsel (lit " Asha ") 0%nat [] _ eq_refl Hp)
    as (route & booking_id & qr & w' & r & Hr & Hline & E & Hh & _ & _ & Hrt).
  exists route, booking_id, qr, w', r.
  split; [exact Hr|]. split; [rewrite <- Hline; reflexivity|].
  split; [exact E|]. split; [exact Hh|].
  rewrite Hrt. cbn in Hr. injection Hr as <-. reflexivity.
Defined.
